(** * CodeCollab backend: the real-time synchronisation engine

    A shallow embedding of [main.py] (the [ConnectionManager] and the
    [websocket_endpoint] coroutine) and of the store operations of
    [database.py] that the endpoint calls.

    Modelling conventions.
    - A [WebSocket] object is its identity (a [positive]); the framework
      creates a fresh object for every channel.
    - Python [dict]s are [gmap]s, Python [set]s are [gset]s.  A Python set is
      iterated in an unspecified order; the model iterates [elements].
    - [time.time()] returns seconds; the model uses exact rationals ([Q]).
    - A JSON value is a tree; numbers are integers, and the fields of an
      object are a list of pairs that [get] searches from the front.
    - A Python [str] is the string of the bytes of its UTF-8 text.  From an
      escape [json.loads] also builds a [str] with a lone surrogate, which
      has no UTF-8 text: it is written with the three bytes that the same
      scheme gives the surrogate, which UTF-8 excludes.
    - A coroutine is a [Task]: a function of the environment (clock and
      transport) and the world (manager and store) that returns an outcome
      (a value or a raised exception), the new world and the trace of
      effects it performed on the outside (socket and store calls).
    - The endpoint is cut at its [receive_text]: the opening of a channel
      and each turn of the loop run as a unit, one after the other;
      interleavings of several coroutines at the other [await] points are
      outside the model.
    - A store call raises when the driver cannot encode as BSON a value it
      is given ([bson_encodable]); it returns normally otherwise (a store
      that cannot be reached, or a server that refuses what the driver has
      encoded, is outside the model).
      For the endpoint of the channels the timestamps [created_at] and
      [last_updated] of a document are left out. *)

From Stdlib Require Import QArith Lqa.
From stdpp Require Import gmap strings list fin_maps.

Set Warnings "-register-all,-clear-no-such-hyp".
Close Scope Q_scope.
Open Scope string_scope.
Open Scope list_scope.
Open Scope stdpp_scope.

(** ** JSON values, as produced by [json.loads] and consumed by [json.dumps] *)

Inductive json : Type :=
  | JNull
  | JBool (b : bool)
  | JNum (n : Z)
  | JStr (s : string)
  | JArr (items : list json)
  | JObj (fields : list (string * json)).

(** [d.get(key, default)] on the fields of a parsed object. *)
Fixpoint dict_get (fields : list (string * json)) (key : string) (default : json) : json :=
  match fields with
  | [] => default
  | (k, v) :: rest => if String.eqb k key then v else dict_get rest key default
  end.

(** [value == "literal"] for a value taken out of a parsed message. *)
Definition json_is_str (value : json) (literal : string) : bool :=
  match value with
  | JStr s => String.eqb s literal
  | _ => false
  end.

(** ** What the store takes

    The driver encodes the values of an update as BSON before it sends
    them, and raises when it cannot: on an integer that does not fit in
    eight bytes ([OverflowError]), on a [str] that has no UTF-8 text, and on
    a key of a nested object that holds a NUL character ([InvalidDocument]),
    at any depth of the value. *)

Definition byte_between (lo hi : N) (c : Ascii.ascii) : bool :=
  (lo <=? Ascii.N_of_ascii c)%N && (Ascii.N_of_ascii c <=? hi)%N.

(** Well-formed UTF-8: no surrogate, no overlong form, nothing above
    U+10FFFF. *)
Fixpoint utf8_text (s : string) : bool :=
  match s with
  | EmptyString => true
  | String a rest =>
      if byte_between 0 127 a then utf8_text rest
      else if byte_between 194 223 a then
        match rest with
        | String b rest' => byte_between 128 191 b && utf8_text rest'
        | _ => false
        end
      else if byte_between 224 239 a then
        match rest with
        | String b (String c rest') =>
            (if byte_between 224 224 a then byte_between 160 191 b
             else if byte_between 237 237 a then byte_between 128 159 b
             else byte_between 128 191 b)
            && byte_between 128 191 c && utf8_text rest'
        | _ => false
        end
      else if byte_between 240 244 a then
        match rest with
        | String b (String c (String d rest')) =>
            (if byte_between 240 240 a then byte_between 144 191 b
             else if byte_between 244 244 a then byte_between 128 143 b
             else byte_between 128 191 b)
            && byte_between 128 191 c && byte_between 128 191 d && utf8_text rest'
        | _ => false
        end
      else false
  end.

Fixpoint nul_free (key : string) : bool :=
  match key with
  | EmptyString => true
  | String c rest => negb (Ascii.eqb c Ascii.zero) && nul_free rest
  end.

Fixpoint bson_encodable (value : json) : bool :=
  match value with
  | JNull | JBool _ => true
  | JNum n => (- 2 ^ 63 <=? n)%Z && (n <? 2 ^ 63)%Z
  | JStr s => utf8_text s
  | JArr items => forallb bson_encodable items
  | JObj fields =>
      forallb (fun kv => nul_free kv.1 && utf8_text kv.1 && bson_encodable kv.2) fields
  end.

(** ** The durable store ([database.py]) *)

Record SpaceDoc : Type := mkSpaceDoc {
  doc_code : json;
  doc_language : json;
  doc_active_users : list string
}.

Module Database.

(** [insert_one]; the identifier is taken to be new. *)
Definition create_space (space_id language initial_code : string)
    (db : gmap string SpaceDoc) : SpaceDoc * gmap string SpaceDoc :=
  let space_document := mkSpaceDoc (JStr initial_code) (JStr language) [] in
  (space_document, <[space_id := space_document]> db).

Definition get_space (space_id : string) (db : gmap string SpaceDoc) : option SpaceDoc :=
  db !! space_id.

Definition update_space_code (space_id : string) (code : json)
    (db : gmap string SpaceDoc) : bool * gmap string SpaceDoc :=
  (bool_decide (is_Some (db !! space_id)),
   alter (fun d => mkSpaceDoc code (doc_language d) (doc_active_users d)) space_id db).

Definition update_space_language (space_id : string) (language : json)
    (db : gmap string SpaceDoc) : bool * gmap string SpaceDoc :=
  (bool_decide (is_Some (db !! space_id)),
   alter (fun d => mkSpaceDoc (doc_code d) language (doc_active_users d)) space_id db).

Definition delete_space (space_id : string)
    (db : gmap string SpaceDoc) : bool * gmap string SpaceDoc :=
  (bool_decide (is_Some (db !! space_id)), delete space_id db).

(** [$addToSet] *)
Definition add_user_to_space (space_id user_id : string)
    (db : gmap string SpaceDoc) : gmap string SpaceDoc :=
  alter (fun d => mkSpaceDoc (doc_code d) (doc_language d)
                    (if bool_decide (user_id ∈ doc_active_users d)
                     then doc_active_users d
                     else doc_active_users d ++ [user_id])) space_id db.

(** [$pull] *)
Definition remove_user_from_space (space_id user_id : string)
    (db : gmap string SpaceDoc) : gmap string SpaceDoc :=
  alter (fun d => mkSpaceDoc (doc_code d) (doc_language d)
                    (filter (fun u => u ≠ user_id) (doc_active_users d))) space_id db.

End Database.

(** ** The world: connection manager and store *)

(** A socket object is known by its identity. *)
Abbreviation WebSocket := positive (only parsing).

Record ConnectionManager : Type := mkManager {
  active_connections : gmap string (gset WebSocket);
  user_ids : gmap WebSocket string;
  last_db_write : gmap string Q
}.

Record World : Type := mkWorld {
  manager : ConnectionManager;
  database : gmap string SpaceDoc
}.

Definition empty_manager : ConnectionManager := mkManager ∅ ∅ ∅.

(** ** Effects visible outside the process *)

Inductive DbCall : Type :=
  | GetSpace (space_id : string)
  | UpdateSpaceCode (space_id : string) (code : json)
  | UpdateSpaceLanguage (space_id : string) (language : json)
  | AddUserToSpace (space_id user_id : string)
  | RemoveUserFromSpace (space_id user_id : string).

Inductive Effect : Type :=
  | EAccept (websocket : WebSocket)
  | EClose (websocket : WebSocket) (code : Z) (reason : string)
  | ESend (websocket : WebSocket) (message : json)
  | ESendFailed (websocket : WebSocket) (message : json)
  | EDb (call : DbCall)
  | EDbFailed (call : DbCall).      (* the store call raised *)

(** ** The environment of one handler run *)

Inductive SendResult : Type :=
  | SendOk
  | SendDisconnect   (* the send raises WebSocketDisconnect *)
  | SendError.       (* the send raises another exception *)

Record Env : Type := mkEnv {
  clock : Q;                             (* what time.time() returns *)
  transport : WebSocket -> SendResult    (* what a send on a socket does *)
}.

(** ** Tasks *)

Inductive Exn : Type :=
  | WebSocketDisconnect
  | OtherException.

Inductive Outcome (A : Type) : Type :=
  | Ret (a : A)
  | Raise (e : Exn).
Arguments Ret {A} a.
Arguments Raise {A} e.

Definition Task (A : Type) : Type := Env -> World -> Outcome A * World * list Effect.

Definition ret {A} (a : A) : Task A := fun _ w => (Ret a, w, []).

Definition raise {A} (e : Exn) : Task A := fun _ w => (Raise e, w, []).

Definition bind {A B} (t : Task A) (k : A -> Task B) : Task B :=
  fun env w =>
    match t env w with
    | (Ret a, w1, tr1) =>
        match k a env w1 with
        | (o, w2, tr2) => (o, w2, tr1 ++ tr2)
        end
    | (Raise e, w1, tr1) => (Raise e, w1, tr1)
    end.

(** [try: t except Exception as e: h e] *)
Definition try_except {A} (t : Task A) (h : Exn -> Task A) : Task A :=
  fun env w =>
    match t env w with
    | (Ret a, w1, tr1) => (Ret a, w1, tr1)
    | (Raise e, w1, tr1) =>
        match h e env w1 with
        | (o, w2, tr2) => (o, w2, tr1 ++ tr2)
        end
    end.

(** [Task] is a monad in the sense of stdpp, which gives the notations
    [x ← t; k] and [t;; k]. *)
#[global] Instance Task_ret : MRet Task := fun A a => ret a.
#[global] Instance Task_bind : MBind Task := fun A B k t => bind t k.

Definition emit (e : Effect) : Task unit := fun _ w => (Ret tt, w, [e]).

Definition get_manager : Task ConnectionManager := fun _ w => (Ret (manager w), w, []).

Definition set_manager (m : ConnectionManager) : Task unit :=
  fun _ w => (Ret tt, mkWorld m (database w), []).

Definition time_time : Task Q := fun env w => (Ret (clock env), w, []).

(** Store calls as tasks: the call is traced and the store is updated.  The
    two updates are given a value that comes from a message of a client:
    they raise, and leave the store as it is, when it cannot be encoded. *)

Definition get_space (space_id : string) : Task (option SpaceDoc) :=
  fun _ w => (Ret (Database.get_space space_id (database w)), w, [EDb (GetSpace space_id)]).

Definition update_space_code (space_id : string) (code : json) : Task bool :=
  fun _ w =>
    if bson_encodable code
    then
      let '(modified, db) := Database.update_space_code space_id code (database w) in
      (Ret modified, mkWorld (manager w) db, [EDb (UpdateSpaceCode space_id code)])
    else (Raise OtherException, w, [EDbFailed (UpdateSpaceCode space_id code)]).

Definition update_space_language (space_id : string) (language : json) : Task bool :=
  fun _ w =>
    if bson_encodable language
    then
      let '(modified, db) :=
        Database.update_space_language space_id language (database w) in
      (Ret modified, mkWorld (manager w) db, [EDb (UpdateSpaceLanguage space_id language)])
    else (Raise OtherException, w, [EDbFailed (UpdateSpaceLanguage space_id language)]).

Definition add_user_to_space (space_id user_id : string) : Task unit :=
  fun _ w =>
    (Ret tt, mkWorld (manager w) (Database.add_user_to_space space_id user_id (database w)),
     [EDb (AddUserToSpace space_id user_id)]).

Definition remove_user_from_space (space_id user_id : string) : Task unit :=
  fun _ w =>
    (Ret tt, mkWorld (manager w) (Database.remove_user_from_space space_id user_id (database w)),
     [EDb (RemoveUserFromSpace space_id user_id)]).

(** Socket calls. *)

Definition accept (websocket : WebSocket) : Task unit := emit (EAccept websocket).

Definition close (websocket : WebSocket) (code : Z) (reason : string) : Task unit :=
  emit (EClose websocket code reason).

(** [send_text] of the serialised message, [send_json] of the message: the
    trace records the JSON value that goes on the wire. *)
Definition send_text (websocket : WebSocket) (message : json) : Task unit :=
  fun env w =>
    match transport env websocket with
    | SendOk => (Ret tt, w, [ESend websocket message])
    | SendDisconnect => (Raise WebSocketDisconnect, w, [ESendFailed websocket message])
    | SendError => (Raise OtherException, w, [ESendFailed websocket message])
    end.

Definition send_json (websocket : WebSocket) (message : json) : Task unit :=
  send_text websocket message.

(** ** [ConnectionManager] *)

(** Truth value of a [str]: only the empty string is false. *)
Definition truthy (s : string) : bool := bool_decide (s ≠ "").

Definition connect (websocket : WebSocket) (space_id user_id : string) : Task unit :=
  accept websocket;;
  m ← get_manager;
  let connections := default ∅ (active_connections m !! space_id) in
  set_manager (mkManager (<[space_id := connections ∪ {[websocket]}]> (active_connections m))
                         (<[websocket := user_id]> (user_ids m))
                         (last_db_write m));;
  add_user_to_space space_id user_id.

(** [discard] of the socket from the member set of the space, and [del] of
    the entry when the set has become empty (the first [if] of [disconnect]). *)
Definition discard (websocket : WebSocket) (space_id : string)
    (connections : gmap string (gset WebSocket)) : gmap string (gset WebSocket) :=
  match connections !! space_id with
  | Some members =>
      let members' := members ∖ {[websocket]} in
      if decide (members' = ∅)
      then delete space_id connections
      else <[space_id := members']> connections
  | None => connections
  end.

Definition disconnect (websocket : WebSocket) (space_id : string) : Task unit :=
  m ← get_manager;
  let user_id := user_ids m !! websocket in
  set_manager (mkManager (discard websocket space_id (active_connections m))
                         (delete websocket (user_ids m))
                         (last_db_write m));;
  match user_id with
  | Some user_id =>
      if truthy user_id then remove_user_from_space space_id user_id else mret tt
  | None => mret tt
  end.

(** The first loop of [broadcast]: one send per member other than [exclude];
    a member whose send raises is collected in [dead_connections]. *)
Fixpoint send_to_each (connections : list WebSocket) (exclude : option WebSocket)
    (message_json : json) (dead_connections : gset WebSocket) : Task (gset WebSocket) :=
  match connections with
  | [] => mret dead_connections
  | connection :: rest =>
      if bool_decide (Some connection = exclude)
      then send_to_each rest exclude message_json dead_connections
      else
        dead ← try_except (send_text connection message_json;; mret dead_connections)
                          (fun _ => mret (dead_connections ∪ {[connection]}));
        send_to_each rest exclude message_json dead
  end.

(** The second loop of [broadcast]. *)
Fixpoint disconnect_each (dead_connections : list WebSocket) (space_id : string) : Task unit :=
  match dead_connections with
  | [] => mret tt
  | dead_conn :: rest => disconnect dead_conn space_id;; disconnect_each rest space_id
  end.

Definition broadcast (space_id : string) (message : json) (exclude : option WebSocket)
    : Task unit :=
  m ← get_manager;
  match active_connections m !! space_id with
  | None => mret tt
  | Some connections =>
      dead_connections ← send_to_each (elements connections) exclude message ∅;
      disconnect_each (elements dead_connections) space_id
  end.

Definition get_active_users (space_id : string) : Task nat :=
  m ← get_manager;
  match active_connections m !! space_id with
  | None => mret 0
  | Some connections => mret (size connections)
  end.

(** ** Outbound messages *)

Definition init_message (space_id user_id : string) (space : SpaceDoc) (active_users : nat)
    : json :=
  JObj [("type", JStr "init"); ("space_id", JStr space_id); ("user_id", JStr user_id);
        ("code", doc_code space); ("language", doc_language space);
        ("active_users", JNum (Z.of_nat active_users))].

Definition user_join_message (user_id : string) (active_users : nat) : json :=
  JObj [("type", JStr "user_join"); ("user_id", JStr user_id);
        ("active_users", JNum (Z.of_nat active_users))].

Definition code_change_message (new_code : json) (user_id : string) : json :=
  JObj [("type", JStr "code_change"); ("code", new_code); ("user_id", JStr user_id)].

Definition language_change_message (new_language : json) (user_id : string) : json :=
  JObj [("type", JStr "language_change"); ("language", new_language);
        ("user_id", JStr user_id)].

Definition cursor_move_message (user_id : string) (cursor_position : json) : json :=
  JObj [("type", JStr "cursor_move"); ("user_id", JStr user_id);
        ("cursor_position", cursor_position)].

Definition user_leave_message (user_id : string) (active_users : nat) : json :=
  JObj [("type", JStr "user_leave"); ("user_id", JStr user_id);
        ("active_users", JNum (Z.of_nat active_users))].

(** ** [websocket_endpoint] *)

(** What [receive_text] meets on the channel.  The text of a frame is given by
    what [json.loads] makes of it: a value, or nothing when it cannot be
    decoded. *)
Inductive Frame : Type :=
  | TextFrame (data : option json)
  | Disconnected      (* receive_text raises WebSocketDisconnect *)
  | ReceiveError.     (* receive_text raises another exception *)

Definition receive_text (frame : Frame) : Task (option json) :=
  match frame with
  | TextFrame data => mret data
  | Disconnected => raise WebSocketDisconnect
  | ReceiveError => raise OtherException
  end.

Definition json_loads (data : option json) : Task json :=
  match data with
  | Some message => mret message
  | None => raise OtherException      (* json.JSONDecodeError *)
  end.

(** [message.get(key, default)]: only a dict has [get]. *)
Definition message_get (message : json) (key : string) (default : json) : Task json :=
  match message with
  | JObj fields => mret (dict_get fields key default)
  | _ => raise OtherException         (* AttributeError *)
  end.

Definition set_last_db_write (space_id : string) (now : Q) : Task unit :=
  m ← get_manager;
  set_manager (mkManager (active_connections m) (user_ids m)
                         (<[space_id := now]> (last_db_write m))).

(** The body of the [while True] loop after the message has been decoded. *)
Definition handle_message (websocket : WebSocket) (space_id user_id : string)
    (message : json) : Task unit :=
  message_type ← message_get message "type" JNull;
  if json_is_str message_type "code_change" then
    new_code ← message_get message "code" (JStr "");
    now ← time_time;
    m ← get_manager;
    let last := default 0%Q (last_db_write m !! space_id) in
    (if Qle_bool (1 # 2) (now - last)
     then update_space_code space_id new_code;; set_last_db_write space_id now
     else mret tt);;
    broadcast space_id (code_change_message new_code user_id) (Some websocket)
  else if json_is_str message_type "language_change" then
    new_language ← message_get message "language" (JStr "python");
    update_space_language space_id new_language;;
    broadcast space_id (language_change_message new_language user_id) (Some websocket)
  else if json_is_str message_type "cursor_move" then
    cursor_position ← message_get message "cursor_position" (JObj []);
    broadcast space_id (cursor_move_message user_id cursor_position) (Some websocket)
  else mret tt.

(** The two [except] clauses of the endpoint. *)
Definition on_exception (websocket : WebSocket) (space_id user_id : string) (e : Exn)
    : Task unit :=
  match e with
  | WebSocketDisconnect =>
      disconnect websocket space_id;;
      active_users ← get_active_users space_id;
      broadcast space_id (user_leave_message user_id active_users) None
  | OtherException =>
      disconnect websocket space_id
  end.

(** The endpoint up to its first [receive_text]: [true] when the coroutine has
    entered the loop, [false] when it has returned.  [user_id] is the
    identifier drawn by [uuid4]. *)
Definition websocket_open (websocket : WebSocket) (space_id user_id : string) : Task bool :=
  space ← get_space space_id;
  match space with
  | None => close websocket 4004 "Space not found";; mret false
  | Some space =>
      connect websocket space_id user_id;;
      try_except
        (active_users ← get_active_users space_id;
         send_json websocket (init_message space_id user_id space active_users);;
         active_users ← get_active_users space_id;
         broadcast space_id (user_join_message user_id active_users) (Some websocket);;
         mret true)
        (fun e => on_exception websocket space_id user_id e;; mret false)
  end.

(** One turn of the loop: [true] when the coroutine waits for the next frame,
    [false] when it has returned. *)
Definition websocket_receive (websocket : WebSocket) (space_id user_id : string)
    (frame : Frame) : Task bool :=
  try_except
    (data ← receive_text frame;
     message ← json_loads data;
     handle_message websocket space_id user_id message;;
     mret true)
    (fun e => on_exception websocket space_id user_id e;; mret false).

(** The [while True] loop over the frames that arrive, each with the
    environment of its turn. *)
Fixpoint message_loop (websocket : WebSocket) (space_id user_id : string)
    (turns : list (Env * Frame)) (w : World) : World * list Effect :=
  match turns with
  | [] => (w, [])
  | (env, frame) :: rest =>
      match websocket_receive websocket space_id user_id frame env w with
      | (Ret true, w1, tr1) =>
          let '(w2, tr2) := message_loop websocket space_id user_id rest w1 in
          (w2, tr1 ++ tr2)
      | (_, w1, tr1) => (w1, tr1)
      end
  end.

(** The whole endpoint, when it runs alone. *)
Definition websocket_endpoint (websocket : WebSocket) (space_id user_id : string)
    (env : Env) (turns : list (Env * Frame)) (w : World) : World * list Effect :=
  match websocket_open websocket space_id user_id env w with
  | (Ret true, w1, tr1) =>
      let '(w2, tr2) := message_loop websocket space_id user_id turns w1 in
      (w2, tr1 ++ tr2)
  | (_, w1, tr1) => (w1, tr1)
  end.

(** ** The server as a transition system

    Every channel is served by one run of [websocket_endpoint].  A coroutine
    that waits in its loop is [Active]; one that has returned is [Closed] and
    its socket object is never used again. *)

Inductive ConnState : Type :=
  | Active (space_id user_id : string)
  | Closed.

Record System : Type := mkSystem {
  world : World;
  coroutines : gmap WebSocket ConnState
}.

Inductive Event : Type :=
  | Open (websocket : WebSocket) (space_id user_id : string)
  | Receive (websocket : WebSocket) (frame : Frame).

Definition next_state (space_id user_id : string) (o : Outcome bool) : ConnState :=
  match o with
  | Ret true => Active space_id user_id
  | _ => Closed
  end.

(** [None]: the event cannot happen in this state (the socket of [Open] is not
    fresh, or no coroutine waits on the socket of [Receive]). *)
Definition step (env : Env) (ev : Event) (s : System) : option (System * list Effect) :=
  match ev with
  | Open websocket space_id user_id =>
      match coroutines s !! websocket with
      | Some _ => None
      | None =>
          let '(o, w, tr) := websocket_open websocket space_id user_id env (world s) in
          Some (mkSystem w (<[websocket := next_state space_id user_id o]> (coroutines s)), tr)
      end
  | Receive websocket frame =>
      match coroutines s !! websocket with
      | Some (Active space_id user_id) =>
          let '(o, w, tr) :=
            websocket_receive websocket space_id user_id frame env (world s) in
          Some (mkSystem w (<[websocket := next_state space_id user_id o]> (coroutines s)), tr)
      | _ => None
      end
  end.

Fixpoint run (evs : list (Env * Event)) (s : System) : option (System * list Effect) :=
  match evs with
  | [] => Some (s, [])
  | (env, ev) :: rest =>
      match step env ev s with
      | None => None
      | Some (s1, tr1) =>
          match run rest s1 with
          | None => None
          | Some (s2, tr2) => Some (s2, tr1 ++ tr2)
          end
      end
  end.

(** The server after start-up, over a given store. *)
Definition initial (db : gmap string SpaceDoc) : System :=
  mkSystem (mkWorld empty_manager db) ∅.

Inductive reachable : System -> Prop :=
  | reachable_initial db : reachable (initial db)
  | reachable_step env ev s s' tr :
      reachable s -> step env ev s = Some (s', tr) -> reachable s'.

(** ** Observations on worlds and traces *)

#[global] Instance SendResult_eq_dec : EqDecision SendResult.
Proof. solve_decision. Defined.

(** The member set of a space; empty when the space has no entry. *)
Definition members (space_id : string) (m : ConnectionManager) : gset WebSocket :=
  default ∅ (active_connections m !! space_id).

(** What one turn of the first loop of [broadcast] puts in the trace. *)
Definition attempt (env : Env) (message : json) (connection : WebSocket) : Effect :=
  match transport env connection with
  | SendOk => ESend connection message
  | _ => ESendFailed connection message
  end.

(** The connections [broadcast] sends to, in the order of the iteration. *)
Definition targets (connections : gset WebSocket) (exclude : option WebSocket)
    : list WebSocket :=
  filter (fun c => Some c ≠ exclude) (elements connections).

(** Those of them whose send raises. *)
Definition dead_of (env : Env) (connections : list WebSocket) : list WebSocket :=
  filter (fun c => transport env c ≠ SendOk) connections.

(** The messages delivered to one socket, in order. *)
Definition delivered_to (websocket : WebSocket) (e : Effect) : option json :=
  match e with
  | ESend c message => if decide (c = websocket) then Some message else None
  | _ => None
  end.

Definition received (websocket : WebSocket) (tr : list Effect) : list json :=
  omap (delivered_to websocket) tr.

(** The send attempts (successful or not) made on one socket. *)
Definition attempted_on (websocket : WebSocket) (e : Effect) : option json :=
  match e with
  | ESend c message | ESendFailed c message =>
      if decide (c = websocket) then Some message else None
  | _ => None
  end.

Definition attempts (websocket : WebSocket) (tr : list Effect) : list json :=
  omap (attempted_on websocket) tr.

(** The store calls of a trace, in order. *)
Definition db_call_of (e : Effect) : option DbCall :=
  match e with
  | EDb call => Some call
  | _ => None
  end.

Definition db_calls (tr : list Effect) : list DbCall := omap db_call_of tr.



Definition is_remove_user (call : DbCall) : bool :=
  match call with
  | RemoveUserFromSpace _ _ => true
  | _ => false
  end.

Definition remove_user_calls (tr : list Effect) : nat :=
  length (filter (fun call => is_remove_user call = true) (db_calls tr)).

(** The world after the durable write of the [code_change] branch: the store
    holds the new code and the write time of the space is [now]. *)
Definition persist_code (space_id : string) (new_code : json) (now : Q) (w : World) : World :=
  mkWorld (mkManager (active_connections (manager w)) (user_ids (manager w))
                     (<[space_id := now]> (last_db_write (manager w))))
          (Database.update_space_code space_id new_code (database w)).2.

(** The throttle of the [code_change] branch. *)
Definition write_due (space_id : string) (now : Q) (m : ConnectionManager) : bool :=
  Qle_bool (1 # 2) (now - default 0%Q (last_db_write m !! space_id)).

(** Whether the store call that a decoded message leads to, if any, returns:
    the write of a [code_change] when it is due, and the write of a
    [language_change], are given the value of the message. *)
Definition store_takes (space_id : string) (fields : list (string * json)) (now : Q)
    (m : ConnectionManager) : bool :=
  let message_type := dict_get fields "type" JNull in
  if json_is_str message_type "code_change"
  then negb (write_due space_id now m) || bson_encodable (dict_get fields "code" (JStr ""))
  else if json_is_str message_type "language_change"
       then bson_encodable (dict_get fields "language" (JStr "python"))
       else true.

(** The store call of a [code_change] or [language_change] message. *)
Definition update_call (space_id : string) (fields : list (string * json)) : DbCall :=
  if json_is_str (dict_get fields "type" JNull) "code_change"
  then UpdateSpaceCode space_id (dict_get fields "code" (JStr ""))
  else UpdateSpaceLanguage space_id (dict_get fields "language" (JStr "python")).



(** The world after [connect]. *)
Definition joined (websocket : WebSocket) (space_id user_id : string) (w : World) : World :=
  mkWorld (mkManager (<[space_id := members space_id (manager w) ∪ {[websocket]}]>
                        (active_connections (manager w)))
                     (<[websocket := user_id]> (user_ids (manager w)))
                     (last_db_write (manager w)))
          (Database.add_user_to_space space_id user_id (database w)).

(** The code and the language of the documents of a store: what the presence
    calls ([add_user_to_space], [remove_user_from_space]) leave alone. *)
Definition content (db : gmap string SpaceDoc) (space_id : string) : option (json * json) :=
  (fun d => (doc_code d, doc_language d)) <$> db !! space_id.

(** The three components of the result of a task. *)
Definition outcome_of {A} (r : Outcome A * World * list Effect) : Outcome A := r.1.1.
Definition world_of {A} (r : Outcome A * World * list Effect) : World := r.1.2.
Definition trace_of {A} (r : Outcome A * World * list Effect) : list Effect := r.2.
Arguments outcome_of : simpl never.
Arguments world_of : simpl never.
Arguments trace_of : simpl never.

(** The result of a continuation, after a prefix of the trace. *)
Definition with_prefix {A} (tr : list Effect) (r : Outcome A * World * list Effect)
    : Outcome A * World * list Effect :=
  (r.1.1, r.1.2, tr ++ r.2).

(** A trace that consists of [remove_user_from_space] calls for one space. *)
Definition only_removes (space_id : string) (tr : list Effect) : Prop :=
  Forall (fun e => exists user_id, e = EDb (RemoveUserFromSpace space_id user_id)) tr.

(** The type tag of an outbound message. *)
Definition message_type (message : json) : json :=
  match message with
  | JObj fields => dict_get fields "type" JNull
  | _ => JNull
  end.

(** ** Invariants of the registry *)

(** No space has an entry with an empty member set. *)
Definition no_empty_entry (m : ConnectionManager) : Prop :=
  forall space_id connections,
    active_connections m !! space_id = Some connections -> connections ≠ ∅.

(** Every member of a space is the socket of a coroutine that waits in the
    loop of the endpoint for that space. *)
Definition members_are_served (s : System) : Prop :=
  forall space_id websocket,
    websocket ∈ members space_id (manager (world s)) ->
    exists user_id, coroutines s !! websocket = Some (Active space_id user_id).

(** [w'] comes from [w] by removals from the member sets only: no member is
    added, no empty entry appears, and no write time is forgotten. *)
Definition shrinks (w w' : World) : Prop :=
  (forall space_id, members space_id (manager w') ⊆ members space_id (manager w))
  ∧ (no_empty_entry (manager w) -> no_empty_entry (manager w'))
  ∧ (forall space_id, is_Some (last_db_write (manager w) !! space_id) ->
                      is_Some (last_db_write (manager w') !! space_id)).

(** ** Bursts of [code_change] messages *)


(** A message of a burst: when it arrives (and what the sockets do then),
    on which socket, and its fields. *)
Definition Arrival : Type := Env * WebSocket * list (string * json).

Definition frame_of (a : Arrival) : Env * Event :=
  (a.1.1, Receive a.1.2 (TextFrame (Some (JObj a.2)))).




(** ** Sample inputs *)

Definition all_ok : WebSocket -> SendResult := fun _ => SendOk.

(** Every send succeeds, except on the sockets of [broken]. *)
Definition all_but (broken : list WebSocket) (failure : SendResult)
    : WebSocket -> SendResult :=
  fun c => if bool_decide (c ∈ broken) then failure else SendOk.

Definition env_at (t : Q) : Env := mkEnv t all_ok.

(** The store after [create_space("ab12cd34", "python", "")]. *)
Definition sample_db : gmap string SpaceDoc :=
  (Database.create_space "ab12cd34" "python" "" ∅).2.

Definition code_change_of (code : string) : json :=
  JObj [("type", JStr "code_change"); ("code", JStr code)].


(** One connection joins the sample space, edits once, and leaves. *)
Definition one_edit_then_leave : list (Env * Event) :=
  [(env_at 100, Open 1%positive "ab12cd34" "p1");
   (env_at 101, Receive 1%positive (TextFrame (Some (code_change_of "x=1"))));
   (env_at 102, Receive 1%positive Disconnected)].

(** The state after a run from the start, over the sample store. *)
Definition state_after (evs : list (Env * Event)) : System :=
  match run evs (initial sample_db) with
  | Some (s, _) => s
  | None => initial sample_db
  end.

(** Two connections have joined the sample space. *)
Definition two_joined : System :=
  state_after [(env_at 100, Open 1%positive "ab12cd34" "p1");
               (env_at 101, Open 2%positive "ab12cd34" "p2")].


(** Three edits of the first connection within three tenths of a second. *)
Definition three_quick_edits : list Arrival :=
  [(env_at 103, 1%positive, [("type", JStr "code_change"); ("code", JStr "x")]);
   (env_at (1031 # 10), 1%positive, [("type", JStr "code_change"); ("code", JStr "x=")]);
   (env_at (1033 # 10), 1%positive, [("type", JStr "code_change"); ("code", JStr "x=1")])].

(** ** Statements that the code does not satisfy as they are written *)

(** The manager keeps nothing for a space without members: neither a member
    set nor a write time. *)
Definition nothing_kept_when_empty (m : ConnectionManager) : Prop :=
  forall space_id,
    members space_id m = ∅ ->
    active_connections m !! space_id = None ∧ last_db_write m !! space_id = None.

(** Opening a channel on a space that is not in the store: closed with a code
    other than 1000, not admitted, the manager untouched, and no store call. *)
Definition rejected_without_store_call (websocket : WebSocket) (space_id user_id : string)
    (env : Env) (w : World) : Prop :=
  database w !! space_id = None ->
  let r := websocket_open websocket space_id user_id env w in
  (exists code reason, EClose websocket code reason ∈ trace_of r ∧ code ≠ 1000%Z)
  ∧ outcome_of r = Ret false
  ∧ manager (world_of r) = manager w
  ∧ db_calls (trace_of r) = [].




(** * The rest of the code

    ** The collection of spaces with its timestamps ([database.py])

    An instant ([datetime]) is a number of microseconds.  What the store
    keeps of an instant is given by [bson_datetime] (the driver encodes an
    instant before it stores or compares it); [SPACE_EXPIRY_HOURS] is the
    setting of that name.  The collection has a unique index on [space_id]
    (created by [connect_to_mongodb]), so it is a map from identifiers to
    documents. *)

Record SpaceDocument : Type := mkSpaceDocument {
  sd_space_id : string;
  sd_code : json;
  sd_language : json;
  sd_created_at : Z;
  sd_last_updated : Z;
  sd_active_users : list string
}.

(** The part of a document that the endpoint of the channels uses. *)
Definition forget_times (d : SpaceDocument) : SpaceDoc :=
  mkSpaceDoc (sd_code d) (sd_language d) (sd_active_users d).

(** Equality of two stored values. *)
Fixpoint json_eqb (a b : json) {struct a} : bool :=
  match a, b with
  | JNull, JNull => true
  | JBool x, JBool y => Bool.eqb x y
  | JNum x, JNum y => Z.eqb x y
  | JStr x, JStr y => String.eqb x y
  | JArr xs, JArr ys =>
      (fix all2 (xs ys : list json) {struct xs} : bool :=
         match xs, ys with
         | [], [] => true
         | x :: xs', y :: ys' => json_eqb x y && all2 xs' ys'
         | _, _ => false
         end) xs ys
  | JObj xs, JObj ys =>
      (fix all2 (xs ys : list (string * json)) {struct xs} : bool :=
         match xs, ys with
         | [], [] => true
         | (k, x) :: xs', (l, y) :: ys' => String.eqb k l && json_eqb x y && all2 xs' ys'
         | _, _ => false
         end) xs ys
  | _, _ => false
  end.

Module Spaces.
Section Collection.

Variable bson_datetime : Z -> Z.
Variable SPACE_EXPIRY_HOURS : Z.

(** The document as the store keeps it. *)
Definition stored (d : SpaceDocument) : SpaceDocument :=
  mkSpaceDocument (sd_space_id d) (sd_code d) (sd_language d)
                  (bson_datetime (sd_created_at d)) (bson_datetime (sd_last_updated d))
                  (sd_active_users d).

(** [insert_one] raises on an identifier that is taken ([None]); the
    function returns the document it built, not the stored one.  The two
    instants are the two readings of the clock. *)
Definition create_space (space_id language initial_code : string)
    (created_at last_updated : Z) (db : gmap string SpaceDocument)
    : option (SpaceDocument * gmap string SpaceDocument) :=
  let space_document :=
    mkSpaceDocument space_id (JStr initial_code) (JStr language)
                    created_at last_updated [] in
  match db !! space_id with
  | Some _ => None
  | None => Some (space_document, <[space_id := stored space_document]> db)
  end.

Definition get_space (space_id : string) (db : gmap string SpaceDocument)
    : option SpaceDocument :=
  db !! space_id.

(** [None]: the driver cannot encode the value and [update_one] raises.
    [modified_count > 0]: the document exists and the update changes it. *)
Definition update_space_code (space_id : string) (code : json) (now : Z)
    (db : gmap string SpaceDocument) : option (bool * gmap string SpaceDocument) :=
  if bson_encodable code
  then
    match db !! space_id with
    | None => Some (false, db)
    | Some d =>
        Some (negb (json_eqb code (sd_code d)
                    && Z.eqb (bson_datetime now) (sd_last_updated d)),
              <[space_id := mkSpaceDocument (sd_space_id d) code (sd_language d)
                              (sd_created_at d) (bson_datetime now)
                              (sd_active_users d)]> db)
    end
  else None.

Definition update_space_language (space_id : string) (language : json) (now : Z)
    (db : gmap string SpaceDocument) : option (bool * gmap string SpaceDocument) :=
  if bson_encodable language
  then
    match db !! space_id with
    | None => Some (false, db)
    | Some d =>
        Some (negb (json_eqb language (sd_language d)
                    && Z.eqb (bson_datetime now) (sd_last_updated d)),
              <[space_id := mkSpaceDocument (sd_space_id d) (sd_code d) language
                              (sd_created_at d) (bson_datetime now)
                              (sd_active_users d)]> db)
    end
  else None.

(** [deleted_count > 0] *)
Definition delete_space (space_id : string) (db : gmap string SpaceDocument)
    : bool * gmap string SpaceDocument :=
  (bool_decide (is_Some (db !! space_id)), delete space_id db).

(** The instant before which a space has expired, as the store compares it. *)
Definition expiry_time (now : Z) : Z :=
  bson_datetime (now - SPACE_EXPIRY_HOURS * 3600 * 1000000).

(** [delete_many] of the documents created before that instant; the result
    is [deleted_count]. *)
Definition cleanup_expired_spaces (now : Z) (db : gmap string SpaceDocument)
    : nat * gmap string SpaceDocument :=
  (size (filter (fun kd => (sd_created_at kd.2 < expiry_time now)%Z) db),
   filter (fun kd => ~ (sd_created_at kd.2 < expiry_time now)%Z) db).

Definition add_user_to_space (space_id user_id : string)
    (db : gmap string SpaceDocument) : gmap string SpaceDocument :=
  alter (fun d => mkSpaceDocument (sd_space_id d) (sd_code d) (sd_language d)
                    (sd_created_at d) (sd_last_updated d)
                    (if bool_decide (user_id ∈ sd_active_users d)
                     then sd_active_users d
                     else sd_active_users d ++ [user_id])) space_id db.

Definition remove_user_from_space (space_id user_id : string)
    (db : gmap string SpaceDocument) : gmap string SpaceDocument :=
  alter (fun d => mkSpaceDocument (sd_space_id d) (sd_code d) (sd_language d)
                    (sd_created_at d) (sd_last_updated d)
                    (filter (fun u => u ≠ user_id) (sd_active_users d))) space_id db.

(** [periodic_cleanup] ([main.py]): the collection after the loop has woken
    up at the given instants. *)
Fixpoint periodic_cleanup (wake_ups : list Z) (db : gmap string SpaceDocument)
    : gmap string SpaceDocument :=
  match wake_ups with
  | [] => db
  | now :: rest => periodic_cleanup rest (cleanup_expired_spaces now db).2
  end.


End Collection.
End Spaces.

(** ** The REST endpoints ([main.py]) and their models ([models.py]) *)

Record SpaceCreate : Type := mkSpaceCreate {
  sc_language : string;
  sc_initial_code : string
}.

(** A request body, with the defaults of the model for the fields left out. *)
Definition SpaceCreate_of (language initial_code : option string) : SpaceCreate :=
  mkSpaceCreate (default "python" language) (default "" initial_code).

Record SpaceResponse : Type := mkSpaceResponse {
  sr_space_id : string;
  sr_language : string;
  sr_code : string;
  sr_created_at : Z;
  sr_invite_link : string
}.

(** What an endpoint answers: a value, an [HTTPException], or the failure of
    the request on another exception. *)
Inductive Response (A : Type) : Type :=
  | Ok (a : A)
  | HTTPException (status_code : Z) (detail : string)
  | ServerError.
Arguments Ok {A} a.
Arguments HTTPException {A} status_code detail.
Arguments ServerError {A}.

(** The process: the connection manager and the collection of spaces. *)
Record Server : Type := mkServer {
  connection_manager : ConnectionManager;
  spaces : gmap string SpaceDocument
}.

(** The world as the endpoint of the channels sees it. *)
Definition world_view (s : Server) : World :=
  mkWorld (connection_manager s) (forget_times <$> spaces s).

(** [ConnectionManager.get_active_users], a plain method. *)
Definition active_users_of (m : ConnectionManager) (space_id : string) : nat :=
  match active_connections m !! space_id with
  | None => 0
  | Some connections => size connections
  end.

Module Api.
Section Endpoints.

Variable FRONTEND_URL : string.
Variable bson_datetime : Z -> Z.

(** What the response model makes of a value given for a [str] field:
    the string, or nothing when it rejects the value. *)
Variable str_field : json -> option string.

(** [SpaceResponse(...)]: the construction fails when a field is rejected. *)
Definition make_response (space_id : string) (language code : json) (created_at : Z)
    (invite_link : string) : Response SpaceResponse :=
  match str_field language, str_field code with
  | Some language, Some code =>
      Ok (mkSpaceResponse space_id language code created_at invite_link)
  | _, _ => ServerError
  end.

(** [uuid4] is the text of the identifier drawn by [uuid.uuid4()]; the two
    instants are the readings of the clock in [create_space]. *)
Definition create_new_space (space_data : SpaceCreate) (uuid4 : string)
    (created_at last_updated : Z) (s : Server) : Response SpaceResponse * Server :=
  let space_id := String.substring 0 8 uuid4 in
  match Spaces.create_space bson_datetime space_id (sc_language space_data)
          (sc_initial_code space_data) created_at last_updated (spaces s) with
  | None => (ServerError, s)
  | Some (space_doc, db) =>
      let invite_link := (FRONTEND_URL ++ "/space/" ++ space_id)%string in
      (make_response space_id (sd_language space_doc) (sd_code space_doc)
         (sd_created_at space_doc) invite_link,
       mkServer (connection_manager s) db)
  end.

Definition get_space_details (space_id : string) (s : Server) : Response SpaceResponse :=
  match Spaces.get_space space_id (spaces s) with
  | None => HTTPException 404 "Space not found"
  | Some space =>
      let invite_link := (FRONTEND_URL ++ "/space/" ++ space_id)%string in
      make_response (sd_space_id space) (sd_language space) (sd_code space)
        (sd_created_at space) invite_link
  end.

Definition delete_space_endpoint (space_id : string) (s : Server)
    : Response string * Server :=
  let '(deleted, db) := Spaces.delete_space space_id (spaces s) in
  if deleted
  then (Ok "Space deleted successfully", mkServer (connection_manager s) db)
  else (HTTPException 404 "Space not found", mkServer (connection_manager s) db).

Definition get_active_users_count (space_id : string) (s : Server)
    : Response (string * nat) :=
  match Spaces.get_space space_id (spaces s) with
  | None => HTTPException 404 "Space not found"
  | Some _ => Ok (space_id, active_users_of (connection_manager s) space_id)
  end.

End Endpoints.
End Api.

(** ** The table of user ids *)

(** With [coroutines] the coroutines that wait in their loop: every member of
    a space is the socket of a coroutine of that space and is registered
    under the user id of that coroutine, and every registered socket is a
    member of a space. *)
Definition tidy (coroutines : gmap WebSocket ConnState) (w : World) : Prop :=
  (forall space_id websocket,
     websocket ∈ members space_id (manager w) ->
     exists user_id,
       coroutines !! websocket = Some (Active space_id user_id)
       ∧ user_ids (manager w) !! websocket = Some user_id)
  ∧ (forall websocket user_id,
       user_ids (manager w) !! websocket = Some user_id ->
       exists space_id, websocket ∈ members space_id (manager w)).

(** [w'] is [w] without the sockets of [gone] in the space and in the table
    of user ids. *)
Definition removes (space_id : string) (gone : gset WebSocket) (w w' : World) : Prop :=
  (forall other,
     members other (manager w') =
     if decide (other = space_id)
     then members space_id (manager w) ∖ gone
     else members other (manager w))
  ∧ (forall c,
       user_ids (manager w') !! c =
       if decide (c ∈ gone) then None else user_ids (manager w) !! c).

(** ** What a handler leaves alone *)

(** [w'] and [w] agree on every space other than [space_id]: its entry in the
    registry, its write time and its document. *)
Definition same_elsewhere (space_id : string) (w w' : World) : Prop :=
  forall other, other ≠ space_id ->
    active_connections (manager w') !! other = active_connections (manager w) !! other
    ∧ last_db_write (manager w') !! other = last_db_write (manager w) !! other
    ∧ database w' !! other = database w !! other.

(** The space a store call names. *)
Definition space_of (call : DbCall) : string :=
  match call with
  | GetSpace space_id
  | UpdateSpaceCode space_id _
  | UpdateSpaceLanguage space_id _
  | AddUserToSpace space_id _
  | RemoveUserFromSpace space_id _ => space_id
  end.

(** An effect on a socket of [audience], or a store call for the space. *)
Definition confined (space_id : string) (audience : gset WebSocket) (e : Effect) : Prop :=
  match e with
  | EAccept c | EClose c _ _ | ESend c _ | ESendFailed c _ => c ∈ audience
  | EDb call | EDbFailed call => space_of call = space_id
  end.

(** The socket of an event, and the space it is about: the space asked for
    when a channel opens, that of the coroutine when a frame arrives. *)
Definition socket_of (ev : Event) : WebSocket :=
  match ev with
  | Open websocket _ _ | Receive websocket _ => websocket
  end.

Definition space_of_event (s : System) (ev : Event) : string :=
  match ev with
  | Open _ space_id _ => space_id
  | Receive websocket _ =>
      match coroutines s !! websocket with
      | Some (Active space_id _) => space_id
      | _ => ""
      end
  end.

(** ** More sample inputs *)

(** Instants to the millisecond, as a store that drops the microseconds
    keeps them. *)
Definition to_millisecond (t : Z) : Z := (t / 1000 * 1000)%Z.

(** A response model that takes strings only. *)
Definition strings_only (value : json) : option string :=
  match value with
  | JStr s => Some s
  | _ => None
  end.

(** * Properties *)

(** ** Tasks *)

Lemma bind_run {A B} (t : Task A) (k : A -> Task B) env w :
  (t ≫= k) env w =
  match t env w with
  | (Ret a, w1, tr1) => let '(o, w2, tr2) := k a env w1 in (o, w2, tr1 ++ tr2)
  | (Raise e, w1, tr1) => (Raise e, w1, tr1)
  end.
Proof. reflexivity. Qed.

Lemma bind_ret_run {A B} (t : Task A) (k : A -> Task B) env w a w1 tr1 :
  t env w = (Ret a, w1, tr1) ->
  (t ≫= k) env w = with_prefix tr1 (k a env w1).
Proof.
  intros H. rewrite bind_run, H. unfold with_prefix.
  by destruct (k a env w1) as [[o w2] tr2].
Qed.

Lemma bind_raise_run {A B} (t : Task A) (k : A -> Task B) env w e w1 tr1 :
  t env w = (Raise e, w1, tr1) ->
  (t ≫= k) env w = (Raise e, w1, tr1).
Proof. intros H. by rewrite bind_run, H. Qed.

Lemma try_ret_run {A} (t : Task A) (h : Exn -> Task A) env w a w1 tr1 :
  t env w = (Ret a, w1, tr1) ->
  try_except t h env w = (Ret a, w1, tr1).
Proof. intros H. unfold try_except. by rewrite H. Qed.

Lemma try_raise_run {A} (t : Task A) (h : Exn -> Task A) env w e w1 tr1 :
  t env w = (Raise e, w1, tr1) ->
  try_except t h env w = with_prefix tr1 (h e env w1).
Proof.
  intros H. unfold try_except. rewrite H. unfold with_prefix.
  by destruct (h e env w1) as [[o w2] tr2].
Qed.

Lemma with_prefix_nil {A} (r : Outcome A * World * list Effect) : with_prefix [] r = r.
Proof. by destruct r as [[o w] tr]. Qed.

Lemma outcome_of_result {A} (o : Outcome A) w tr : outcome_of (o, w, tr) = o.
Proof. reflexivity. Qed.

Lemma world_of_result {A} (o : Outcome A) w tr : world_of (o, w, tr) = w.
Proof. reflexivity. Qed.

Lemma trace_of_result {A} (o : Outcome A) w tr : trace_of (o, w, tr) = tr.
Proof. reflexivity. Qed.

(** ** Observations distribute over traces *)

Lemma received_app r tr1 tr2 : received r (tr1 ++ tr2) = received r tr1 ++ received r tr2.
Proof. unfold received. apply omap_app. Qed.

Lemma attempts_app r tr1 tr2 : attempts r (tr1 ++ tr2) = attempts r tr1 ++ attempts r tr2.
Proof. unfold attempts. apply omap_app. Qed.

Lemma received_cons r e tr :
  received r (e :: tr) =
  match delivered_to r e with Some m => m :: received r tr | None => received r tr end.
Proof. reflexivity. Qed.

Lemma attempts_cons r e tr :
  attempts r (e :: tr) =
  match attempted_on r e with Some m => m :: attempts r tr | None => attempts r tr end.
Proof. reflexivity. Qed.

Lemma db_calls_cons e tr :
  db_calls (e :: tr) =
  match db_call_of e with Some c => c :: db_calls tr | None => db_calls tr end.
Proof. reflexivity. Qed.

Lemma db_calls_app tr1 tr2 : db_calls (tr1 ++ tr2) = db_calls tr1 ++ db_calls tr2.
Proof. unfold db_calls. apply omap_app. Qed.


(** ** [disconnect] *)

Lemma disconnect_run websocket space_id env w :
  disconnect websocket space_id env w =
  let m := manager w in
  let m' := mkManager (discard websocket space_id (active_connections m))
                      (delete websocket (user_ids m)) (last_db_write m) in
  match user_ids m !! websocket with
  | Some user_id =>
      if truthy user_id
      then (Ret tt,
            mkWorld m' (Database.remove_user_from_space space_id user_id (database w)),
            [EDb (RemoveUserFromSpace space_id user_id)])
      else (Ret tt, mkWorld m' (database w), [])
  | None => (Ret tt, mkWorld m' (database w), [])
  end.
Proof.
  unfold disconnect. rewrite bind_run. cbn.
  destruct (user_ids (manager w) !! websocket) as [u|]; [destruct (truthy u)|]; reflexivity.
Qed.

Lemma members_discard websocket space_id space_id' m :
  default ∅ (discard websocket space_id (active_connections m) !! space_id') =
  if decide (space_id' = space_id)
  then members space_id m ∖ {[websocket]}
  else members space_id' m.
Proof.
  unfold discard, members.
  destruct (active_connections m !! space_id) as [mem|] eqn:E.
  - destruct (decide (mem ∖ {[websocket]} = ∅)) as [He|He];
      destruct (decide (space_id' = space_id)) as [->|Hne].
    + rewrite lookup_delete_eq. cbn. by rewrite He.
    + by rewrite lookup_delete_ne.
    + rewrite lookup_insert_eq. reflexivity.
    + by rewrite lookup_insert_ne.
  - destruct (decide (space_id' = space_id)) as [->|Hne]; [|done].
    rewrite E. cbn. by rewrite empty_difference_L.
Qed.

Lemma disconnect_outcome websocket space_id env w :
  outcome_of (disconnect websocket space_id env w) = Ret tt.
Proof.
  rewrite disconnect_run. cbn.
  destruct (user_ids (manager w) !! websocket) as [u|]; [destruct (truthy u)|]; reflexivity.
Qed.

Lemma disconnect_eta websocket space_id env w :
  disconnect websocket space_id env w =
  (Ret tt, world_of (disconnect websocket space_id env w),
   trace_of (disconnect websocket space_id env w)).
Proof.
  rewrite disconnect_run. cbn.
  destruct (user_ids (manager w) !! websocket) as [u|]; [destruct (truthy u)|]; reflexivity.
Qed.

Lemma disconnect_manager websocket space_id env w :
  manager (world_of (disconnect websocket space_id env w)) =
  mkManager (discard websocket space_id (active_connections (manager w)))
            (delete websocket (user_ids (manager w))) (last_db_write (manager w)).
Proof.
  rewrite disconnect_run. cbn.
  destruct (user_ids (manager w) !! websocket) as [u|]; [destruct (truthy u)|]; reflexivity.
Qed.

Lemma disconnect_trace websocket space_id env w :
  trace_of (disconnect websocket space_id env w) =
  match user_ids (manager w) !! websocket with
  | Some user_id =>
      if truthy user_id then [EDb (RemoveUserFromSpace space_id user_id)] else []
  | None => []
  end.
Proof.
  rewrite disconnect_run. cbn.
  destruct (user_ids (manager w) !! websocket) as [u|]; [destruct (truthy u)|]; reflexivity.
Qed.

Lemma disconnect_only_removes websocket space_id env w :
  only_removes space_id (trace_of (disconnect websocket space_id env w)).
Proof.
  rewrite disconnect_trace. unfold only_removes.
  destruct (user_ids (manager w) !! websocket) as [u|]; [destruct (truthy u)|];
    repeat constructor. by exists u.
Qed.

Lemma disconnect_members websocket space_id space_id' env w :
  members space_id' (manager (world_of (disconnect websocket space_id env w))) =
  if decide (space_id' = space_id)
  then members space_id (manager w) ∖ {[websocket]}
  else members space_id' (manager w).
Proof. rewrite disconnect_manager. unfold members at 1. cbn. apply members_discard. Qed.

Lemma discard_idem websocket space_id connections :
  discard websocket space_id (discard websocket space_id connections) =
  discard websocket space_id connections.
Proof.
  unfold discard at 2 3.
  destruct (connections !! space_id) as [mem|] eqn:E.
  - cbn zeta. destruct (decide (mem ∖ {[websocket]} = ∅)) as [He|He]; unfold discard.
    + by rewrite lookup_delete_eq.
    + rewrite lookup_insert_eq. cbn zeta.
      assert (mem ∖ {[websocket]} ∖ {[websocket]} = mem ∖ {[websocket]}) as -> by set_solver.
      rewrite decide_False by done. by rewrite insert_insert_eq.
  - unfold discard. by rewrite E.
Qed.

(** A second [disconnect] of the same socket from the same space changes
    nothing and calls nothing. *)
Lemma disconnect_again websocket space_id env env' w :
  disconnect websocket space_id env' (world_of (disconnect websocket space_id env w)) =
  (Ret tt, world_of (disconnect websocket space_id env w), []).
Proof.
  rewrite (disconnect_run websocket space_id env'). cbn zeta.
  rewrite disconnect_manager. cbn [active_connections user_ids last_db_write].
  rewrite lookup_delete_eq, discard_idem, delete_delete_eq.
  rewrite <- (disconnect_manager websocket space_id env w).
  by destruct (world_of (disconnect websocket space_id env w)).
Qed.

(** ** Traces of [remove_user_from_space] calls *)

Lemma only_removes_app sid tr1 tr2 :
  only_removes sid tr1 -> only_removes sid tr2 -> only_removes sid (tr1 ++ tr2).
Proof. unfold only_removes. apply Forall_app_2. Qed.

Lemma only_removes_received sid r tr : only_removes sid tr -> received r tr = [].
Proof.
  unfold only_removes, received. induction 1 as [|e tr [u ->] _ IH]; [done|]. cbn. exact IH.
Qed.

Lemma only_removes_attempts sid r tr : only_removes sid tr -> attempts r tr = [].
Proof.
  unfold only_removes, attempts. induction 1 as [|e tr [u ->] _ IH]; [done|]. cbn. exact IH.
Qed.


(** ** The two loops of [broadcast] *)

Lemma send_to_each_run connections exclude message dead env w :
  send_to_each connections exclude message dead env w =
  (Ret (dead ∪ list_to_set (dead_of env (filter (fun c => Some c ≠ exclude) connections))),
   w,
   attempt env message <$> filter (fun c => Some c ≠ exclude) connections).
Proof.
  revert dead. induction connections as [|c rest IH]; intros dead.
  - cbn. unfold mret, Task_ret, ret. by rewrite (right_id_L ∅ (∪)).
  - cbn [send_to_each]. case_bool_decide as Hex.
    + rewrite IH. rewrite filter_cons_False by (intros Hc; by apply Hc). reflexivity.
    + rewrite filter_cons_True by done. rewrite fmap_cons.
      rewrite bind_run. unfold try_except. rewrite bind_run. unfold send_text.
      unfold dead_of, attempt at 1.
      destruct (transport env c) eqn:Htr; cbn -[filter send_to_each];
        rewrite IH; cbn -[filter].
      * rewrite filter_cons_False by (rewrite Htr; intros Hc; by apply Hc).
        reflexivity.
      * rewrite filter_cons_True by (by rewrite Htr).
        rewrite list_to_set_cons. by rewrite (assoc_L (∪)).
      * rewrite filter_cons_True by (by rewrite Htr).
        rewrite list_to_set_cons. by rewrite (assoc_L (∪)).
Qed.

Lemma disconnect_each_cons c rest space_id env w :
  disconnect_each (c :: rest) space_id env w =
  let r1 := disconnect c space_id env w in
  let r2 := disconnect_each rest space_id env (world_of r1) in
  (outcome_of r2, world_of r2, trace_of r1 ++ trace_of r2).
Proof.
  cbn [disconnect_each]. rewrite bind_run.
  pose proof (disconnect_outcome c space_id env w) as Ho.
  destruct (disconnect c space_id env w) as [[o w1] tr1].
  unfold outcome_of, world_of, trace_of in *. cbn in *. subst o.
  by destruct (disconnect_each rest space_id env w1) as [[o2 w2] tr2].
Qed.

Lemma disconnect_each_cons_outcome c rest space_id env w :
  outcome_of (disconnect_each (c :: rest) space_id env w) =
  outcome_of (disconnect_each rest space_id env (world_of (disconnect c space_id env w))).
Proof. by rewrite disconnect_each_cons. Qed.

Lemma disconnect_each_cons_world c rest space_id env w :
  world_of (disconnect_each (c :: rest) space_id env w) =
  world_of (disconnect_each rest space_id env (world_of (disconnect c space_id env w))).
Proof. by rewrite disconnect_each_cons. Qed.

Lemma disconnect_each_cons_trace c rest space_id env w :
  trace_of (disconnect_each (c :: rest) space_id env w) =
  trace_of (disconnect c space_id env w) ++
  trace_of (disconnect_each rest space_id env (world_of (disconnect c space_id env w))).
Proof. by rewrite disconnect_each_cons. Qed.

Lemma disconnect_each_outcome l space_id env w :
  outcome_of (disconnect_each l space_id env w) = Ret tt.
Proof.
  revert w. induction l as [|c rest IH]; intros w; [done|].
  rewrite disconnect_each_cons_outcome. apply IH.
Qed.

Lemma disconnect_each_only_removes l space_id env w :
  only_removes space_id (trace_of (disconnect_each l space_id env w)).
Proof.
  revert w. induction l as [|c rest IH]; intros w; [constructor|].
  rewrite disconnect_each_cons_trace.
  apply only_removes_app; [apply disconnect_only_removes | apply IH].
Qed.

Lemma disconnect_each_members l space_id space_id' env w :
  members space_id' (manager (world_of (disconnect_each l space_id env w))) =
  if decide (space_id' = space_id)
  then members space_id (manager w) ∖ list_to_set l
  else members space_id' (manager w).
Proof.
  revert w. induction l as [|c rest IH]; intros w.
  - unfold world_of. cbn. case_decide; [subst; by rewrite difference_empty_L | done].
  - rewrite disconnect_each_cons_world, IH, !disconnect_members.
    case_decide; [|done]. rewrite decide_True by done.
    rewrite list_to_set_cons. set_solver.
Qed.

Lemma disconnect_each_last_db_write l space_id env w :
  last_db_write (manager (world_of (disconnect_each l space_id env w))) =
  last_db_write (manager w).
Proof.
  revert w. induction l as [|c rest IH]; intros w; [done|].
  by rewrite disconnect_each_cons_world, IH, disconnect_manager.
Qed.

Lemma disconnect_each_user_ids l space_id env w c :
  user_ids (manager (world_of (disconnect_each l space_id env w))) !! c =
  if decide (c ∈ l) then None else user_ids (manager w) !! c.
Proof.
  revert w. induction l as [|d rest IH]; intros w.
  - rewrite decide_False; [done|]. by intros ?%elem_of_nil.
  - rewrite disconnect_each_cons_world, IH, disconnect_manager. cbn [user_ids].
    destruct (decide (c ∈ rest)) as [Hin|Hin].
    + rewrite decide_True; [done|]. by right.
    + destruct (decide (c = d)) as [->|Hne].
      * rewrite lookup_delete_eq. rewrite decide_True; [done|]. left.
      * rewrite lookup_delete_ne by done. rewrite decide_False; [done|].
        rewrite elem_of_cons. intros [?|?]; by subst.
Qed.

(** ** [broadcast] *)

Lemma broadcast_run space_id message exclude env w :
  broadcast space_id message exclude env w =
  let sent_to := targets (members space_id (manager w)) exclude in
  let dead_connections : gset WebSocket := list_to_set (dead_of env sent_to) in
  let cleanup := disconnect_each (elements dead_connections) space_id env w in
  (Ret tt, world_of cleanup, (attempt env message <$> sent_to) ++ trace_of cleanup).
Proof.
  unfold broadcast, members, targets. rewrite bind_run. cbn -[elements filter].
  destruct (active_connections (manager w) !! space_id) as [connections|]; cbn -[elements filter].
  - rewrite bind_run, send_to_each_run. rewrite (left_id_L ∅ (∪)).
    pose proof (disconnect_each_outcome
      (elements (list_to_set (dead_of env
         (filter (fun c => Some c ≠ exclude) (elements connections))) : gset WebSocket))
      space_id env w) as Ho.
    destruct (disconnect_each _ space_id env w) as [[o w1] tr1].
    unfold outcome_of, world_of, trace_of in *. cbn in *. by subst o.
  - rewrite elements_empty. reflexivity.
Qed.

Lemma broadcast_outcome space_id message exclude env w :
  outcome_of (broadcast space_id message exclude env w) = Ret tt.
Proof. by rewrite broadcast_run. Qed.

Lemma broadcast_eta space_id message exclude env w :
  broadcast space_id message exclude env w =
  (Ret tt, world_of (broadcast space_id message exclude env w),
   trace_of (broadcast space_id message exclude env w)).
Proof. by rewrite broadcast_run. Qed.

Lemma targets_NoDup connections exclude : NoDup (targets connections exclude).
Proof. unfold targets. apply NoDup_filter, NoDup_elements. Qed.

Lemma elem_of_targets r connections exclude :
  r ∈ targets connections exclude ↔ Some r ≠ exclude ∧ r ∈ connections.
Proof. unfold targets. by rewrite list_elem_of_filter, elem_of_elements. Qed.

Lemma peer_is_target peer websocket connections :
  peer ∈ connections -> peer ≠ websocket -> peer ∈ targets connections (Some websocket).
Proof. intros Hin Hne. apply elem_of_targets. split; [congruence | done]. Qed.

Lemma sender_is_no_target websocket connections :
  websocket ∉ targets connections (Some websocket).
Proof. rewrite elem_of_targets. by intros [? _]. Qed.

Lemma joiner_stays websocket env connections :
  websocket ∉ (list_to_set (dead_of env (targets connections (Some websocket)))
                 : gset WebSocket).
Proof.
  rewrite elem_of_list_to_set. unfold dead_of. rewrite list_elem_of_filter.
  intros [_ Hin]. by apply sender_is_no_target in Hin.
Qed.

Lemma attempts_attempt_list r env message l :
  NoDup l ->
  attempts r (attempt env message <$> l) = if decide (r ∈ l) then [message] else [].
Proof.
  induction 1 as [|c l Hc Hnd IH]; [done|].
  rewrite fmap_cons, attempts_cons, IH.
  assert (attempted_on r (attempt env message c) =
          if decide (c = r) then Some message else None) as ->.
  { unfold attempt. by destruct (transport env c). }
  destruct (decide (c = r)) as [->|Hne].
  - rewrite (decide_True (P := r ∈ r :: l)) by left. by rewrite decide_False.
  - destruct (decide (r ∈ l)) as [Hin|Hin].
    + rewrite decide_True by (by right). done.
    + rewrite decide_False; [done|]. rewrite elem_of_cons. intros [?|?]; by subst.
Qed.

Lemma received_attempt_list r env message l :
  NoDup l ->
  received r (attempt env message <$> l) =
  if decide (r ∈ l ∧ transport env r = SendOk) then [message] else [].
Proof.
  induction 1 as [|c l Hc Hnd IH].
  { cbn. rewrite decide_False; [done|]. intros [Hin _]. by apply elem_of_nil in Hin. }
  rewrite fmap_cons, received_cons, IH.
  destruct (decide (c = r)) as [->|Hne].
  - rewrite (decide_False (P := r ∈ l ∧ _)) by (by intros [? _]).
    unfold attempt. destruct (transport env r) eqn:Htr; cbn.
    + rewrite decide_True by done. rewrite decide_True; [done|]. split; [left|done].
    + rewrite decide_False; [done|]. by intros [_ ?].
    + rewrite decide_False; [done|]. by intros [_ ?].
  - assert (delivered_to r (attempt env message c) = None) as ->.
    { unfold attempt. destruct (transport env c); cbn; by rewrite ?decide_False. }
    destruct (decide (r ∈ l ∧ transport env r = SendOk)) as [[Hin Hok]|Hno].
    + rewrite decide_True; [done|]. split; [by right|done].
    + rewrite decide_False; [done|]. rewrite elem_of_cons. intros [[?|?] ?]; [by subst|].
      by apply Hno.
Qed.

Lemma broadcast_trace space_id message exclude env w :
  exists cleanup,
    trace_of (broadcast space_id message exclude env w) =
      (attempt env message <$> targets (members space_id (manager w)) exclude) ++ cleanup
    ∧ only_removes space_id cleanup.
Proof.
  rewrite broadcast_run. eexists. split; [reflexivity|].
  apply disconnect_each_only_removes.
Qed.

(** What one socket receives from a broadcast: the message, exactly once, when
    it is a member other than [exclude] and its send succeeds; else nothing. *)
Lemma broadcast_received r space_id message exclude env w :
  received r (trace_of (broadcast space_id message exclude env w)) =
  if decide (r ∈ targets (members space_id (manager w)) exclude ∧ transport env r = SendOk)
  then [message] else [].
Proof.
  destruct (broadcast_trace space_id message exclude env w) as (cleanup & -> & Hc).
  rewrite received_app, (only_removes_received _ _ _ Hc), app_nil_r.
  apply received_attempt_list, targets_NoDup.
Qed.

Lemma broadcast_attempts r space_id message exclude env w :
  attempts r (trace_of (broadcast space_id message exclude env w)) =
  if decide (r ∈ targets (members space_id (manager w)) exclude) then [message] else [].
Proof.
  destruct (broadcast_trace space_id message exclude env w) as (cleanup & -> & Hc).
  rewrite attempts_app, (only_removes_attempts _ _ _ Hc), app_nil_r.
  apply attempts_attempt_list, targets_NoDup.
Qed.



Lemma broadcast_members space_id space_id' message exclude env w :
  members space_id' (manager (world_of (broadcast space_id message exclude env w))) =
  if decide (space_id' = space_id)
  then members space_id (manager w) ∖
       list_to_set (dead_of env (targets (members space_id (manager w)) exclude))
  else members space_id' (manager w).
Proof.
  rewrite broadcast_run. cbn zeta. unfold world_of at 1. cbn [fst snd].
  rewrite disconnect_each_members. by rewrite list_to_set_elements_L.
Qed.

Lemma broadcast_last_db_write space_id message exclude env w :
  last_db_write (manager (world_of (broadcast space_id message exclude env w))) =
  last_db_write (manager w).
Proof.
  rewrite broadcast_run. cbn zeta. unfold world_of at 1. cbn [fst snd].
  apply disconnect_each_last_db_write.
Qed.

(** ** The endpoint *)

(** One step of the evaluation of a task whose first call is known. *)
Ltac task_step :=
  first
    [ erewrite bind_ret_run by apply broadcast_eta
    | erewrite bind_ret_run by apply disconnect_eta
    | erewrite bind_ret_run by reflexivity
    | erewrite bind_raise_run by reflexivity ];
  rewrite ?with_prefix_nil.

Lemma get_active_users_run space_id env w :
  get_active_users space_id env w = (Ret (size (members space_id (manager w))), w, []).
Proof.
  unfold get_active_users, members. rewrite bind_run. cbn.
  destruct (active_connections (manager w) !! space_id); cbn; [done|].
  by rewrite size_empty.
Qed.

Lemma on_disconnect_run websocket space_id user_id env w :
  on_exception websocket space_id user_id WebSocketDisconnect env w =
  let left := disconnect websocket space_id env w in
  let active_users := size (members space_id (manager (world_of left))) in
  let told :=
    broadcast space_id (user_leave_message user_id active_users) None env (world_of left) in
  (Ret tt, world_of told, trace_of left ++ trace_of told).
Proof.
  cbn [on_exception]. task_step.
  erewrite bind_ret_run by apply get_active_users_run. rewrite with_prefix_nil.
  by rewrite broadcast_eta at 1.
Qed.

Lemma on_error_run websocket space_id user_id env w :
  on_exception websocket space_id user_id OtherException env w =
  disconnect websocket space_id env w.
Proof. reflexivity. Qed.

Lemma takes_code_change space_id fields now m :
  json_is_str (dict_get fields "type" JNull) "code_change" = true ->
  store_takes space_id fields now m =
  negb (write_due space_id now m) || bson_encodable (dict_get fields "code" (JStr "")).
Proof. intros Hty. unfold store_takes. by rewrite Hty. Qed.

Lemma takes_language_change space_id fields now m :
  json_is_str (dict_get fields "type" JNull) "code_change" = false ->
  json_is_str (dict_get fields "type" JNull) "language_change" = true ->
  store_takes space_id fields now m =
  bson_encodable (dict_get fields "language" (JStr "python")).
Proof. intros Hty1 Hty2. unfold store_takes. by rewrite Hty1, Hty2. Qed.

Lemma takes_other space_id fields now m :
  json_is_str (dict_get fields "type" JNull) "code_change" = false ->
  json_is_str (dict_get fields "type" JNull) "language_change" = false ->
  store_takes space_id fields now m = true.
Proof. intros Hty1 Hty2. unfold store_takes. by rewrite Hty1, Hty2. Qed.

Lemma update_space_code_returns space_id code env w :
  bson_encodable code = true ->
  update_space_code space_id code env w =
  (Ret (Database.update_space_code space_id code (database w)).1,
   mkWorld (manager w) (Database.update_space_code space_id code (database w)).2,
   [EDb (UpdateSpaceCode space_id code)]).
Proof. intros Hok. unfold update_space_code. by rewrite Hok. Qed.

Lemma update_space_code_raises space_id code env w :
  bson_encodable code = false ->
  update_space_code space_id code env w =
  (Raise OtherException, w, [EDbFailed (UpdateSpaceCode space_id code)]).
Proof. intros Hko. unfold update_space_code. by rewrite Hko. Qed.

Lemma update_space_language_returns space_id language env w :
  bson_encodable language = true ->
  update_space_language space_id language env w =
  (Ret (Database.update_space_language space_id language (database w)).1,
   mkWorld (manager w) (Database.update_space_language space_id language (database w)).2,
   [EDb (UpdateSpaceLanguage space_id language)]).
Proof. intros Hok. unfold update_space_language. by rewrite Hok. Qed.

Lemma update_space_language_raises space_id language env w :
  bson_encodable language = false ->
  update_space_language space_id language env w =
  (Raise OtherException, w, [EDbFailed (UpdateSpaceLanguage space_id language)]).
Proof. intros Hko. unfold update_space_language. by rewrite Hko. Qed.

Lemma handle_code_change websocket space_id user_id fields env w :
  json_is_str (dict_get fields "type" JNull) "code_change" = true ->
  store_takes space_id fields (clock env) (manager w) = true ->
  let new_code := dict_get fields "code" (JStr "") in
  let due := write_due space_id (clock env) (manager w) in
  let w1 := if due then persist_code space_id new_code (clock env) w else w in
  let told :=
    broadcast space_id (code_change_message new_code user_id) (Some websocket) env w1 in
  handle_message websocket space_id user_id (JObj fields) env w =
  (Ret tt, world_of told,
   (if due then [EDb (UpdateSpaceCode space_id new_code)] else []) ++ trace_of told).
Proof.
  intros Hty Htakes. rewrite takes_code_change in Htakes by done.
  unfold handle_message. task_step. rewrite Hty. do 3 task_step.
  fold (write_due space_id (clock env) (manager w)).
  destruct (write_due space_id (clock env) (manager w)); cbn zeta.
  - cbn in Htakes. erewrite bind_ret_run; cycle 1.
    { erewrite bind_ret_run by (by apply update_space_code_returns). reflexivity. }
    rewrite broadcast_eta at 1. reflexivity.
  - task_step. rewrite broadcast_eta at 1. reflexivity.
Qed.

Lemma handle_language_change websocket space_id user_id fields env w :
  json_is_str (dict_get fields "type" JNull) "code_change" = false ->
  json_is_str (dict_get fields "type" JNull) "language_change" = true ->
  store_takes space_id fields (clock env) (manager w) = true ->
  let new_language := dict_get fields "language" (JStr "python") in
  let w1 := mkWorld (manager w)
              (Database.update_space_language space_id new_language (database w)).2 in
  let told :=
    broadcast space_id (language_change_message new_language user_id) (Some websocket)
      env w1 in
  handle_message websocket space_id user_id (JObj fields) env w =
  (Ret tt, world_of told, EDb (UpdateSpaceLanguage space_id new_language) :: trace_of told).
Proof.
  intros Hty1 Hty2 Htakes. rewrite takes_language_change in Htakes by done.
  unfold handle_message. task_step. rewrite Hty1, Hty2. task_step.
  erewrite bind_ret_run by (by apply update_space_language_returns).
  rewrite broadcast_eta at 1. reflexivity.
Qed.

(** The store call of the message raises: the handler stops there. *)
Lemma handle_rejected websocket space_id user_id fields env w :
  store_takes space_id fields (clock env) (manager w) = false ->
  handle_message websocket space_id user_id (JObj fields) env w =
  (Raise OtherException, w, [EDbFailed (update_call space_id fields)]).
Proof.
  unfold store_takes, update_call, handle_message. cbn zeta. intros Htakes. task_step.
  destruct (json_is_str (dict_get fields "type" JNull) "code_change") eqn:Hty1.
  - apply orb_false_iff in Htakes as [Hdue%negb_false_iff Hko].
    do 3 task_step. fold (write_due space_id (clock env) (manager w)). rewrite Hdue.
    erewrite bind_raise_run; [reflexivity|].
    by erewrite bind_raise_run by (by apply update_space_code_raises).
  - destruct (json_is_str (dict_get fields "type" JNull) "language_change") eqn:Hty2;
      [|done].
    task_step. by erewrite bind_raise_run by (by apply update_space_language_raises).
Qed.

Lemma handle_cursor_move websocket space_id user_id fields env w :
  json_is_str (dict_get fields "type" JNull) "code_change" = false ->
  json_is_str (dict_get fields "type" JNull) "language_change" = false ->
  json_is_str (dict_get fields "type" JNull) "cursor_move" = true ->
  let cursor_position := dict_get fields "cursor_position" (JObj []) in
  handle_message websocket space_id user_id (JObj fields) env w =
  broadcast space_id (cursor_move_message user_id cursor_position) (Some websocket) env w.
Proof.
  intros Hty1 Hty2 Hty3. unfold handle_message. task_step. rewrite Hty1, Hty2, Hty3.
  task_step. reflexivity.
Qed.

Lemma handle_unknown_type websocket space_id user_id fields env w :
  json_is_str (dict_get fields "type" JNull) "code_change" = false ->
  json_is_str (dict_get fields "type" JNull) "language_change" = false ->
  json_is_str (dict_get fields "type" JNull) "cursor_move" = false ->
  handle_message websocket space_id user_id (JObj fields) env w = (Ret tt, w, []).
Proof.
  intros Hty1 Hty2 Hty3. unfold handle_message. task_step. by rewrite Hty1, Hty2, Hty3.
Qed.

(** A decoded message is handled; the loop goes on when the handler
    returns, and an exception of the handler goes to the [except] clauses. *)
Lemma receive_message websocket space_id user_id fields env w :
  websocket_receive websocket space_id user_id (TextFrame (Some (JObj fields))) env w =
  let handled := handle_message websocket space_id user_id (JObj fields) env w in
  match outcome_of handled with
  | Ret _ => (Ret true, world_of handled, trace_of handled)
  | Raise e =>
      with_prefix (trace_of handled)
        ((on_exception websocket space_id user_id e;; mret false) env (world_of handled))
  end.
Proof.
  unfold websocket_receive. cbn zeta.
  destruct (handle_message websocket space_id user_id (JObj fields) env w)
    as [[[[]|e] w1] tr1] eqn:Hh; unfold outcome_of, world_of, trace_of; cbn [fst snd].
  - apply try_ret_run. do 2 task_step. erewrite bind_ret_run by exact Hh.
    unfold with_prefix. cbn. by rewrite app_nil_r.
  - erewrite try_raise_run; [reflexivity|].
    do 2 task_step. by erewrite bind_raise_run by exact Hh.
Qed.

Lemma receive_code_change websocket space_id user_id fields env w :
  json_is_str (dict_get fields "type" JNull) "code_change" = true ->
  store_takes space_id fields (clock env) (manager w) = true ->
  let new_code := dict_get fields "code" (JStr "") in
  let due := write_due space_id (clock env) (manager w) in
  let w1 := if due then persist_code space_id new_code (clock env) w else w in
  let told :=
    broadcast space_id (code_change_message new_code user_id) (Some websocket) env w1 in
  websocket_receive websocket space_id user_id (TextFrame (Some (JObj fields))) env w =
  (Ret true, world_of told,
   (if due then [EDb (UpdateSpaceCode space_id new_code)] else []) ++ trace_of told).
Proof. intros Hty Htakes. rewrite receive_message. by rewrite handle_code_change. Qed.

Lemma receive_language_change websocket space_id user_id fields env w :
  json_is_str (dict_get fields "type" JNull) "code_change" = false ->
  json_is_str (dict_get fields "type" JNull) "language_change" = true ->
  store_takes space_id fields (clock env) (manager w) = true ->
  let new_language := dict_get fields "language" (JStr "python") in
  let w1 := mkWorld (manager w)
              (Database.update_space_language space_id new_language (database w)).2 in
  let told :=
    broadcast space_id (language_change_message new_language user_id) (Some websocket)
      env w1 in
  websocket_receive websocket space_id user_id (TextFrame (Some (JObj fields))) env w =
  (Ret true, world_of told, EDb (UpdateSpaceLanguage space_id new_language) :: trace_of told).
Proof.
  intros Hty1 Hty2 Htakes. rewrite receive_message. by rewrite handle_language_change.
Qed.

(** The store call of a decoded message raises: the second [except] clause,
    before anything has been stored or sent. *)
Lemma receive_rejected websocket space_id user_id fields env w :
  store_takes space_id fields (clock env) (manager w) = false ->
  websocket_receive websocket space_id user_id (TextFrame (Some (JObj fields))) env w =
  (Ret false, world_of (disconnect websocket space_id env w),
   EDbFailed (update_call space_id fields)
   :: trace_of (disconnect websocket space_id env w)).
Proof.
  intros Htakes. rewrite receive_message, handle_rejected by done. cbn zeta.
  rewrite outcome_of_result, world_of_result, trace_of_result.
  task_step. unfold with_prefix. cbn. by rewrite app_nil_r.
Qed.

Lemma receive_cursor_move websocket space_id user_id fields env w :
  json_is_str (dict_get fields "type" JNull) "code_change" = false ->
  json_is_str (dict_get fields "type" JNull) "language_change" = false ->
  json_is_str (dict_get fields "type" JNull) "cursor_move" = true ->
  let cursor_position := dict_get fields "cursor_position" (JObj []) in
  let told :=
    broadcast space_id (cursor_move_message user_id cursor_position) (Some websocket) env w in
  websocket_receive websocket space_id user_id (TextFrame (Some (JObj fields))) env w =
  (Ret true, world_of told, trace_of told).
Proof.
  intros Hty1 Hty2 Hty3. rewrite receive_message. cbn zeta.
  rewrite handle_cursor_move by done. cbn zeta. by rewrite broadcast_outcome.
Qed.

Lemma receive_unknown_type websocket space_id user_id fields env w :
  json_is_str (dict_get fields "type" JNull) "code_change" = false ->
  json_is_str (dict_get fields "type" JNull) "language_change" = false ->
  json_is_str (dict_get fields "type" JNull) "cursor_move" = false ->
  websocket_receive websocket space_id user_id (TextFrame (Some (JObj fields))) env w =
  (Ret true, w, []).
Proof. intros Hty1 Hty2 Hty3. rewrite receive_message. by rewrite handle_unknown_type. Qed.

(** A frame that is not a JSON object, or not JSON at all, or an error of
    [receive_text]: the second [except] clause. *)
Lemma receive_failure websocket space_id user_id frame env w :
  match frame with
  | TextFrame (Some (JObj _)) | Disconnected => False
  | _ => True
  end ->
  websocket_receive websocket space_id user_id frame env w =
  (Ret false, world_of (disconnect websocket space_id env w),
   trace_of (disconnect websocket space_id env w)).
Proof.
  intros Hf. unfold websocket_receive.
  assert ((data ← receive_text frame;
           message ← json_loads data;
           handle_message websocket space_id user_id message;; mret true) env w
          = (Raise OtherException, w, [])) as Hbody.
  { destruct frame as [[[]|]| |]; try done.
    all: first [ by task_step
               | by do 2 task_step
               | task_step; task_step; unfold handle_message; by task_step ]. }
  erewrite try_raise_run by exact Hbody. rewrite with_prefix_nil.
  task_step. unfold with_prefix. cbn. by rewrite app_nil_r.
Qed.

(** The channel is closed: the first [except] clause. *)
Lemma receive_disconnect websocket space_id user_id env w :
  websocket_receive websocket space_id user_id Disconnected env w =
  let left := disconnect websocket space_id env w in
  let active_users := size (members space_id (manager (world_of left))) in
  let told :=
    broadcast space_id (user_leave_message user_id active_users) None env (world_of left) in
  (Ret false, world_of told, trace_of left ++ trace_of told).
Proof.
  unfold websocket_receive.
  erewrite try_raise_run; [|by task_step]. rewrite with_prefix_nil.
  erewrite bind_ret_run by apply on_disconnect_run.
  unfold with_prefix. cbn. by rewrite app_nil_r.
Qed.

Lemma connect_run websocket space_id user_id env w :
  connect websocket space_id user_id env w =
  (Ret tt, joined websocket space_id user_id w,
   [EAccept websocket; EDb (AddUserToSpace space_id user_id)]).
Proof. reflexivity. Qed.

Lemma members_joined websocket space_id space_id' user_id w :
  members space_id' (manager (joined websocket space_id user_id w)) =
  if decide (space_id' = space_id)
  then members space_id (manager w) ∪ {[websocket]}
  else members space_id' (manager w).
Proof.
  unfold members at 1. cbn. case_decide as Hs.
  - subst. by rewrite lookup_insert_eq.
  - by rewrite lookup_insert_ne.
Qed.

(** The space does not exist: the channel is closed at once. *)
Lemma open_missing websocket space_id user_id env w :
  database w !! space_id = None ->
  websocket_open websocket space_id user_id env w =
  (Ret false, w, [EDb (GetSpace space_id); EClose websocket 4004 "Space not found"]).
Proof.
  intros Hdb. unfold websocket_open.
  erewrite bind_ret_run by reflexivity. unfold Database.get_space. rewrite Hdb.
  by task_step.
Qed.

(** The space exists and the joining socket takes the [init] message. *)
Lemma open_admitted websocket space_id user_id space env w :
  database w !! space_id = Some space ->
  transport env websocket = SendOk ->
  let w1 := joined websocket space_id user_id w in
  let active_users := size (members space_id (manager w1)) in
  let told :=
    broadcast space_id (user_join_message user_id active_users) (Some websocket) env w1 in
  websocket_open websocket space_id user_id env w =
  (Ret true, world_of told,
   [EDb (GetSpace space_id); EAccept websocket; EDb (AddUserToSpace space_id user_id);
    ESend websocket (init_message space_id user_id space active_users)] ++ trace_of told).
Proof.
  intros Hdb Hok. unfold websocket_open.
  erewrite bind_ret_run by reflexivity. unfold Database.get_space. rewrite Hdb.
  erewrite bind_ret_run by apply connect_run.
  erewrite try_ret_run; cycle 1.
  { erewrite bind_ret_run by apply get_active_users_run. rewrite with_prefix_nil.
    erewrite bind_ret_run; [|unfold send_json, send_text; by rewrite Hok].
    erewrite bind_ret_run by apply get_active_users_run. rewrite with_prefix_nil.
    task_step. unfold with_prefix. cbn [fst snd]. reflexivity. }
  unfold with_prefix. cbn. by rewrite app_nil_r.
Qed.

(** The space exists and the send of the [init] message raises. *)
Lemma open_init_failed websocket space_id user_id space env w :
  database w !! space_id = Some space ->
  transport env websocket ≠ SendOk ->
  let w1 := joined websocket space_id user_id w in
  let active_users := size (members space_id (manager w1)) in
  let e := match transport env websocket with
           | SendDisconnect => WebSocketDisconnect
           | _ => OtherException
           end in
  let handled := on_exception websocket space_id user_id e env w1 in
  websocket_open websocket space_id user_id env w =
  (Ret false, world_of handled,
   [EDb (GetSpace space_id); EAccept websocket; EDb (AddUserToSpace space_id user_id);
    ESendFailed websocket (init_message space_id user_id space active_users)]
   ++ trace_of handled).
Proof.
  intros Hdb Hko. unfold websocket_open.
  erewrite bind_ret_run by reflexivity. unfold Database.get_space. rewrite Hdb.
  erewrite bind_ret_run by apply connect_run.
  assert (forall e, on_exception websocket space_id user_id e env
                      (joined websocket space_id user_id w) =
                    (Ret tt,
                     world_of (on_exception websocket space_id user_id e env
                                 (joined websocket space_id user_id w)),
                     trace_of (on_exception websocket space_id user_id e env
                                 (joined websocket space_id user_id w)))) as Heta.
  { intros [|]; [by rewrite on_disconnect_run | rewrite on_error_run; apply disconnect_eta]. }
  destruct (transport env websocket) eqn:Htr; [done| |].
  all: erewrite try_raise_run; cycle 1.
  all: try (erewrite bind_ret_run by apply get_active_users_run; rewrite with_prefix_nil;
            erewrite bind_raise_run; [reflexivity|];
            unfold send_json, send_text; by rewrite Htr).
  all: erewrite bind_ret_run by apply Heta.
  all: unfold with_prefix, world_of, trace_of; cbn; by rewrite app_nil_r.
Qed.

(** ** The store under presence calls *)

Lemma content_remove_user space_id user_id db space_id' :
  content (Database.remove_user_from_space space_id user_id db) space_id' =
  content db space_id'.
Proof.
  unfold content, Database.remove_user_from_space. rewrite lookup_alter.
  case_decide; [|done]. subst. by destruct (db !! space_id').
Qed.

Lemma content_disconnect websocket space_id env w space_id' :
  content (database (world_of (disconnect websocket space_id env w))) space_id' =
  content (database w) space_id'.
Proof.
  rewrite disconnect_run. cbn zeta.
  destruct (user_ids (manager w) !! websocket) as [u|]; [destruct (truthy u)|];
    unfold world_of; cbn [fst snd database]; [|done..].
  apply content_remove_user.
Qed.

Lemma content_disconnect_each l space_id env w space_id' :
  content (database (world_of (disconnect_each l space_id env w))) space_id' =
  content (database w) space_id'.
Proof.
  revert w. induction l as [|c rest IH]; intros w; [done|].
  by rewrite disconnect_each_cons_world, IH, content_disconnect.
Qed.

Lemma content_broadcast space_id message exclude env w space_id' :
  content (database (world_of (broadcast space_id message exclude env w))) space_id' =
  content (database w) space_id'.
Proof.
  rewrite broadcast_run. cbn zeta. unfold world_of at 1. cbn [fst snd].
  apply content_disconnect_each.
Qed.

(** ** The registry has no empty entry *)

Lemma entry_iff_member m space_id :
  no_empty_entry m ->
  is_Some (active_connections m !! space_id) ↔ exists websocket, websocket ∈ members space_id m.
Proof.
  intros Hm. unfold members. split.
  - intros [connections Hc]. rewrite Hc. cbn.
    apply set_choose_L. by apply (Hm space_id).
  - intros [websocket Hin].
    destruct (active_connections m !! space_id); [by eexists|].
    cbn in Hin. by apply not_elem_of_empty in Hin.
Qed.

Lemma discard_no_empty websocket space_id m :
  no_empty_entry m ->
  no_empty_entry (mkManager (discard websocket space_id (active_connections m))
                            (delete websocket (user_ids m)) (last_db_write m)).
Proof.
  intros Hm sid connections. cbn. unfold discard.
  destruct (active_connections m !! space_id) as [mem|] eqn:E; [|apply Hm].
  cbn zeta. destruct (decide (mem ∖ {[websocket]} = ∅)) as [He|He].
  - rewrite lookup_delete. case_decide; [done|]. apply Hm.
  - rewrite lookup_insert. case_decide; [|apply Hm]. by intros [= <-].
Qed.

Lemma disconnect_no_empty websocket space_id env w :
  no_empty_entry (manager w) ->
  no_empty_entry (manager (world_of (disconnect websocket space_id env w))).
Proof. intros Hm. rewrite disconnect_manager. by apply discard_no_empty. Qed.

Lemma disconnect_each_no_empty l space_id env w :
  no_empty_entry (manager w) ->
  no_empty_entry (manager (world_of (disconnect_each l space_id env w))).
Proof.
  revert w. induction l as [|c rest IH]; intros w Hm; [done|].
  rewrite disconnect_each_cons_world. by apply IH, disconnect_no_empty.
Qed.

Lemma broadcast_no_empty space_id message exclude env w :
  no_empty_entry (manager w) ->
  no_empty_entry (manager (world_of (broadcast space_id message exclude env w))).
Proof.
  intros Hm. rewrite broadcast_run. cbn zeta. rewrite world_of_result.
  by apply disconnect_each_no_empty.
Qed.

Lemma joined_no_empty websocket space_id user_id w :
  no_empty_entry (manager w) ->
  no_empty_entry (manager (joined websocket space_id user_id w)).
Proof.
  intros Hm sid connections. cbn. rewrite lookup_insert.
  case_decide; [|apply Hm]. intros [= <-]. set_solver.
Qed.

(** ** Handlers only remove members *)

Lemma shrinks_refl w : shrinks w w.
Proof. unfold shrinks. split; [done|]. by split. Qed.

Lemma shrinks_trans w1 w2 w3 : shrinks w1 w2 -> shrinks w2 w3 -> shrinks w1 w3.
Proof.
  intros (Hm1 & He1 & Ht1) (Hm2 & He2 & Ht2). split; [|split].
  - intros sid. etrans; [apply Hm2 | apply Hm1].
  - auto.
  - auto.
Qed.

Lemma shrinks_disconnect websocket space_id env w :
  shrinks w (world_of (disconnect websocket space_id env w)).
Proof.
  split; [|split].
  - intros sid. rewrite disconnect_members. case_decide; [subst; set_solver | done].
  - apply disconnect_no_empty.
  - intros sid. by rewrite disconnect_manager.
Qed.

Lemma shrinks_broadcast space_id message exclude env w :
  shrinks w (world_of (broadcast space_id message exclude env w)).
Proof.
  split; [|split].
  - intros sid. rewrite broadcast_members. case_decide; [subst; set_solver | done].
  - apply broadcast_no_empty.
  - intros sid. by rewrite broadcast_last_db_write.
Qed.

Lemma shrinks_persist_code space_id new_code now w :
  shrinks w (persist_code space_id new_code now w).
Proof.
  split; [done|]. split; [done|]. intros sid. cbn. rewrite lookup_insert.
  case_decide; [by eexists | done].
Qed.

Lemma shrinks_on_exception websocket space_id user_id e env w :
  shrinks w (world_of (on_exception websocket space_id user_id e env w)).
Proof.
  destruct e.
  - rewrite on_disconnect_run. cbn zeta. rewrite world_of_result.
    eapply shrinks_trans; [apply shrinks_disconnect | apply shrinks_broadcast].
  - rewrite on_error_run. apply shrinks_disconnect.
Qed.

(** A message that is a JSON object ends the loop only when its store call
    raises. *)
Lemma receive_dict_outcome websocket space_id user_id fields env w :
  outcome_of (websocket_receive websocket space_id user_id
                (TextFrame (Some (JObj fields))) env w) =
  Ret (store_takes space_id fields (clock env) (manager w)).
Proof.
  destruct (store_takes space_id fields (clock env) (manager w)) eqn:Htakes;
    [|by rewrite receive_rejected].
  destruct (json_is_str (dict_get fields "type" JNull) "code_change") eqn:H1;
    [|destruct (json_is_str (dict_get fields "type" JNull) "language_change") eqn:H2;
      [|destruct (json_is_str (dict_get fields "type" JNull) "cursor_move") eqn:H3]].
  - by rewrite receive_code_change.
  - by rewrite receive_language_change.
  - by rewrite receive_cursor_move.
  - by rewrite receive_unknown_type.
Qed.

Lemma shrinks_receive websocket space_id user_id frame env w :
  shrinks w (world_of (websocket_receive websocket space_id user_id frame env w)).
Proof.
  destruct frame as [[[]|]| |].
  6: { destruct (store_takes space_id fields (clock env) (manager w)) eqn:Htakes;
         [|rewrite receive_rejected by done; rewrite world_of_result;
           apply shrinks_disconnect].
       destruct (json_is_str (dict_get fields "type" JNull) "code_change") eqn:H1;
       [|destruct (json_is_str (dict_get fields "type" JNull) "language_change") eqn:H2;
         [|destruct (json_is_str (dict_get fields "type" JNull) "cursor_move") eqn:H3]].
       - rewrite receive_code_change by done. cbn zeta. rewrite world_of_result.
         eapply shrinks_trans; [|apply shrinks_broadcast].
         destruct (write_due space_id (clock env) (manager w));
           [apply shrinks_persist_code | apply shrinks_refl].
       - rewrite receive_language_change by done. cbn zeta. rewrite world_of_result.
         eapply shrinks_trans; [|apply shrinks_broadcast].
         split; [done|]. by split.
       - rewrite receive_cursor_move by done. cbn zeta. rewrite world_of_result.
         apply shrinks_broadcast.
       - rewrite receive_unknown_type by done. apply shrinks_refl. }
  7: { rewrite receive_disconnect. cbn zeta. rewrite world_of_result.
       eapply shrinks_trans; [apply shrinks_disconnect | apply shrinks_broadcast]. }
  all: rewrite receive_failure by done.
  all: rewrite world_of_result.
  all: apply shrinks_disconnect.
Qed.

(** When the loop ends, the socket has left its space. *)
Lemma receive_closed websocket space_id user_id frame env w :
  outcome_of (websocket_receive websocket space_id user_id frame env w) ≠ Ret true ->
  websocket ∉ members space_id
                (manager (world_of (websocket_receive websocket space_id user_id frame env w))).
Proof.
  assert (websocket ∉ members space_id
            (manager (world_of (disconnect websocket space_id env w)))) as Hleft.
  { rewrite disconnect_members, decide_True by done. set_solver. }
  destruct frame as [[[]|]| |].
  6: { rewrite receive_dict_outcome.
       destruct (store_takes space_id fields (clock env) (manager w)) eqn:Htakes; [done|].
       intros _. by rewrite receive_rejected, world_of_result. }
  7: { intros _. rewrite receive_disconnect. cbn zeta. rewrite world_of_result.
       intros Hin. apply Hleft. revert Hin. apply shrinks_broadcast. }
  all: intros _; rewrite receive_failure by done; by rewrite world_of_result.
Qed.

Lemma on_exception_left websocket space_id user_id e env w :
  websocket ∉ members space_id
                (manager (world_of (on_exception websocket space_id user_id e env w))).
Proof.
  assert (websocket ∉ members space_id
            (manager (world_of (disconnect websocket space_id env w)))) as Hleft.
  { rewrite disconnect_members, decide_True by done. set_solver. }
  destruct e; [|done].
  rewrite on_disconnect_run. cbn zeta. rewrite world_of_result.
  intros Hin. apply Hleft. revert Hin. apply shrinks_broadcast.
Qed.

(** The three ways [websocket_open] can go. *)
Lemma open_cases websocket space_id user_id env w :
  let r := websocket_open websocket space_id user_id env w in
  (database w !! space_id = None ∧ outcome_of r = Ret false ∧ world_of r = w)
  ∨ (outcome_of r = Ret true
     ∧ shrinks (joined websocket space_id user_id w) (world_of r)
     ∧ websocket ∈ members space_id (manager (world_of r)))
  ∨ (outcome_of r = Ret false
     ∧ shrinks (joined websocket space_id user_id w) (world_of r)
     ∧ websocket ∉ members space_id (manager (world_of r))).
Proof.
  cbn zeta. destruct (database w !! space_id) as [space|] eqn:Hdb.
  - right. destruct (decide (transport env websocket = SendOk)) as [Hok|Hko].
    + left. rewrite (open_admitted _ _ _ space) by done. cbn zeta.
      rewrite outcome_of_result, world_of_result.
      split; [done|]. split; [apply shrinks_broadcast|].
      rewrite broadcast_members, decide_True by done.
      rewrite members_joined, decide_True by done.
      apply elem_of_difference. split; [set_solver | apply joiner_stays].
    + right. rewrite (open_init_failed _ _ _ space) by done. cbn zeta.
      rewrite outcome_of_result, world_of_result.
      split; [done|]. split; [apply shrinks_on_exception | apply on_exception_left].
  - left. by rewrite open_missing.
Qed.

(** ** Invariants of the reachable states *)

Lemma step_shrinks env websocket frame s s' tr :
  step env (Receive websocket frame) s = Some (s', tr) ->
  shrinks (world s) (world s').
Proof.
  cbn. destruct (coroutines s !! websocket) as [[space_id user_id|]|]; [|done..].
  destruct (websocket_receive websocket space_id user_id frame env (world s))
    as [[o w'] tr'] eqn:Hr.
  intros [= <- <-]. cbn.
  change w' with (world_of (o, w', tr')). rewrite <- Hr. apply shrinks_receive.
Qed.

Lemma step_no_empty env ev s s' tr :
  step env ev s = Some (s', tr) ->
  no_empty_entry (manager (world s)) -> no_empty_entry (manager (world s')).
Proof.
  destruct ev as [websocket space_id user_id | websocket frame].
  - cbn. destruct (coroutines s !! websocket); [done|].
    pose proof (open_cases websocket space_id user_id env (world s)) as Hc.
    destruct (websocket_open websocket space_id user_id env (world s)) as [[o w'] tr'].
    cbn zeta in Hc. rewrite outcome_of_result, world_of_result in Hc.
    intros [= <- <-] Hm. cbn.
    destruct Hc as [(_ & _ & ->) | [(_ & (_ & Hs & _) & _) | (_ & (_ & Hs & _) & _)]];
      [done | by apply Hs, joined_no_empty..].
  - intros Hstep. by apply (step_shrinks _ _ _ _ _ _ Hstep).
Qed.

Lemma step_keeps_write_time env ev s s' tr space_id :
  step env ev s = Some (s', tr) ->
  is_Some (last_db_write (manager (world s)) !! space_id) ->
  is_Some (last_db_write (manager (world s')) !! space_id).
Proof.
  destruct ev as [websocket sid user_id | websocket frame].
  - cbn. destruct (coroutines s !! websocket); [done|].
    pose proof (open_cases websocket sid user_id env (world s)) as Hc.
    destruct (websocket_open websocket sid user_id env (world s)) as [[o w'] tr'].
    cbn zeta in Hc. rewrite outcome_of_result, world_of_result in Hc.
    intros [= <- <-] Hm. cbn.
    destruct Hc as [(_ & _ & ->) | [(_ & (_ & _ & Hs) & _) | (_ & (_ & _ & Hs) & _)]];
      [done | by apply Hs..].
  - intros Hstep. by apply (step_shrinks _ _ _ _ _ _ Hstep).
Qed.

Lemma step_members_served env ev s s' tr :
  step env ev s = Some (s', tr) -> members_are_served s -> members_are_served s'.
Proof.
  destruct ev as [websocket space_id user_id | websocket frame].
  - cbn. destruct (coroutines s !! websocket) eqn:Hfresh; [done|].
    pose proof (open_cases websocket space_id user_id env (world s)) as Hc.
    destruct (websocket_open websocket space_id user_id env (world s)) as [[o w'] tr'].
    cbn zeta in Hc. rewrite outcome_of_result, world_of_result in Hc.
    intros [= <- <-] Hserved sid c. cbn. intros Hin.
    assert (c ∈ members sid (manager (world s)) ->
            exists uid, <[websocket := next_state space_id user_id o]> (coroutines s) !! c
                        = Some (Active sid uid)) as Hold.
    { intros Hc'. destruct (Hserved _ _ Hc') as [uid Huid]. exists uid.
      rewrite lookup_insert_ne; [done|]. intros <-. congruence. }
    destruct Hc as [(_ & _ & ->) | [(-> & (Hs & _) & _) | (-> & (Hs & _) & Hout)]].
    + by apply Hold.
    + apply Hs in Hin. rewrite members_joined in Hin.
      case_decide as Hsid; [|by apply Hold]. subst sid.
      apply elem_of_union in Hin as [Hin|Hin]; [by apply Hold|].
      apply elem_of_singleton in Hin as ->. exists user_id. by rewrite lookup_insert_eq.
    + pose proof Hin as Hin'. apply Hs in Hin. rewrite members_joined in Hin.
      case_decide as Hsid; [|by apply Hold]. subst sid.
      apply elem_of_union in Hin as [Hin|Hin]; [by apply Hold|].
      apply elem_of_singleton in Hin as ->. by destruct Hout.
  - cbn. destruct (coroutines s !! websocket) as [[space_id user_id|]|] eqn:Hco; [|done..].
    pose proof (shrinks_receive websocket space_id user_id frame env (world s)) as (Hs & _).
    pose proof (receive_closed websocket space_id user_id frame env (world s)) as Hcl.
    destruct (websocket_receive websocket space_id user_id frame env (world s))
      as [[o w'] tr'].
    rewrite world_of_result in Hs. rewrite outcome_of_result, world_of_result in Hcl.
    intros [= <- <-] Hserved sid c. cbn. intros Hin.
    destruct (Hserved _ _ (Hs _ _ Hin)) as [uid Huid].
    destruct (decide (c = websocket)) as [->|Hne].
    + rewrite Hco in Huid. injection Huid as <- <-.
      exists user_id. rewrite lookup_insert_eq.
      destruct o as [[]|]; [done| |]; exfalso; by apply Hcl.
    + exists uid. by rewrite lookup_insert_ne.
Qed.

Lemma reachable_no_empty s : reachable s -> no_empty_entry (manager (world s)).
Proof.
  induction 1 as [db | env ev s s' tr _ IH Hstep].
  - intros sid connections. cbn. by rewrite lookup_empty.
  - by eapply step_no_empty.
Qed.

Lemma reachable_members_served s : reachable s -> members_are_served s.
Proof.
  induction 1 as [db | env ev s s' tr _ IH Hstep].
  - intros sid c. unfold members. cbn. rewrite lookup_empty. cbn.
    by intros ?%not_elem_of_empty.
  - by eapply step_members_served.
Qed.

Lemma run_reachable evs s :
  reachable s ->
  match run evs s with
  | Some (s', _) => reachable s'
  | None => True
  end.
Proof.
  revert s. induction evs as [|[env ev] rest IH]; intros s Hs; [done|].
  cbn [run]. destruct (step env ev s) as [[s1 tr1]|] eqn:Hstep; [|done].
  specialize (IH s1 (reachable_step _ _ _ _ _ Hs Hstep)).
  by destruct (run rest s1) as [[s2 tr2]|].
Qed.

Lemma state_after_reachable evs : reachable (state_after evs).
Proof.
  unfold state_after.
  pose proof (run_reachable evs (initial sample_db) (reachable_initial sample_db)) as H.
  destruct (run evs (initial sample_db)) as [[s tr]|]; [done | apply reachable_initial].
Qed.

(** A coroutine that has returned stays so, and its socket is in no space. *)
Lemma step_closed_stays env ev s s' tr c :
  step env ev s = Some (s', tr) ->
  coroutines s !! c = Some Closed -> coroutines s' !! c = Some Closed.
Proof.
  intros Hstep Hc.
  destruct ev as [websocket space_id user_id | websocket frame]; cbn in Hstep.
  - destruct (coroutines s !! websocket) eqn:Hfresh; [done|].
    destruct (websocket_open websocket space_id user_id env (world s)) as [[o w1] tr0].
    injection Hstep as <- <-. cbn. rewrite lookup_insert_ne; [done|]. congruence.
  - destruct (coroutines s !! websocket) as [[space_id user_id|]|] eqn:Hco; [|done..].
    destruct (websocket_receive websocket space_id user_id frame env (world s))
      as [[o w1] tr0].
    injection Hstep as <- <-. cbn. rewrite lookup_insert_ne; [done|]. congruence.
Qed.

Lemma run_closed_stays evs s s' tr c :
  run evs s = Some (s', tr) ->
  coroutines s !! c = Some Closed -> coroutines s' !! c = Some Closed.
Proof.
  revert s tr. induction evs as [|[env ev] rest IH]; intros s tr.
  { by intros [= <- <-]. }
  cbn [run]. destruct (step env ev s) as [[s1 tr1]|] eqn:Hstep; [|done].
  destruct (run rest s1) as [[s2 tr2]|] eqn:Hrun; [|done].
  intros [= <- <-] Hc. apply (IH s1 tr2 Hrun). by eapply step_closed_stays.
Qed.

Lemma closed_is_no_member s c space_id :
  reachable s -> coroutines s !! c = Some Closed ->
  c ∉ members space_id (manager (world s)).
Proof.
  intros Hs Hc Hin.
  destruct (reachable_members_served s Hs space_id c Hin) as [user_id Hserved]. congruence.
Qed.

(** ** Small facts on messages *)

Lemma json_is_str_true value literal :
  json_is_str value literal = true -> value = JStr literal.
Proof.
  destruct value; cbn; try done. intros H. apply String.eqb_eq in H. by subst.
Qed.


(** ** What the peers of a sender receive *)

Lemma trace_code_change websocket space_id user_id fields env w :
  json_is_str (dict_get fields "type" JNull) "code_change" = true ->
  store_takes space_id fields (clock env) (manager w) = true ->
  let new_code := dict_get fields "code" (JStr "") in
  exists w1 cleanup,
    members space_id (manager w1) = members space_id (manager w)
    ∧ only_removes space_id cleanup
    ∧ trace_of (websocket_receive websocket space_id user_id
                  (TextFrame (Some (JObj fields))) env w) =
      (if write_due space_id (clock env) (manager w)
       then [EDb (UpdateSpaceCode space_id new_code)] else [])
      ++ (attempt env (code_change_message new_code user_id) <$>
            targets (members space_id (manager w)) (Some websocket))
      ++ cleanup.
Proof.
  intros Hty Htakes new_code. rewrite receive_code_change by done. cbn zeta.
  rewrite trace_of_result.
  set (w1 := if write_due space_id (clock env) (manager w)
             then persist_code space_id (dict_get fields "code" (JStr "")) (clock env) w
             else w).
  destruct (broadcast_trace space_id
              (code_change_message (dict_get fields "code" (JStr "")) user_id)
              (Some websocket) env w1) as (cleanup & Htr & Hc).
  assert (members space_id (manager w1) = members space_id (manager w)) as Hm.
  { subst w1. by destruct (write_due space_id (clock env) (manager w)). }
  exists w1, cleanup. split; [done|]. split; [done|]. by rewrite Htr, Hm.
Qed.

Lemma received_code_change peer websocket space_id user_id fields env w :
  json_is_str (dict_get fields "type" JNull) "code_change" = true ->
  store_takes space_id fields (clock env) (manager w) = true ->
  received peer (trace_of (websocket_receive websocket space_id user_id
                             (TextFrame (Some (JObj fields))) env w)) =
  if decide (peer ∈ targets (members space_id (manager w)) (Some websocket)
             ∧ transport env peer = SendOk)
  then [code_change_message (dict_get fields "code" (JStr "")) user_id] else [].
Proof.
  intros Hty Htakes.
  destruct (trace_code_change websocket space_id user_id fields env w Hty Htakes)
    as (w1 & cleanup & _ & Hc & ->).
  rewrite !received_app, (only_removes_received _ _ _ Hc), app_nil_r.
  rewrite received_attempt_list by apply targets_NoDup.
  by destruct (write_due space_id (clock env) (manager w)).
Qed.

Lemma attempts_code_change peer websocket space_id user_id fields env w :
  json_is_str (dict_get fields "type" JNull) "code_change" = true ->
  store_takes space_id fields (clock env) (manager w) = true ->
  attempts peer (trace_of (websocket_receive websocket space_id user_id
                             (TextFrame (Some (JObj fields))) env w)) =
  if decide (peer ∈ targets (members space_id (manager w)) (Some websocket))
  then [code_change_message (dict_get fields "code" (JStr "")) user_id] else [].
Proof.
  intros Hty Htakes.
  destruct (trace_code_change websocket space_id user_id fields env w Hty Htakes)
    as (w1 & cleanup & _ & Hc & ->).
  rewrite !attempts_app, (only_removes_attempts _ _ _ Hc), app_nil_r.
  rewrite attempts_attempt_list by apply targets_NoDup.
  by destruct (write_due space_id (clock env) (manager w)).
Qed.





Lemma received_language_change peer websocket space_id user_id fields env w :
  json_is_str (dict_get fields "type" JNull) "language_change" = true ->
  store_takes space_id fields (clock env) (manager w) = true ->
  received peer (trace_of (websocket_receive websocket space_id user_id
                             (TextFrame (Some (JObj fields))) env w)) =
  if decide (peer ∈ targets (members space_id (manager w)) (Some websocket)
             ∧ transport env peer = SendOk)
  then [language_change_message (dict_get fields "language" (JStr "python")) user_id]
  else [].
Proof.
  intros Hty Htakes.
  assert (json_is_str (dict_get fields "type" JNull) "code_change" = false) as Hnot.
  { by rewrite (json_is_str_true _ _ Hty). }
  rewrite receive_language_change by done. cbn zeta.
  by rewrite trace_of_result, received_cons, broadcast_received.
Qed.

Lemma attempts_language_change peer websocket space_id user_id fields env w :
  json_is_str (dict_get fields "type" JNull) "language_change" = true ->
  store_takes space_id fields (clock env) (manager w) = true ->
  attempts peer (trace_of (websocket_receive websocket space_id user_id
                             (TextFrame (Some (JObj fields))) env w)) =
  if decide (peer ∈ targets (members space_id (manager w)) (Some websocket))
  then [language_change_message (dict_get fields "language" (JStr "python")) user_id]
  else [].
Proof.
  intros Hty Htakes.
  assert (json_is_str (dict_get fields "type" JNull) "code_change" = false) as Hnot.
  { by rewrite (json_is_str_true _ _ Hty). }
  rewrite receive_language_change by done. cbn zeta.
  by rewrite trace_of_result, attempts_cons, broadcast_attempts.
Qed.

Lemma received_cursor_move peer websocket space_id user_id fields env w :
  json_is_str (dict_get fields "type" JNull) "cursor_move" = true ->
  received peer (trace_of (websocket_receive websocket space_id user_id
                             (TextFrame (Some (JObj fields))) env w)) =
  if decide (peer ∈ targets (members space_id (manager w)) (Some websocket)
             ∧ transport env peer = SendOk)
  then [cursor_move_message user_id (dict_get fields "cursor_position" (JObj []))]
  else [].
Proof.
  intros Hty.
  assert (json_is_str (dict_get fields "type" JNull) "code_change" = false) as Hnot1.
  { by rewrite (json_is_str_true _ _ Hty). }
  assert (json_is_str (dict_get fields "type" JNull) "language_change" = false) as Hnot2.
  { by rewrite (json_is_str_true _ _ Hty). }
  rewrite receive_cursor_move by done. cbn zeta.
  by rewrite trace_of_result, broadcast_received.
Qed.

Lemma attempts_cursor_move peer websocket space_id user_id fields env w :
  json_is_str (dict_get fields "type" JNull) "cursor_move" = true ->
  attempts peer (trace_of (websocket_receive websocket space_id user_id
                             (TextFrame (Some (JObj fields))) env w)) =
  if decide (peer ∈ targets (members space_id (manager w)) (Some websocket))
  then [cursor_move_message user_id (dict_get fields "cursor_position" (JObj []))]
  else [].
Proof.
  intros Hty.
  assert (json_is_str (dict_get fields "type" JNull) "code_change" = false) as Hnot1.
  { by rewrite (json_is_str_true _ _ Hty). }
  assert (json_is_str (dict_get fields "type" JNull) "language_change" = false) as Hnot2.
  { by rewrite (json_is_str_true _ _ Hty). }
  rewrite receive_cursor_move by done. cbn zeta.
  by rewrite trace_of_result, broadcast_attempts.
Qed.

(** The sends of an admission: [init] to the joiner, [user_join] to the rest. *)
Lemma attempts_open peer websocket space_id user_id space env w :
  database w !! space_id = Some space ->
  transport env websocket = SendOk ->
  let active_users := size (members space_id (manager w) ∪ {[websocket]}) in
  attempts peer (trace_of (websocket_open websocket space_id user_id env w)) =
  if decide (peer = websocket)
  then [init_message space_id user_id space active_users]
  else if decide (peer ∈ members space_id (manager w))
       then [user_join_message user_id active_users] else [].
Proof.
  intros Hdb Hok. rewrite (open_admitted _ _ _ space) by done. cbn zeta.
  rewrite trace_of_result, members_joined, decide_True by done.
  rewrite attempts_app, broadcast_attempts.
  rewrite members_joined, (decide_True (P := space_id = space_id)) by done.
  unfold attempts at 1. cbn [omap list_omap attempted_on].
  destruct (decide (peer = websocket)) as [->|Hne].
  - rewrite decide_True by done. rewrite decide_False by apply sender_is_no_target. done.
  - rewrite (decide_False (P := websocket = peer)) by done. cbn.
    destruct (decide (peer ∈ members space_id (manager w))) as [Hin|Hin].
    + rewrite decide_True; [done|]. apply peer_is_target; [set_solver|done].
    + rewrite decide_False; [done|]. rewrite elem_of_targets. set_solver.
Qed.

Lemma received_open peer websocket space_id user_id space env w :
  database w !! space_id = Some space ->
  transport env websocket = SendOk ->
  let active_users := size (members space_id (manager w) ∪ {[websocket]}) in
  received peer (trace_of (websocket_open websocket space_id user_id env w)) =
  if decide (peer = websocket)
  then [init_message space_id user_id space active_users]
  else if decide (peer ∈ members space_id (manager w) ∧ transport env peer = SendOk)
       then [user_join_message user_id active_users] else [].
Proof.
  intros Hdb Hok. rewrite (open_admitted _ _ _ space) by done. cbn zeta.
  rewrite trace_of_result, members_joined, decide_True by done.
  rewrite received_app, broadcast_received.
  rewrite members_joined, (decide_True (P := space_id = space_id)) by done.
  unfold received at 1. cbn [omap list_omap delivered_to].
  destruct (decide (peer = websocket)) as [->|Hne].
  - rewrite decide_True by done. rewrite decide_False; [done|].
    intros [Hin _]. by apply sender_is_no_target in Hin.
  - rewrite (decide_False (P := websocket = peer)) by done. cbn.
    destruct (decide (peer ∈ members space_id (manager w) ∧ transport env peer = SendOk))
      as [[Hin Hp]|Hno].
    + rewrite decide_True; [done|]. split; [|done]. apply peer_is_target; [set_solver|done].
    + rewrite decide_False; [done|]. rewrite elem_of_targets. set_solver.
Qed.

(** No turn of the loop sends an [init] message. *)
Lemma receive_never_init websocket space_id user_id frame env w c m :
  m ∈ received c (trace_of (websocket_receive websocket space_id user_id frame env w)) ->
  message_type m ≠ JStr "init".
Proof.
  destruct frame as [[[]|]| |].
  6: { destruct (store_takes space_id fields (clock env) (manager w)) eqn:Htakes; cycle 1.
       { rewrite receive_rejected by done. rewrite trace_of_result, received_cons.
         cbn [delivered_to].
         rewrite (only_removes_received space_id) by apply disconnect_only_removes.
         by intros ?%elem_of_nil. }
       destruct (json_is_str (dict_get fields "type" JNull) "code_change") eqn:H1;
       [|destruct (json_is_str (dict_get fields "type" JNull) "language_change") eqn:H2;
         [|destruct (json_is_str (dict_get fields "type" JNull) "cursor_move") eqn:H3]].
       - rewrite received_code_change by done. case_decide; [|by intros ?%elem_of_nil].
         by intros ->%list_elem_of_singleton.
       - rewrite received_language_change by done. case_decide; [|by intros ?%elem_of_nil].
         by intros ->%list_elem_of_singleton.
       - rewrite received_cursor_move by done. case_decide; [|by intros ?%elem_of_nil].
         by intros ->%list_elem_of_singleton.
       - rewrite receive_unknown_type by done. by intros ?%elem_of_nil. }
  7: { rewrite receive_disconnect. cbn zeta. rewrite trace_of_result, received_app.
       rewrite (only_removes_received space_id) by apply disconnect_only_removes.
       rewrite broadcast_received. cbn [app].
       case_decide; [|by intros ?%elem_of_nil]. by intros ->%list_elem_of_singleton. }
  all: rewrite receive_failure by done.
  all: rewrite trace_of_result.
  all: rewrite (only_removes_received space_id) by apply disconnect_only_removes.
  all: by intros ?%elem_of_nil.
Qed.

(** No turn of the loop attempts a send on its own socket. *)
Lemma receive_no_self_send websocket space_id user_id frame env w :
  attempts websocket
    (trace_of (websocket_receive websocket space_id user_id frame env w)) = [].
Proof.
  pose proof (sender_is_no_target websocket (members space_id (manager w))) as Hself.
  destruct frame as [[[]|]| |].
  6: { destruct (store_takes space_id fields (clock env) (manager w)) eqn:Htakes; cycle 1.
       { rewrite receive_rejected by done. rewrite trace_of_result, attempts_cons.
         cbn [attempted_on].
         apply (only_removes_attempts space_id), disconnect_only_removes. }
       destruct (json_is_str (dict_get fields "type" JNull) "code_change") eqn:H1;
       [|destruct (json_is_str (dict_get fields "type" JNull) "language_change") eqn:H2;
         [|destruct (json_is_str (dict_get fields "type" JNull) "cursor_move") eqn:H3]].
       - rewrite attempts_code_change by done. by rewrite decide_False.
       - rewrite attempts_language_change by done. by rewrite decide_False.
       - rewrite attempts_cursor_move by done. by rewrite decide_False.
       - by rewrite receive_unknown_type. }
  7: { rewrite receive_disconnect. cbn zeta. rewrite trace_of_result, attempts_app.
       rewrite (only_removes_attempts space_id) by apply disconnect_only_removes.
       rewrite broadcast_attempts. cbn [app]. rewrite decide_False; [done|].
       rewrite elem_of_targets, disconnect_members, decide_True by done. set_solver. }
  all: rewrite receive_failure by done.
  all: rewrite trace_of_result.
  all: apply (only_removes_attempts space_id), disconnect_only_removes.
Qed.

Lemma message_loop_no_self_send websocket space_id user_id turns w :
  attempts websocket (message_loop websocket space_id user_id turns w).2 = [].
Proof.
  revert w. induction turns as [|[env frame] rest IH]; intros w; [done|].
  cbn [message_loop].
  pose proof (receive_no_self_send websocket space_id user_id frame env w) as Hturn.
  destruct (websocket_receive websocket space_id user_id frame env w) as [[o w1] tr1].
  rewrite trace_of_result in Hturn.
  destruct o as [[]|]; [|done..].
  specialize (IH w1).
  destruct (message_loop websocket space_id user_id rest w1) as [w2 tr2].
  cbn [snd] in *. by rewrite attempts_app, Hturn, IH.
Qed.

(** Over its whole run, an endpoint that finds its space attempts one send
    on its own socket: the [init] message. *)
Lemma endpoint_sends_itself_init_only websocket space_id user_id space env turns w :
  database w !! space_id = Some space ->
  attempts websocket (websocket_endpoint websocket space_id user_id env turns w).2 =
  [init_message space_id user_id space (size (members space_id (manager w) ∪ {[websocket]}))].
Proof.
  intros Hdb. unfold websocket_endpoint.
  destruct (decide (transport env websocket = SendOk)) as [Hok|Hko].
  - pose proof (attempts_open websocket websocket space_id user_id space env w Hdb Hok)
      as Hopen.
    cbn zeta in Hopen. rewrite decide_True in Hopen by done.
    rewrite (open_admitted _ _ _ space) in * by done. cbn zeta in *.
    rewrite trace_of_result in Hopen.
    pose proof (message_loop_no_self_send websocket space_id user_id turns
      (world_of (broadcast space_id
         (user_join_message user_id
            (size (members space_id (manager (joined websocket space_id user_id w)))))
         (Some websocket) env (joined websocket space_id user_id w)))) as Hloop.
    destruct (message_loop websocket space_id user_id turns _) as [w2 tr2].
    cbn [snd] in *. by rewrite attempts_app, Hloop, app_nil_r.
  - rewrite (open_init_failed _ _ _ space) by done. cbn zeta. cbn [snd].
    rewrite attempts_app.
    assert (attempts websocket
              (trace_of (on_exception websocket space_id user_id
                 match transport env websocket with
                 | SendDisconnect => WebSocketDisconnect
                 | _ => OtherException
                 end env (joined websocket space_id user_id w))) = []) as ->.
    { destruct (transport env websocket); [done| |].
      - rewrite on_disconnect_run. cbn zeta. rewrite trace_of_result, attempts_app.
        rewrite (only_removes_attempts space_id) by apply disconnect_only_removes.
        rewrite broadcast_attempts. cbn [app]. rewrite decide_False; [done|].
        rewrite elem_of_targets, disconnect_members, decide_True by done. set_solver.
      - rewrite on_error_run.
        apply (only_removes_attempts space_id), disconnect_only_removes. }
    rewrite app_nil_r, members_joined, decide_True by done.
    unfold attempts. cbn. by rewrite decide_True.
Qed.

(** The opening of a channel delivers no [init] message to another socket. *)
Lemma open_never_init_to_others websocket space_id user_id env w c m :
  c ≠ websocket ->
  m ∈ received c (trace_of (websocket_open websocket space_id user_id env w)) ->
  message_type m ≠ JStr "init".
Proof.
  intros Hne.
  destruct (database w !! space_id) as [space|] eqn:Hdb;
    [destruct (decide (transport env websocket = SendOk)) as [Hok|Hko]|].
  - rewrite (received_open _ _ _ _ space) by done. cbn zeta.
    rewrite decide_False by done. case_decide; [|by intros ?%elem_of_nil].
    by intros ->%list_elem_of_singleton.
  - rewrite (open_init_failed _ _ _ space) by done. cbn zeta.
    rewrite trace_of_result, received_app. cbn [app].
    change (received c [EDb (GetSpace space_id); EAccept websocket;
                        EDb (AddUserToSpace space_id user_id);
                        ESendFailed websocket
                          (init_message space_id user_id space
                             (size (members space_id
                                (manager (joined websocket space_id user_id w)))))])
      with (@nil json).
    cbn [app]. destruct (transport env websocket); [done| |].
    + rewrite on_disconnect_run. cbn zeta. rewrite trace_of_result, received_app.
      rewrite (only_removes_received space_id) by apply disconnect_only_removes.
      rewrite broadcast_received. cbn [app].
      case_decide; [|by intros ?%elem_of_nil]. by intros ->%list_elem_of_singleton.
    + rewrite on_error_run.
      rewrite (only_removes_received space_id) by apply disconnect_only_removes.
      by intros ?%elem_of_nil.
  - rewrite open_missing by done. rewrite trace_of_result. by intros ?%elem_of_nil.
Qed.

(** Once a socket has its coroutine, no run delivers an [init] message to it. *)
Lemma run_no_second_init evs s s' tr c m :
  run evs s = Some (s', tr) ->
  is_Some (coroutines s !! c) ->
  m ∈ received c tr ->
  message_type m ≠ JStr "init".
Proof.
  revert s tr. induction evs as [|[env ev] rest IH]; intros s tr.
  { intros [= <- <-] _. by intros ?%elem_of_nil. }
  cbn [run]. destruct (step env ev s) as [[s1 tr1]|] eqn:Hstep; [|done].
  destruct (run rest s1) as [[s2 tr2]|] eqn:Hrun; [|done].
  intros [= <- <-] Hc. rewrite received_app, elem_of_app. intros [Hin|Hin].
  - destruct ev as [websocket space_id user_id | websocket frame]; cbn in Hstep.
    + destruct (coroutines s !! websocket) eqn:Hfresh; [done|].
      assert (c ≠ websocket) as Hne.
      { intros ->. rewrite Hfresh in Hc. by destruct Hc. }
      pose proof (open_never_init_to_others websocket space_id user_id env (world s) c m Hne)
        as Hopen.
      destruct (websocket_open websocket space_id user_id env (world s)) as [[o w1] tr0].
      rewrite trace_of_result in Hopen. injection Hstep as <- <-. by apply Hopen.
    + destruct (coroutines s !! websocket) as [[space_id user_id|]|]; [|done..].
      pose proof (receive_never_init websocket space_id user_id frame env (world s) c m)
        as Hturn.
      destruct (websocket_receive websocket space_id user_id frame env (world s))
        as [[o w1] tr0].
      rewrite trace_of_result in Hturn. injection Hstep as <- <-. by apply Hturn.
  - apply (IH s1 tr2 Hrun); [|done].
    destruct ev as [websocket space_id user_id | websocket frame]; cbn in Hstep.
    + destruct (coroutines s !! websocket) eqn:Hfresh; [done|].
      destruct (websocket_open websocket space_id user_id env (world s)) as [[o w1] tr0].
      injection Hstep as <- <-. cbn. rewrite lookup_insert. case_decide; [by eexists|done].
    + destruct (coroutines s !! websocket) as [[space_id user_id|]|]; [|done..].
      destruct (websocket_receive websocket space_id user_id frame env (world s))
        as [[o w1] tr0].
      injection Hstep as <- <-. cbn. rewrite lookup_insert. case_decide; [by eexists|done].
Qed.

(** ** Bursts of [code_change] messages *)








(** ** The two ways out of the loop *)

(** A frame that makes the loop raise something else than
    [WebSocketDisconnect]: the socket leaves its space and is removed from the
    store, and nothing is sent to anybody. *)
Lemma error_exit_is_silent websocket space_id user_id frame env w peer :
  match frame with
  | TextFrame (Some (JObj _)) | Disconnected => False
  | _ => True
  end ->
  let r := websocket_receive websocket space_id user_id frame env w in
  outcome_of r = Ret false
  ∧ members space_id (manager (world_of r)) = members space_id (manager w) ∖ {[websocket]}
  ∧ attempts peer (trace_of r) = [].
Proof.
  intros Hf. cbn zeta. rewrite receive_failure by done.
  rewrite outcome_of_result, world_of_result, trace_of_result.
  split; [done|]. split.
  - by rewrite disconnect_members, decide_True.
  - apply (only_removes_attempts space_id), disconnect_only_removes.
Qed.

(** A close of the channel: the socket leaves its space and the remaining
    members whose send succeeds receive [user_leave] with the new count. *)
Lemma graceful_exit_is_announced websocket space_id user_id env w peer :
  let r := websocket_receive websocket space_id user_id Disconnected env w in
  let remaining := members space_id (manager w) ∖ {[websocket]} in
  outcome_of r = Ret false
  ∧ members space_id (manager (world_of r)) ⊆ remaining
  ∧ (peer ∈ remaining -> transport env peer = SendOk ->
     received peer (trace_of r) = [user_leave_message user_id (size remaining)]).
Proof.
  cbn zeta. rewrite receive_disconnect. cbn zeta.
  rewrite outcome_of_result, world_of_result, trace_of_result.
  pose proof (disconnect_members websocket space_id space_id env w) as Hm.
  rewrite decide_True in Hm by done.
  split; [done|]. split.
  - rewrite <- Hm. apply shrinks_broadcast.
  - intros Hin Hok. rewrite received_app.
    rewrite (only_removes_received space_id) by apply disconnect_only_removes.
    rewrite broadcast_received, Hm. cbn [app].
    rewrite decide_True; [done|]. split; [|done]. by apply elem_of_targets.
Qed.

(** * The claims *)




(** The burst run: one write, for the first edit, and three messages to the
    other member. *)
Example three_quick_edits_run :
  match run (frame_of <$> three_quick_edits) two_joined with
  | Some (_, tr) =>
      db_calls tr = [UpdateSpaceCode "ab12cd34" (JStr "x")]
      ∧ received 2%positive tr =
          [code_change_message (JStr "x") "p1"; code_change_message (JStr "x=") "p1";
           code_change_message (JStr "x=1") "p1"]
      ∧ received 1%positive tr = []
  | None => False
  end.
Proof. by vm_compute. Qed.

(** The scenario of two participants: join, join, edit, leave. *)
Example two_participants_scenario :
  match run [(env_at 100, Open 1%positive "ab12cd34" "p1");
             (env_at 101, Open 2%positive "ab12cd34" "p2");
             (env_at 102, Receive 1%positive (TextFrame (Some (code_change_of "x=1"))));
             (env_at 103, Receive 2%positive Disconnected)] (initial sample_db) with
  | Some (_, tr) =>
      received 1%positive tr =
        [init_message "ab12cd34" "p1" (mkSpaceDoc (JStr "") (JStr "python") []) 1;
         user_join_message "p2" 2;
         user_leave_message "p2" 1]
      ∧ received 2%positive tr =
        [init_message "ab12cd34" "p2" (mkSpaceDoc (JStr "") (JStr "python") ["p1"]) 2;
         code_change_message (JStr "x=1") "p1"]
  | None => False
  end.
Proof. by vm_compute. Qed.




(** C3.  Two connections are in the sample space and the second sends a text
    frame that is not JSON.  Its coroutine ends and it is removed from the
    member set and from the store, but nothing is sent to the first
    connection: no [user_leave] tells it that the count is now 1.  When the
    second connection closes its channel instead, the first one receives
    [user_leave] with count 1. *)
Theorem C3_error_exit_sends_no_user_leave :
  match step (env_at 102) (Receive 2%positive (TextFrame None)) two_joined with
  | Some (s', tr) =>
      coroutines s' !! 2%positive = Some Closed
      ∧ members "ab12cd34" (manager (world s')) = {[ 1%positive ]}
      ∧ tr = [EDb (RemoveUserFromSpace "ab12cd34" "p2")]
      ∧ received 1%positive tr = []
  | None => False
  end
  ∧ match step (env_at 102) (Receive 2%positive Disconnected) two_joined with
    | Some (s', tr) =>
        coroutines s' !! 2%positive = Some Closed
        ∧ members "ab12cd34" (manager (world s')) = {[ 1%positive ]}
        ∧ tr = [EDb (RemoveUserFromSpace "ab12cd34" "p2");
                ESend 1%positive (user_leave_message "p2" 1)]
        ∧ received 1%positive tr = [user_leave_message "p2" 1]
    | None => False
    end.
Proof. by vm_compute. Qed.

(** C4.  In [broadcast], the first loop makes one send attempt for every
    member other than [exclude], whether or not earlier sends raised, and
    leaves the world as it found it; every such member whose send succeeds
    receives the message; the call returns normally; and the connections whose
    send raised are removed by [disconnect], the function of a graceful leave,
    called in the second loop, after all the sends. *)
Theorem C4_send_failure_is_isolated space_id message exclude env w :
  let connections := members space_id (manager w) in
  let sent_to := targets connections exclude in
  let failed : gset WebSocket := list_to_set (dead_of env sent_to) in
  let r := broadcast space_id message exclude env w in
  send_to_each (elements connections) exclude message ∅ env w =
    (Ret failed, w, attempt env message <$> sent_to)
  ∧ (forall peer, peer ∈ connections -> Some peer ≠ exclude ->
       transport env peer = SendOk -> received peer (trace_of r) = [message])
  ∧ outcome_of r = Ret tt
  ∧ r = with_prefix (attempt env message <$> sent_to)
          (disconnect_each (elements failed) space_id env w)
  ∧ (forall c, failed = {[c]} ->
       r = with_prefix (attempt env message <$> sent_to) (disconnect c space_id env w))
  ∧ (forall c, c ∈ failed ↔
       c ∈ connections ∧ Some c ≠ exclude ∧ transport env c ≠ SendOk)
  ∧ members space_id (manager (world_of r)) = connections ∖ failed
  ∧ (forall c, c ∈ failed -> user_ids (manager (world_of r)) !! c = None).
Proof.
  cbn zeta. split; [|split; [|split; [|split; [|split; [|split; [|split]]]]]].
  - rewrite send_to_each_run. by rewrite (left_id_L ∅ (∪)).
  - intros peer Hin Hne Hok. rewrite broadcast_received.
    rewrite decide_True; [done|]. split; [|done]. by apply elem_of_targets.
  - apply broadcast_outcome.
  - rewrite broadcast_run. cbn zeta. unfold with_prefix.
    fold (outcome_of (disconnect_each
            (elements (list_to_set (dead_of env
               (targets (members space_id (manager w)) exclude)) : gset WebSocket))
            space_id env w)).
    by rewrite disconnect_each_outcome.
  - intros c Hc. rewrite broadcast_run. cbn zeta. rewrite Hc, elements_singleton.
    rewrite disconnect_each_cons. cbn zeta. unfold with_prefix.
    rewrite !world_of_result, !trace_of_result.
    change (disconnect_each [] space_id env (world_of (disconnect c space_id env w)))
      with (@Ret unit tt, world_of (disconnect c space_id env w), @nil Effect).
    rewrite world_of_result, trace_of_result, app_nil_r.
    by rewrite <- (disconnect_outcome c space_id env w).
  - intros c. rewrite elem_of_list_to_set. unfold dead_of.
    rewrite list_elem_of_filter, elem_of_targets. tauto.
  - by rewrite broadcast_members, decide_True.
  - intros c Hc. rewrite broadcast_run. cbn zeta. rewrite world_of_result.
    rewrite disconnect_each_user_ids, decide_True; [done|]. by apply elem_of_elements.
Qed.

(** A broadcast to three members, of which the one visited second is gone:
    the one visited after it still receives the message, and the dead one is
    removed afterwards. *)
Example broadcast_with_dead_member :
  let w := mkWorld (mkManager {[ "ab12cd34" := {[ 1%positive; 2%positive; 3%positive ]} ]}
                              {[ 1%positive := "pa"; 2%positive := "pb"; 3%positive := "pc" ]}
                              ∅) sample_db in
  let r := broadcast "ab12cd34" (JStr "m") None (mkEnv 0 (all_but [2%positive] SendError)) w in
  trace_of r = [ESend 3%positive (JStr "m"); ESendFailed 2%positive (JStr "m");
                ESend 1%positive (JStr "m"); EDb (RemoveUserFromSpace "ab12cd34" "pb")]
  ∧ outcome_of r = Ret tt
  ∧ elements (members "ab12cd34" (manager (world_of r))) = [3%positive; 1%positive].
Proof. by vm_compute. Qed.

(** C5 (as amended).  In every reachable state a space has an entry in
    [active_connections] exactly when its member set has a member, and every
    member is the socket of a coroutine that serves that space; [connect] on
    a space without entry creates the entry with the joiner as only member,
    and [disconnect] of the only member deletes the entry.  The write time of
    a space in [last_db_write], once recorded, is kept by every step. *)
Theorem C5_entry_iff_member s :
  reachable s ->
  let m := manager (world s) in
  (forall space_id,
     is_Some (active_connections m !! space_id) ↔
     exists websocket, websocket ∈ members space_id m)
  ∧ (forall space_id websocket,
       websocket ∈ members space_id m ->
       exists user_id, coroutines s !! websocket = Some (Active space_id user_id))
  ∧ (forall websocket space_id user_id env,
       active_connections m !! space_id = None ->
       active_connections
         (manager (world_of (connect websocket space_id user_id env (world s)))) !! space_id
       = Some {[websocket]})
  ∧ (forall websocket space_id env,
       active_connections m !! space_id = Some {[websocket]} ->
       active_connections
         (manager (world_of (disconnect websocket space_id env (world s)))) !! space_id
       = None)
  ∧ (forall env ev s' tr space_id,
       step env ev s = Some (s', tr) ->
       is_Some (last_db_write m !! space_id) ->
       is_Some (last_db_write (manager (world s')) !! space_id)).
Proof.
  intros Hs. cbn zeta. split; [|split; [|split; [|split]]].
  - intros space_id. by apply entry_iff_member, reachable_no_empty.
  - by apply reachable_members_served.
  - intros websocket space_id user_id env Hnone.
    rewrite connect_run, world_of_result. cbn. rewrite lookup_insert_eq.
    unfold members. rewrite Hnone. cbn. by rewrite (left_id_L ∅ (∪)).
  - intros websocket space_id env Hone.
    rewrite disconnect_manager. cbn. unfold discard. rewrite Hone. cbn zeta.
    rewrite decide_True by set_solver. by rewrite lookup_delete_eq.
  - intros env ev s' tr space_id. apply step_keeps_write_time.
Qed.

Lemma C5_entry_iff_member_witness :
  let s := state_after [(env_at 100, Open 1%positive "ab12cd34" "p1")] in
  is_Some (active_connections (manager (world s)) !! "ab12cd34") ↔
  exists websocket, websocket ∈ members "ab12cd34" (manager (world s)).
Proof.
  intros s.
  exact (proj1 (C5_entry_iff_member s
                  (state_after_reachable [(env_at 100, Open 1%positive "ab12cd34" "p1")]))
           "ab12cd34").
Defined.

(** C5, as it is written, fails: after the only member of a space has edited
    and left, the space has no member and no entry in [active_connections],
    but its write time is still in [last_db_write]. *)
Lemma C5_write_time_is_kept :
  let s := state_after one_edit_then_leave in
  reachable s
  ∧ members "ab12cd34" (manager (world s)) = ∅
  ∧ active_connections (manager (world s)) !! "ab12cd34" = None
  ∧ last_db_write (manager (world s)) !! "ab12cd34" = Some 101%Q
  ∧ ~ nothing_kept_when_empty (manager (world s)).
Proof.
  cbn zeta. split; [apply state_after_reachable|].
  assert (last_db_write (manager (world (state_after one_edit_then_leave))) !! "ab12cd34"
          = Some 101%Q) as Hkept by (by vm_compute).
  assert (members "ab12cd34" (manager (world (state_after one_edit_then_leave))) = ∅)
    as Hempty by (by vm_compute).
  split; [done|]. split; [by vm_compute|]. split; [done|].
  intros H. destruct (H "ab12cd34" Hempty) as [_ Hnone]. congruence.
Qed.

(** C6.  [disconnect] called a second time for the same socket and space
    returns normally, leaves the world as the first call left it and performs
    no call at all; over the two calls [remove_user_from_space] is called at
    most once (once exactly when the socket was registered).  When the second
    invocation is the one of the graceful-close clause of the endpoint, its
    [disconnect] adds nothing and every remaining member whose send succeeds
    receives one [user_leave] message, with the number of remaining members. *)
Theorem C6_disconnect_is_idempotent websocket space_id user_id env env' w :
  let first := disconnect websocket space_id env w in
  let second := disconnect websocket space_id env' (world_of first) in
  let leave :=
    on_exception websocket space_id user_id WebSocketDisconnect env' (world_of first) in
  let remaining := members space_id (manager (world_of first)) in
  outcome_of first = Ret tt
  ∧ outcome_of second = Ret tt
  ∧ world_of second = world_of first
  ∧ trace_of second = []
  ∧ (remove_user_calls (trace_of first ++ trace_of second) <= 1)%nat
  ∧ (forall registered_id,
       user_ids (manager w) !! websocket = Some registered_id -> registered_id ≠ "" ->
       db_calls (trace_of first ++ trace_of second) =
         [RemoveUserFromSpace space_id registered_id])
  ∧ leave = broadcast space_id (user_leave_message user_id (size remaining)) None
              env' (world_of first)
  ∧ outcome_of leave = Ret tt
  ∧ (forall peer, peer ∈ remaining -> transport env' peer = SendOk ->
       received peer (trace_of first ++ trace_of leave) =
         [user_leave_message user_id (size remaining)])
  ∧ attempts websocket (trace_of first ++ trace_of leave) = [].
Proof.
  cbn zeta.
  assert (on_exception websocket space_id user_id WebSocketDisconnect env'
            (world_of (disconnect websocket space_id env w)) =
          broadcast space_id
            (user_leave_message user_id
               (size (members space_id (manager (world_of (disconnect websocket space_id env w))))))
            None env' (world_of (disconnect websocket space_id env w))) as Hleave.
  { rewrite on_disconnect_run. cbn zeta. rewrite disconnect_again.
    rewrite world_of_result, trace_of_result. cbn [app]. symmetry. apply broadcast_eta. }
  rewrite Hleave, disconnect_again, outcome_of_result, world_of_result, trace_of_result.
  rewrite app_nil_r.
  pose proof (disconnect_only_removes websocket space_id env w) as Hrm.
  split; [apply disconnect_outcome|]. split; [done|]. split; [done|]. split; [done|].
  split; [|split; [|split; [done|split; [apply broadcast_outcome|split]]]].
  - rewrite disconnect_trace.
    destruct (user_ids (manager w) !! websocket) as [u|]; [destruct (truthy u)|];
      unfold remove_user_calls; cbn; try case_decide; cbn; lia.
  - intros u Hu Hne. rewrite disconnect_trace, Hu.
    unfold truthy. by rewrite bool_decide_eq_true_2.
  - intros peer Hin Hok.
    rewrite received_app, (only_removes_received _ _ _ Hrm), broadcast_received.
    rewrite decide_True; [done|]. split; [|done]. by apply elem_of_targets.
  - rewrite attempts_app, (only_removes_attempts _ _ _ Hrm), broadcast_attempts.
    rewrite decide_False; [done|]. rewrite elem_of_targets, disconnect_members.
    rewrite decide_True by done. set_solver.
Qed.

(** Two members; the second is disconnected twice, the second time by the
    graceful-close clause: one store call, one [user_leave] to the first. *)
Example disconnect_then_graceful_close :
  let w := mkWorld (mkManager {[ "ab12cd34" := {[ 1%positive; 2%positive ]} ]}
                              {[ 1%positive := "p1"; 2%positive := "p2" ]} ∅) sample_db in
  let first := disconnect 2%positive "ab12cd34" (env_at 0) w in
  let leave :=
    on_exception 2%positive "ab12cd34" "p2" WebSocketDisconnect (env_at 1) (world_of first) in
  trace_of first ++ trace_of leave =
    [EDb (RemoveUserFromSpace "ab12cd34" "p2");
     ESend 1%positive (user_leave_message "p2" 1)].
Proof. by vm_compute. Qed.

(** C7 (as amended).  A channel opened on a space identifier that is not in
    the store is closed at once with code 4004 and is not admitted: the
    manager and the store are unchanged, and the only store call is the
    [get_space] lookup that finds the space missing.  In the server, the
    coroutine of such a channel has returned after this step, and its socket is
    in the member set of no space in any state that follows. *)
Theorem C7_missing_space_rejected websocket space_id user_id env w :
  database w !! space_id = None ->
  let r := websocket_open websocket space_id user_id env w in
  trace_of r = [EDb (GetSpace space_id); EClose websocket 4004 "Space not found"]
  ∧ (4004 ≠ 1000)%Z
  ∧ outcome_of r = Ret false
  ∧ world_of r = w
  ∧ db_calls (trace_of r) = [GetSpace space_id]
  ∧ (forall s s1 tr1 evs s2 tr2 any_space,
       reachable s -> world s = w ->
       step env (Open websocket space_id user_id) s = Some (s1, tr1) ->
       run evs s1 = Some (s2, tr2) ->
       coroutines s1 !! websocket = Some Closed
       ∧ websocket ∉ members any_space (manager (world s2))).
Proof.
  intros Hdb. cbn zeta. rewrite open_missing by done.
  rewrite outcome_of_result, world_of_result, trace_of_result.
  do 5 (split; [done|]).
  intros s s1 tr1 evs s2 tr2 any_space Hs Hw Hstep Hrun.
  assert (coroutines s1 !! websocket = Some Closed) as Hclosed.
  { cbn in Hstep. destruct (coroutines s !! websocket); [done|].
    rewrite Hw, open_missing in Hstep by done.
    injection Hstep as <- <-. cbn. by rewrite lookup_insert_eq. }
  split; [done|]. apply closed_is_no_member.
  - pose proof (run_reachable evs s1 (reachable_step _ _ _ _ _ Hs Hstep)) as Hr.
    by rewrite Hrun in Hr.
  - by apply (run_closed_stays evs s1 s2 tr2).
Qed.

Lemma C7_missing_space_rejected_witness :
  let r := websocket_open 1%positive "nope" "u1" (env_at 0) (mkWorld empty_manager sample_db) in
  trace_of r = [EDb (GetSpace "nope"); EClose 1%positive 4004 "Space not found"]
  ∧ outcome_of r = Ret false
  ∧ world_of r = mkWorld empty_manager sample_db
  ∧ db_calls (trace_of r) = [GetSpace "nope"].
Proof.
  destruct (C7_missing_space_rejected 1%positive "nope" "u1" (env_at 0)
              (mkWorld empty_manager sample_db)) as (Htr & _ & Ho & Hw & Hcalls & _).
  - by vm_compute.
  - by repeat split.
Defined.

(** C7, as it is written, fails: the lookup of the missing space is itself a
    store call. *)
Lemma C7_store_is_called :
  ~ rejected_without_store_call 1%positive "nope" "u1" (env_at 0)
      (mkWorld empty_manager sample_db).
Proof.
  intros H. destruct H as (_ & _ & _ & Hcalls); [by vm_compute|].
  vm_compute in Hcalls. discriminate.
Qed.




(** C9.  When a connection is admitted to an existing space and its channel
    takes the send, the only message put on the joining socket is one [init]
    message, carrying the code and the language of the stored document and the
    number of members counting the joiner; every other socket receives no
    [init]: a member whose send succeeds receives one [user_join] with the
    same count, any other socket nothing.  Whatever frames follow, the
    endpoint attempts no other send on its own socket, and once the socket has
    its coroutine no run of the server delivers an [init] message to it. *)
Theorem C9_init_to_joiner_user_join_to_others websocket space_id user_id space env w :
  database w !! space_id = Some space ->
  transport env websocket = SendOk ->
  websocket ∉ members space_id (manager w) ->
  let r := websocket_open websocket space_id user_id env w in
  let active_users := S (size (members space_id (manager w))) in
  outcome_of r = Ret true
  ∧ websocket ∈ members space_id (manager (world_of r))
  ∧ attempts websocket (trace_of r) =
      [JObj [("type", JStr "init"); ("space_id", JStr space_id); ("user_id", JStr user_id);
             ("code", doc_code space); ("language", doc_language space);
             ("active_users", JNum (Z.of_nat active_users))]]
  ∧ received websocket (trace_of r) = attempts websocket (trace_of r)
  ∧ (forall peer, peer ≠ websocket ->
       received peer (trace_of r) =
       if decide (peer ∈ members space_id (manager w) ∧ transport env peer = SendOk)
       then [JObj [("type", JStr "user_join"); ("user_id", JStr user_id);
                   ("active_users", JNum (Z.of_nat active_users))]]
       else [])
  ∧ (forall turns,
       attempts websocket (websocket_endpoint websocket space_id user_id env turns w).2 =
       attempts websocket (trace_of r))
  ∧ (forall evs s s' tr m,
       is_Some (coroutines s !! websocket) ->
       run evs s = Some (s', tr) ->
       m ∈ received websocket tr ->
       message_type m ≠ JStr "init").
Proof.
  intros Hdb Hok Hfresh. cbn zeta.
  assert (size (members space_id (manager w) ∪ {[websocket]}) =
          S (size (members space_id (manager w)))) as Hsize.
  { rewrite size_union by set_solver. rewrite size_singleton. lia. }
  split; [by rewrite (open_admitted _ _ _ space)|].
  split; [|split; [|split; [|split; [|split]]]].
  - rewrite (open_admitted _ _ _ space) by done. cbn zeta.
    rewrite world_of_result, broadcast_members, decide_True by done.
    rewrite members_joined, decide_True by done.
    apply elem_of_difference. split; [set_solver|]. apply joiner_stays.
  - rewrite (attempts_open _ _ _ _ space) by done. cbn zeta.
    by rewrite decide_True, Hsize.
  - rewrite (attempts_open _ _ _ _ space), (received_open _ _ _ _ space) by done.
    cbn zeta. by rewrite !decide_True.
  - intros peer Hne. rewrite (received_open _ _ _ _ space) by done. cbn zeta.
    by rewrite decide_False, Hsize.
  - intros turns. rewrite (endpoint_sends_itself_init_only _ _ _ space) by done.
    rewrite (attempts_open _ _ _ _ space) by done. cbn zeta. by rewrite decide_True.
  - intros evs s s' tr m Hco Hrun. by apply (run_no_second_init evs s s' tr).
Qed.

Lemma C9_init_to_joiner_user_join_to_others_witness :
  let w := mkWorld (mkManager {[ "ab12cd34" := {[ 1%positive ]} ]}
                              {[ 1%positive := "p1" ]} ∅) sample_db in
  let r := websocket_open 2%positive "ab12cd34" "p2" (env_at 101) w in
  attempts 2%positive (trace_of r) =
    [JObj [("type", JStr "init"); ("space_id", JStr "ab12cd34"); ("user_id", JStr "p2");
           ("code", JStr ""); ("language", JStr "python"); ("active_users", JNum 2)]]
  ∧ received 1%positive (trace_of r) =
    [JObj [("type", JStr "user_join"); ("user_id", JStr "p2"); ("active_users", JNum 2)]].
Proof.
  intros w.
  pose proof (C9_init_to_joiner_user_join_to_others 2%positive "ab12cd34" "p2"
                (mkSpaceDoc (JStr "") (JStr "python") []) (env_at 101) w) as H.
  destruct H as (_ & _ & Hinit & _ & Hjoin & _ & _).
  - by vm_compute.
  - reflexivity.
  - vm_compute. intros H. discriminate H.
  - split; [exact Hinit|]. by rewrite (Hjoin 1%positive).
Defined.



(** * Further properties *)

(** ** The connection manager *)

Lemma discard_other websocket space_id other connections :
  other ≠ space_id ->
  discard websocket space_id connections !! other = connections !! other.
Proof.
  intros Hne. unfold discard.
  destruct (connections !! space_id) as [mem|]; [|done].
  cbn zeta. case_decide; [by rewrite lookup_delete_ne | by rewrite lookup_insert_ne].
Qed.

Lemma disconnect_each_other l space_id other env w :
  other ≠ space_id ->
  active_connections (manager (world_of (disconnect_each l space_id env w))) !! other =
  active_connections (manager w) !! other.
Proof.
  intros Hne. revert w. induction l as [|c rest IH]; intros w; [done|].
  rewrite disconnect_each_cons_world, IH, disconnect_manager. cbn.
  by apply discard_other.
Qed.

Lemma remove_after_add space_id user_id (db : gmap string SpaceDoc) :
  (forall d, db !! space_id = Some d -> user_id ∉ doc_active_users d) ->
  Database.remove_user_from_space space_id user_id
    (Database.add_user_to_space space_id user_id db) = db.
Proof.
  intros Hnew. apply map_eq. intros k.
  unfold Database.remove_user_from_space, Database.add_user_to_space.
  rewrite !lookup_alter.
  destruct (decide (space_id = k)) as [<-|Hk]; [|done].
  rewrite decide_True by done.
  destruct (db !! space_id) as [[code language users]|] eqn:Hd; [|done].
  cbn. specialize (Hnew _ eq_refl). cbn in Hnew.
  rewrite bool_decide_eq_false_2 by done. do 2 f_equal.
  rewrite filter_app, filter_cons_False, filter_nil, app_nil_r by (intros Hc; by apply Hc).
  clear Hd. induction users as [|u users IH]; [done|].
  apply not_elem_of_cons in Hnew as [Hne Hnew].
  rewrite filter_cons_True by done. f_equal. by apply IH.
Qed.

Lemma world_eq (a b : World) :
  manager a = manager b -> database a = database b -> a = b.
Proof. destruct a, b. cbn. by intros -> ->. Qed.

Lemma disconnect_database websocket space_id env w :
  database (world_of (disconnect websocket space_id env w)) =
  match user_ids (manager w) !! websocket with
  | Some user_id =>
      if truthy user_id
      then Database.remove_user_from_space space_id user_id (database w)
      else database w
  | None => database w
  end.
Proof.
  rewrite disconnect_run. cbn zeta.
  by destruct (user_ids (manager w) !! websocket) as [u|]; [destruct (truthy u)|].
Qed.

(** X1.  [connect] followed by [disconnect] of the same socket, for a socket
    that was not in the space and had no user id, in a space that has no
    empty entry, gives the manager back as it was; when moreover the user id
    is not empty and not yet in the presence list of the space, the store is
    back as it was too.  On the outside there are the acceptance of the
    channel and, for a user id that is not empty, the two presence calls. *)
Theorem X1_connect_then_disconnect websocket space_id user_id env env' w :
  websocket ∉ members space_id (manager w) ->
  user_ids (manager w) !! websocket = None ->
  active_connections (manager w) !! space_id ≠ Some ∅ ->
  let inside := connect websocket space_id user_id env w in
  let outside := disconnect websocket space_id env' (world_of inside) in
  manager (world_of outside) = manager w
  ∧ (user_id ≠ "" ->
     trace_of inside ++ trace_of outside =
       [EAccept websocket; EDb (AddUserToSpace space_id user_id);
        EDb (RemoveUserFromSpace space_id user_id)]
     ∧ ((forall d, database w !! space_id = Some d -> user_id ∉ doc_active_users d) ->
        world_of outside = w)).
Proof.
  intros Hnew Hnoid Hnoempty. cbn zeta. rewrite connect_run, world_of_result, trace_of_result.
  assert (manager (world_of (disconnect websocket space_id env'
                               (joined websocket space_id user_id w))) = manager w) as Hm.
  { rewrite disconnect_manager. cbn.
    rewrite delete_insert_eq, delete_id by done.
    assert (discard websocket space_id
              (<[space_id := members space_id (manager w) ∪ {[websocket]}]>
                 (active_connections (manager w))) = active_connections (manager w)) as ->.
    { unfold discard. rewrite lookup_insert_eq. cbn zeta.
      assert ((members space_id (manager w) ∪ {[websocket]}) ∖ {[websocket]}
              = members space_id (manager w)) as -> by set_solver.
      unfold members in *.
      destruct (active_connections (manager w) !! space_id) as [mem|] eqn:E; cbn.
      - rewrite decide_False by congruence. rewrite insert_insert_eq. by apply insert_id.
      - rewrite decide_True by done. rewrite delete_insert_eq. by apply delete_id. }
    by destruct (manager w). }
  split; [done|]. intros Hid.
  assert (truthy user_id = true) as Htruthy by (by apply bool_decide_eq_true_2).
  split.
  - rewrite disconnect_trace. cbn [joined manager user_ids].
    by rewrite lookup_insert_eq, Htruthy.
  - intros Hstore. apply world_eq; [done|].
    rewrite disconnect_database. cbn [joined manager user_ids database].
    rewrite lookup_insert_eq, Htruthy. by apply remove_after_add.
Qed.

Lemma X1_connect_then_disconnect_witness :
  let w := mkWorld (mkManager {[ "ab12cd34" := {[ 1%positive ]} ]}
                              {[ 1%positive := "p1" ]} ∅) sample_db in
  let inside := connect 2%positive "ab12cd34" "p2" (env_at 0) w in
  let outside := disconnect 2%positive "ab12cd34" (env_at 1) (world_of inside) in
  manager (world_of outside) = manager w.
Proof.
  intros w.
  refine (proj1 (X1_connect_then_disconnect 2%positive "ab12cd34" "p2" (env_at 0) (env_at 1)
                   w _ _ _)).
  - vm_compute. intros H. discriminate H.
  - reflexivity.
  - vm_compute. intros H. discriminate H.
Defined.

Lemma active_users_of_members m space_id :
  active_users_of m space_id = size (members space_id m).
Proof.
  unfold active_users_of, members.
  destruct (active_connections m !! space_id); [done|]. symmetry. apply size_empty.
Qed.

(** X2.  [get_active_users] gives the number of members of the space, 0 for
    a space without entry.  After [connect] it has grown by one for a socket
    that was not a member and is the same for a socket that was (a socket
    connected twice counts once); after [disconnect] it is one less for a
    member and the same, never less, for a socket that was not a member. *)
Theorem X2_active_users_count websocket space_id user_id env w :
  let count := fun w => outcome_of (get_active_users space_id env w) in
  let before := size (members space_id (manager w)) in
  count w = Ret before
  ∧ active_users_of (manager w) space_id = before
  ∧ (active_connections (manager w) !! space_id = None -> before = 0)
  ∧ count (world_of (connect websocket space_id user_id env w)) =
      Ret (if decide (websocket ∈ members space_id (manager w))
           then before else S before)
  ∧ count (world_of (disconnect websocket space_id env w)) =
      Ret (if decide (websocket ∈ members space_id (manager w))
           then Nat.pred before else before).
Proof.
  cbn beta zeta. rewrite !get_active_users_run, !outcome_of_result.
  split; [done|]. split; [apply active_users_of_members|]. split; [|split].
  - unfold members. intros ->. apply size_empty.
  - rewrite connect_run, world_of_result, members_joined, decide_True by done.
    f_equal. case_decide as Hin.
    + f_equal. set_solver.
    + rewrite size_union by set_solver. rewrite size_singleton. lia.
  - rewrite disconnect_members, decide_True by done. f_equal. case_decide as Hin.
    + rewrite size_difference by set_solver. rewrite size_singleton. lia.
    + f_equal. set_solver.
Qed.

Lemma attempt_of_live env message l :
  Forall (fun c => transport env c = SendOk) l ->
  attempt env message <$> l = (fun c => ESend c message) <$> l.
Proof.
  induction 1 as [|c l Hc _ IH]; [done|].
  rewrite !fmap_cons, IH. unfold attempt. by rewrite Hc.
Qed.

Lemma dead_of_live env l :
  Forall (fun c => transport env c = SendOk) l -> dead_of env l = [].
Proof.
  unfold dead_of. induction 1 as [|c l Hc _ IH]; [done|].
  by rewrite filter_cons_False by (intros Hd; by apply Hd).
Qed.

(** X3.  A [broadcast] stays in its space: no send is attempted on a socket
    that is not a member of the space, the entry of every other space and
    every write time are left as they were, the code and the language of
    every stored space are left as they were, and the only store calls are
    [remove_user_from_space] calls for this space.  For a space without entry
    the call does nothing at all. *)
Theorem X3_broadcast_stays_in_its_space space_id message exclude env w :
  let r := broadcast space_id message exclude env w in
  (forall c, c ∉ members space_id (manager w) -> attempts c (trace_of r) = [])
  ∧ (forall other, other ≠ space_id ->
       active_connections (manager (world_of r)) !! other =
       active_connections (manager w) !! other)
  ∧ last_db_write (manager (world_of r)) = last_db_write (manager w)
  ∧ (forall any, content (database (world_of r)) any = content (database w) any)
  ∧ (forall call, call ∈ db_calls (trace_of r) ->
       exists user_id, call = RemoveUserFromSpace space_id user_id)
  ∧ (active_connections (manager w) !! space_id = None -> r = (Ret tt, w, [])).
Proof.
  cbn zeta. split; [|split; [|split; [|split; [|split]]]].
  - intros c Hc. rewrite broadcast_attempts, decide_False; [done|].
    rewrite elem_of_targets. by intros [_ ?].
  - intros other Hne. rewrite broadcast_run. cbn zeta. rewrite world_of_result.
    by apply disconnect_each_other.
  - apply broadcast_last_db_write.
  - intros any. apply content_broadcast.
  - intros call. destruct (broadcast_trace space_id message exclude env w)
      as (cleanup & -> & Hc).
    rewrite db_calls_app.
    assert (db_calls (attempt env message <$> targets (members space_id (manager w)) exclude)
            = []) as ->.
    { induction (targets (members space_id (manager w)) exclude) as [|c l IH]; [done|].
      rewrite fmap_cons, db_calls_cons, IH. unfold attempt. by destruct (transport env c). }
    cbn [app]. unfold only_removes in Hc. clear -Hc.
    induction Hc as [|e tr [u ->] _ IH]; [by intros ?%elem_of_nil|].
    rewrite db_calls_cons. cbn. rewrite elem_of_cons. intros [->|Hin]; [by exists u|].
    by apply IH.
  - intros Hnone. unfold broadcast. rewrite bind_run. cbn. by rewrite Hnone.
Qed.

(** X4.  After a [broadcast], every member of the space other than [exclude]
    is a socket whose send has succeeded.  A second [broadcast] under the
    same transport therefore sends its message to each of them, removes
    nobody, calls the store not at all and leaves the world as it is. *)
Theorem X4_broadcast_prunes_all_dead space_id message message' exclude env w :
  let r := broadcast space_id message exclude env w in
  let again := broadcast space_id message' exclude env (world_of r) in
  let survivors := targets (members space_id (manager (world_of r))) exclude in
  Forall (fun c => transport env c = SendOk) survivors
  ∧ world_of again = world_of r
  ∧ trace_of again = (fun c => ESend c message') <$> survivors.
Proof.
  cbn zeta.
  assert (Forall (fun c => transport env c = SendOk)
            (targets (members space_id
               (manager (world_of (broadcast space_id message exclude env w)))) exclude))
    as Hlive.
  { apply Forall_forall. intros c. rewrite elem_of_targets.
    rewrite broadcast_members, decide_True by done.
    rewrite elem_of_difference, elem_of_list_to_set. unfold dead_of.
    rewrite list_elem_of_filter, elem_of_targets. intros (Hex & Hin & Hnot).
    destruct (decide (transport env c = SendOk)) as [Hok|Hko]; [done|].
    destruct Hnot. by repeat split. }
  split; [done|].
  rewrite (broadcast_run space_id message' exclude env). cbn zeta.
  rewrite world_of_result, trace_of_result.
  rewrite (dead_of_live _ _ Hlive). rewrite list_to_set_nil, elements_empty.
  split; [done|]. rewrite (attempt_of_live _ _ _ Hlive).
  unfold trace_of. cbn. by rewrite app_nil_r.
Qed.

(** ** The table of user ids in the reachable states *)

Lemma removes_refl space_id w : removes space_id ∅ w w.
Proof.
  split.
  - intros other. case_decide; [subst; by rewrite difference_empty_L | done].
  - intros c. by rewrite decide_False by set_solver.
Qed.

Lemma removes_same_registry space_id w w' :
  active_connections (manager w') = active_connections (manager w) ->
  user_ids (manager w') = user_ids (manager w) ->
  removes space_id ∅ w w'.
Proof.
  intros Hc Hu. split.
  - intros other. unfold members. rewrite Hc.
    case_decide; [subst; by rewrite difference_empty_L | done].
  - intros c. rewrite Hu. by rewrite decide_False by set_solver.
Qed.

Lemma removes_trans space_id gone1 gone2 w1 w2 w3 :
  removes space_id gone1 w1 w2 -> removes space_id gone2 w2 w3 ->
  removes space_id (gone1 ∪ gone2) w1 w3.
Proof.
  intros [Hm1 Hu1] [Hm2 Hu2]. split.
  - intros other. rewrite Hm2. case_decide as Ho.
    + rewrite Hm1, decide_True by done. set_solver.
    + rewrite Hm1. by rewrite decide_False.
  - intros c. rewrite Hu2, Hu1.
    destruct (decide (c ∈ gone2)) as [H2|H2], (decide (c ∈ gone1)) as [H1|H1].
    + rewrite decide_True; [done|]. apply elem_of_union. by left.
    + rewrite decide_True; [done|]. apply elem_of_union. by right.
    + rewrite decide_True; [done|]. apply elem_of_union. by left.
    + rewrite decide_False; [done|]. rewrite elem_of_union. tauto.
Qed.

Lemma removes_disconnect websocket space_id env w :
  removes space_id {[websocket]} w (world_of (disconnect websocket space_id env w)).
Proof.
  split.
  - intros other. apply disconnect_members.
  - intros c. rewrite disconnect_manager. cbn. rewrite lookup_delete.
    destruct (decide (websocket = c)) as [->|Hne].
    + by rewrite decide_True by set_solver.
    + by rewrite decide_False by set_solver.
Qed.

Lemma removes_broadcast space_id message exclude env w :
  removes space_id
    (list_to_set (dead_of env (targets (members space_id (manager w)) exclude)))
    w (world_of (broadcast space_id message exclude env w)).
Proof.
  split.
  - intros other. apply broadcast_members.
  - intros c. rewrite broadcast_run. cbn zeta. rewrite world_of_result.
    rewrite disconnect_each_user_ids.
    destruct (decide (c ∈ (list_to_set (dead_of env
                (targets (members space_id (manager w)) exclude)) : gset WebSocket)))
      as [Hin|Hin].
    + rewrite decide_True; [done|]. by apply elem_of_elements.
    + rewrite decide_False; [done|]. by rewrite elem_of_elements.
Qed.

Lemma dead_are_members env connections exclude websocket :
  websocket ∈ (list_to_set (dead_of env (targets connections exclude)) : gset WebSocket) ->
  websocket ∈ connections ∧ Some websocket ≠ exclude.
Proof.
  rewrite elem_of_list_to_set. unfold dead_of.
  rewrite list_elem_of_filter, elem_of_targets. tauto.
Qed.

(** What a turn of the loop removes: members of the space whose send failed
    and, when the loop ends, the socket itself. *)
Lemma receive_removes websocket space_id user_id frame env w :
  let r := websocket_receive websocket space_id user_id frame env w in
  exists gone,
    removes space_id gone w (world_of r)
    ∧ (forall c, c ∈ gone -> c ∈ members space_id (manager w) ∨ c = websocket)
    ∧ (outcome_of r ≠ Ret true -> websocket ∈ gone).
Proof.
  cbn zeta.
  assert (forall (message : json) w1,
            removes space_id ∅ w w1 ->
            exists gone,
              removes space_id gone w
                (world_of (broadcast space_id message (Some websocket) env w1))
              ∧ (forall c, c ∈ gone -> c ∈ members space_id (manager w) ∨ c = websocket))
    as Htold.
  { intros message w1 H1. eexists. split.
    - eapply removes_trans; [exact H1 | apply removes_broadcast].
    - intros c. rewrite elem_of_union. intros [Hc|Hc]; [set_solver|].
      apply dead_are_members in Hc as [Hc _]. left.
      destruct H1 as [Hm _]. rewrite Hm, decide_True in Hc by done. set_solver. }
  destruct frame as [[[]|]| |].
  6: { rewrite receive_dict_outcome.
       destruct (store_takes space_id fields (clock env) (manager w)) eqn:Htakes; cycle 1.
       { rewrite receive_rejected by done. rewrite world_of_result.
         exists {[websocket]}. split; [apply removes_disconnect|].
         split; [set_solver | intros _; set_solver]. }
       destruct (json_is_str (dict_get fields "type" JNull) "code_change") eqn:H1;
       [|destruct (json_is_str (dict_get fields "type" JNull) "language_change") eqn:H2;
         [|destruct (json_is_str (dict_get fields "type" JNull) "cursor_move") eqn:H3]].
       - rewrite receive_code_change by done. cbn zeta. rewrite world_of_result.
         edestruct Htold as (gone & Hr & Hg); [|exists gone; split; [exact Hr|by split]].
         destruct (write_due space_id (clock env) (manager w));
           [by apply removes_same_registry | apply removes_refl].
       - rewrite receive_language_change by done. cbn zeta. rewrite world_of_result.
         edestruct Htold as (gone & Hr & Hg); [|exists gone; split; [exact Hr|by split]].
         by apply removes_same_registry.
       - rewrite receive_cursor_move by done. cbn zeta. rewrite world_of_result.
         edestruct Htold as (gone & Hr & Hg); [|exists gone; split; [exact Hr|by split]].
         apply removes_refl.
       - rewrite receive_unknown_type by done. rewrite world_of_result.
         exists ∅. split; [apply removes_refl|]. split; [set_solver|done]. }
  7: { rewrite receive_disconnect. cbn zeta. rewrite world_of_result, outcome_of_result.
       eexists. split; [|split].
       - eapply removes_trans; [apply removes_disconnect | apply removes_broadcast].
       - intros c. rewrite elem_of_union. intros [Hc|Hc]; [set_solver|].
         apply dead_are_members in Hc as [Hc _]. left.
         rewrite disconnect_members, decide_True in Hc by done. set_solver.
       - intros _. set_solver. }
  all: rewrite receive_failure by done.
  all: rewrite world_of_result, outcome_of_result.
  all: exists {[websocket]}; split; [apply removes_disconnect|].
  all: split; [set_solver|intros _; set_solver].
Qed.

Lemma on_exception_removes websocket space_id user_id e env w :
  exists gone,
    removes space_id gone w (world_of (on_exception websocket space_id user_id e env w))
    ∧ (forall c, c ∈ gone -> c ∈ members space_id (manager w) ∨ c = websocket)
    ∧ websocket ∈ gone.
Proof.
  destruct e.
  - rewrite on_disconnect_run. cbn zeta. rewrite world_of_result.
    eexists. split; [|split].
    + eapply removes_trans; [apply removes_disconnect | apply removes_broadcast].
    + intros c. rewrite elem_of_union. intros [Hc|Hc]; [set_solver|].
      apply dead_are_members in Hc as [Hc _]. left.
      rewrite disconnect_members, decide_True in Hc by done. set_solver.
    + set_solver.
  - rewrite on_error_run. exists {[websocket]}.
    split; [apply removes_disconnect|]. split; set_solver.
Qed.

(** What the opening of a channel on a stored space removes, after the joiner
    has been added: members whose send failed and, when the [init] message
    could not be sent, the joiner. *)
Lemma open_removes websocket space_id user_id space env w :
  database w !! space_id = Some space ->
  let r := websocket_open websocket space_id user_id env w in
  exists gone,
    removes space_id gone (joined websocket space_id user_id w) (world_of r)
    ∧ (forall c, c ∈ gone -> c ∈ members space_id (manager w) ∨ c = websocket)
    ∧ (outcome_of r = Ret true ∧ websocket ∉ gone
       ∨ outcome_of r = Ret false ∧ websocket ∈ gone).
Proof.
  intros Hdb. cbn zeta.
  destruct (decide (transport env websocket = SendOk)) as [Hok|Hko].
  - rewrite (open_admitted _ _ _ space) by done. cbn zeta.
    rewrite world_of_result, outcome_of_result.
    eexists. split; [apply removes_broadcast|]. split.
    + intros c Hc. apply dead_are_members in Hc as [Hc Hne].
      rewrite members_joined, decide_True in Hc by done. set_solver.
    + left. split; [done|]. apply joiner_stays.
  - rewrite (open_init_failed _ _ _ space) by done. cbn zeta.
    rewrite world_of_result, outcome_of_result.
    destruct (on_exception_removes websocket space_id user_id
                match transport env websocket with
                | SendDisconnect => WebSocketDisconnect
                | _ => OtherException
                end env (joined websocket space_id user_id w)) as (gone & Hr & Hg & Hown).
    exists gone. split; [done|]. split; [|by right].
    intros c Hc. destruct (Hg c Hc) as [Hin|Heq]; [|by right].
    rewrite members_joined, decide_True in Hin by done. set_solver.
Qed.

Lemma tidy_removes cor cor' space_id gone w w' :
  tidy cor w ->
  removes space_id gone w w' ->
  (forall c, c ∈ gone -> forall other, c ∈ members other (manager w) -> other = space_id) ->
  (forall x, x ∉ gone -> cor' !! x = cor !! x) ->
  tidy cor' w'.
Proof.
  intros [Hserved Hreg] [Hm Hu] Hone Hsame. split.
  - intros other x Hin. rewrite Hm in Hin.
    assert (x ∈ members other (manager w) ∧ x ∉ gone) as [Hin' Hx].
    { case_decide as Ho.
      - subst other. set_solver.
      - split; [done|]. intros Hg. by apply Ho, (Hone x Hg). }
    destruct (Hserved _ _ Hin') as (u & Hco & Hid). exists u.
    by rewrite Hsame, Hu, decide_False.
  - intros x u. rewrite Hu. case_decide as Hx; [done|]. intros Hid.
    destruct (Hreg _ _ Hid) as [sid Hin]. exists sid. rewrite Hm.
    case_decide; [subst; set_solver | done].
Qed.

Lemma user_ids_joined websocket space_id user_id w :
  user_ids (manager (joined websocket space_id user_id w)) =
  <[websocket := user_id]> (user_ids (manager w)).
Proof. reflexivity. Qed.

Lemma tidy_fresh cor websocket state w :
  tidy cor w -> cor !! websocket = None -> tidy (<[websocket := state]> cor) w.
Proof.
  intros [Hserved Hreg] Hfresh. split; [|done].
  intros sid x Hin. destruct (Hserved _ _ Hin) as (u & Hco & Hid). exists u.
  split; [|done]. rewrite lookup_insert_ne; [done|]. intros <-. congruence.
Qed.

Lemma tidy_joined cor websocket space_id user_id w :
  tidy cor w ->
  cor !! websocket = None ->
  tidy (<[websocket := Active space_id user_id]> cor) (joined websocket space_id user_id w).
Proof.
  intros [Hserved Hreg] Hfresh.
  assert (forall sid, websocket ∉ members sid (manager w)) as Hnew.
  { intros sid Hin. destruct (Hserved _ _ Hin) as (u & Hco & _). congruence. }
  split.
  - intros sid x. rewrite members_joined, user_ids_joined.
    destruct (decide (x = websocket)) as [->|Hne].
    + case_decide as Hs; [|by intros ?%Hnew]. subst sid. intros _.
      exists user_id. by rewrite !lookup_insert_eq.
    + rewrite !lookup_insert_ne by done. intros Hin. apply (Hserved sid).
      case_decide; [subst; set_solver | done].
  - intros x u. rewrite user_ids_joined, lookup_insert.
    case_decide as Hx.
    + subst x. intros _. exists space_id. rewrite members_joined, decide_True by done.
      set_solver.
    + intros Hid. destruct (Hreg _ _ Hid) as [sid Hin]. exists sid.
      rewrite members_joined. case_decide; [subst; set_solver | done].
Qed.

Lemma step_tidy env ev s s' tr :
  step env ev s = Some (s', tr) ->
  tidy (coroutines s) (world s) -> tidy (coroutines s') (world s').
Proof.
  intros Hstep Htidy.
  destruct ev as [websocket space_id user_id | websocket frame]; cbn in Hstep.
  - destruct (coroutines s !! websocket) eqn:Hfresh; [done|].
    destruct (database (world s) !! space_id) as [space|] eqn:Hdb.
    + destruct (open_removes websocket space_id user_id space env (world s) Hdb)
        as (gone & Hr & Hg & Hout).
      destruct (websocket_open websocket space_id user_id env (world s)) as [[o w1] tr1].
      rewrite world_of_result, outcome_of_result in *.
      injection Hstep as <- <-. cbn [world coroutines].
      pose proof (tidy_joined _ websocket space_id user_id _ Htidy Hfresh) as Hj.
      eapply tidy_removes; [exact Hj | exact Hr | |].
      * intros c Hc other Hin. destruct Hj as [Hserved _].
        destruct (Hserved _ _ Hin) as (u & Hco & _).
        destruct (Hg c Hc) as [Hmem | ->].
        -- assert (c ∈ members space_id
                     (manager (joined websocket space_id user_id (world s)))) as Hmem'.
           { rewrite members_joined, decide_True by done. set_solver. }
           destruct (Hserved _ _ Hmem') as (u' & Hco' & _). congruence.
        -- rewrite lookup_insert_eq in Hco. congruence.
      * intros x Hx. destruct Hout as [[-> Hown]|[-> Hown]]; cbn [next_state]; [done|].
        rewrite !lookup_insert_ne; [done|..]; by intros <-.
    + rewrite open_missing in Hstep by done. injection Hstep as <- <-. cbn.
      by apply tidy_fresh.
  - destruct (coroutines s !! websocket) as [[space_id user_id|]|] eqn:Hco; [|done..].
    destruct (receive_removes websocket space_id user_id frame env (world s))
      as (gone & Hr & Hg & Hout).
    destruct (websocket_receive websocket space_id user_id frame env (world s))
      as [[o w1] tr1].
    rewrite world_of_result, outcome_of_result in *.
    injection Hstep as <- <-. cbn [world coroutines].
    eapply tidy_removes; [exact Htidy | exact Hr | |].
    + intros c Hc other Hin. destruct Htidy as [Hserved _].
      destruct (Hserved _ _ Hin) as (u & Hcc & _).
      destruct (Hg c Hc) as [Hmem | ->]; [|congruence].
      destruct (Hserved _ _ Hmem) as (u' & Hcc' & _). congruence.
    + intros x Hx. destruct (decide (x = websocket)) as [->|Hne];
        [|by rewrite lookup_insert_ne].
      rewrite lookup_insert_eq, Hco.
      destruct o as [[]|]; [done| |]; exfalso; by apply Hx, Hout.
Qed.

Lemma reachable_tidy s : reachable s -> tidy (coroutines s) (world s).
Proof.
  induction 1 as [db | env ev s s' tr _ IH Hstep].
  - split.
    + intros sid c. unfold members. cbn. rewrite lookup_empty. cbn.
      by intros ?%not_elem_of_empty.
    + intros c u. cbn. by rewrite lookup_empty.
  - by eapply step_tidy.
Qed.

(** X5.  In every reachable state the table of user ids holds exactly the
    members of the spaces: a member of a space is registered under the user
    id of the coroutine that serves it, a registered socket is a member of a
    space, and no socket is a member of two spaces. *)
Theorem X5_user_ids_are_the_members s :
  reachable s ->
  let m := manager (world s) in
  (forall space_id websocket,
     websocket ∈ members space_id m ->
     exists user_id,
       coroutines s !! websocket = Some (Active space_id user_id)
       ∧ user_ids m !! websocket = Some user_id)
  ∧ (forall websocket,
       is_Some (user_ids m !! websocket) ↔ exists space_id, websocket ∈ members space_id m)
  ∧ (forall websocket space_id other,
       websocket ∈ members space_id m -> websocket ∈ members other m -> space_id = other).
Proof.
  intros Hs. cbn zeta. destruct (reachable_tidy s Hs) as [Hserved Hreg].
  split; [done|]. split.
  - intros websocket. split.
    + intros [u Hu]. by apply (Hreg _ u).
    + intros [sid Hin]. destruct (Hserved _ _ Hin) as (u & _ & Hu). by exists u.
  - intros websocket sid other H1 H2.
    destruct (Hserved _ _ H1) as (u1 & Hc1 & _).
    destruct (Hserved _ _ H2) as (u2 & Hc2 & _). congruence.
Qed.

Lemma X5_user_ids_are_the_members_witness :
  is_Some (user_ids (manager (world two_joined)) !! 2%positive) ↔
  exists space_id, 2%positive ∈ members space_id (manager (world two_joined)).
Proof.
  exact (proj1 (proj2 (X5_user_ids_are_the_members two_joined
                         (state_after_reachable _))) 2%positive).
Defined.

(** ** A handler stays in its space *)

Lemma same_elsewhere_refl space_id w : same_elsewhere space_id w w.
Proof. by intros other _. Qed.

Lemma same_elsewhere_trans space_id w1 w2 w3 :
  same_elsewhere space_id w1 w2 -> same_elsewhere space_id w2 w3 ->
  same_elsewhere space_id w1 w3.
Proof.
  intros H12 H23 other Hne.
  destruct (H23 other Hne) as (-> & -> & ->). by apply H12.
Qed.

Lemma same_elsewhere_disconnect websocket space_id env w :
  same_elsewhere space_id w (world_of (disconnect websocket space_id env w)).
Proof.
  intros other Hne. rewrite disconnect_manager, disconnect_database. cbn.
  split; [by apply discard_other|]. split; [done|].
  destruct (user_ids (manager w) !! websocket) as [u|]; [destruct (truthy u)|]; try done.
  unfold Database.remove_user_from_space. by rewrite lookup_alter_ne.
Qed.

Lemma same_elsewhere_disconnect_each l space_id env w :
  same_elsewhere space_id w (world_of (disconnect_each l space_id env w)).
Proof.
  revert w. induction l as [|c rest IH]; intros w; [apply same_elsewhere_refl|].
  rewrite disconnect_each_cons_world.
  eapply same_elsewhere_trans; [apply same_elsewhere_disconnect | apply IH].
Qed.

Lemma same_elsewhere_broadcast space_id message exclude env w :
  same_elsewhere space_id w (world_of (broadcast space_id message exclude env w)).
Proof.
  rewrite broadcast_run. cbn zeta. rewrite world_of_result.
  apply same_elsewhere_disconnect_each.
Qed.

Lemma same_elsewhere_persist_code space_id new_code now w :
  same_elsewhere space_id w (persist_code space_id new_code now w).
Proof.
  intros other Hne. unfold persist_code, Database.update_space_code. cbn.
  split; [done|]. split; [by rewrite lookup_insert_ne | by rewrite lookup_alter_ne].
Qed.

Lemma same_elsewhere_joined websocket space_id user_id w :
  same_elsewhere space_id w (joined websocket space_id user_id w).
Proof.
  intros other Hne. unfold joined, Database.add_user_to_space. cbn.
  split; [by rewrite lookup_insert_ne|]. split; [done | by rewrite lookup_alter_ne].
Qed.

Lemma confined_mono space_id (audience audience' : gset WebSocket) tr :
  audience ⊆ audience' ->
  Forall (confined space_id audience) tr -> Forall (confined space_id audience') tr.
Proof.
  intros Hsub Htr. eapply Forall_impl; [exact Htr|].
  intros [c|c ? ?|c ?|c ?|call|call]; cbn; set_solver.
Qed.

Lemma only_removes_confined space_id audience tr :
  only_removes space_id tr -> Forall (confined space_id audience) tr.
Proof. intros Htr. eapply Forall_impl; [exact Htr|]. by intros e [u ->]. Qed.

Lemma confined_disconnect websocket space_id audience env w :
  Forall (confined space_id audience) (trace_of (disconnect websocket space_id env w)).
Proof. apply only_removes_confined, disconnect_only_removes. Qed.

Lemma confined_broadcast space_id message exclude audience env w :
  members space_id (manager w) ⊆ audience ->
  Forall (confined space_id audience) (trace_of (broadcast space_id message exclude env w)).
Proof.
  intros Hsub. destruct (broadcast_trace space_id message exclude env w)
    as (cleanup & -> & Hc).
  apply Forall_app. split; [|by apply only_removes_confined].
  apply Forall_fmap, Forall_forall. intros c [_ Hin]%elem_of_targets.
  unfold attempt. cbn. destruct (transport env c); cbn; by apply Hsub.
Qed.

Lemma confined_on_exception websocket space_id user_id e audience env w :
  members space_id (manager w) ⊆ audience ->
  same_elsewhere space_id w (world_of (on_exception websocket space_id user_id e env w))
  ∧ Forall (confined space_id audience)
      (trace_of (on_exception websocket space_id user_id e env w)).
Proof.
  intros Hsub. destruct e.
  - rewrite on_disconnect_run. cbn zeta. rewrite world_of_result, trace_of_result. split.
    + eapply same_elsewhere_trans;
        [apply same_elsewhere_disconnect | apply same_elsewhere_broadcast].
    + apply Forall_app. split; [apply confined_disconnect|].
      apply confined_broadcast. rewrite disconnect_members, decide_True by done.
      set_solver.
  - rewrite on_error_run. split;
      [apply same_elsewhere_disconnect | apply confined_disconnect].
Qed.

Lemma confined_receive websocket space_id user_id frame env w :
  let r := websocket_receive websocket space_id user_id frame env w in
  same_elsewhere space_id w (world_of r)
  ∧ Forall (confined space_id (members space_id (manager w))) (trace_of r).
Proof.
  cbn zeta. destruct frame as [[[]|]| |].
  6: { destruct (store_takes space_id fields (clock env) (manager w)) eqn:Htakes; cycle 1.
       { rewrite receive_rejected by done. rewrite world_of_result, trace_of_result.
         split; [apply same_elsewhere_disconnect|].
         constructor; [|apply confined_disconnect].
         unfold update_call. cbn.
         by destruct (json_is_str (dict_get fields "type" JNull) "code_change"). }
       destruct (json_is_str (dict_get fields "type" JNull) "code_change") eqn:H1;
       [|destruct (json_is_str (dict_get fields "type" JNull) "language_change") eqn:H2;
         [|destruct (json_is_str (dict_get fields "type" JNull) "cursor_move") eqn:H3]].
       - rewrite receive_code_change by done. cbn zeta.
         rewrite world_of_result, trace_of_result. split.
         + eapply same_elsewhere_trans; [|apply same_elsewhere_broadcast].
           destruct (write_due space_id (clock env) (manager w));
             [apply same_elsewhere_persist_code | apply same_elsewhere_refl].
         + apply Forall_app. split.
           * destruct (write_due space_id (clock env) (manager w)); by repeat constructor.
           * apply confined_broadcast.
             by destruct (write_due space_id (clock env) (manager w)).
       - rewrite receive_language_change by done. cbn zeta.
         rewrite world_of_result, trace_of_result. split.
         + eapply same_elsewhere_trans; [|apply same_elsewhere_broadcast].
           intros other Hne. unfold Database.update_space_language. cbn.
           by rewrite lookup_alter_ne.
         + constructor; [done|]. by apply confined_broadcast.
       - rewrite receive_cursor_move by done. cbn zeta.
         rewrite world_of_result, trace_of_result.
         split; [apply same_elsewhere_broadcast | by apply confined_broadcast].
       - rewrite receive_unknown_type by done.
         rewrite world_of_result, trace_of_result.
         split; [apply same_elsewhere_refl | constructor]. }
  7: { rewrite receive_disconnect. cbn zeta. rewrite world_of_result, trace_of_result.
       split.
       - eapply same_elsewhere_trans;
           [apply same_elsewhere_disconnect | apply same_elsewhere_broadcast].
       - apply Forall_app. split; [apply confined_disconnect|].
         apply confined_broadcast. rewrite disconnect_members, decide_True by done.
         set_solver. }
  all: rewrite receive_failure by done.
  all: rewrite world_of_result, trace_of_result.
  all: split; [apply same_elsewhere_disconnect | apply confined_disconnect].
Qed.

Lemma confined_open websocket space_id user_id env w :
  let r := websocket_open websocket space_id user_id env w in
  same_elsewhere space_id w (world_of r)
  ∧ Forall (confined space_id (members space_id (manager w) ∪ {[websocket]})) (trace_of r).
Proof.
  cbn zeta.
  assert (members space_id (manager (joined websocket space_id user_id w)) ⊆
          members space_id (manager w) ∪ {[websocket]}) as Hsub.
  { by rewrite members_joined, decide_True by done. }
  destruct (database w !! space_id) as [space|] eqn:Hdb.
  - destruct (decide (transport env websocket = SendOk)) as [Hok|Hko].
    + rewrite (open_admitted _ _ _ space) by done. cbn zeta.
      rewrite world_of_result, trace_of_result. split.
      * eapply same_elsewhere_trans;
          [apply same_elsewhere_joined | apply same_elsewhere_broadcast].
      * apply Forall_app. split; [|by apply confined_broadcast].
        repeat constructor; cbn; set_solver.
    + rewrite (open_init_failed _ _ _ space) by done. cbn zeta.
      rewrite world_of_result, trace_of_result.
      destruct (confined_on_exception websocket space_id user_id
                  match transport env websocket with
                  | SendDisconnect => WebSocketDisconnect
                  | _ => OtherException
                  end _ env (joined websocket space_id user_id w) Hsub) as [Hw Ht].
      split.
      * eapply same_elsewhere_trans; [apply same_elsewhere_joined | exact Hw].
      * apply Forall_app. split; [|done]. repeat constructor; cbn; set_solver.
  - rewrite open_missing by done. rewrite world_of_result, trace_of_result.
    split; [apply same_elsewhere_refl|]. repeat constructor; cbn; set_solver.
Qed.

(** X6.  A step of the server stays in the space of its event: the entry in
    the registry, the write time and the stored document of every other
    space are left as they were; every send, acceptance and closing is on
    the socket of the event or on a socket that was a member of the space
    before the step; and every store call names the space. *)
Theorem X6_a_step_stays_in_its_space env ev s s' tr :
  step env ev s = Some (s', tr) ->
  let space_id := space_of_event s ev in
  same_elsewhere space_id (world s) (world s')
  ∧ Forall (confined space_id (members space_id (manager (world s)) ∪ {[socket_of ev]})) tr.
Proof.
  intros Hstep. cbn zeta.
  destruct ev as [websocket space_id user_id | websocket frame]; cbn in Hstep |- *.
  - destruct (coroutines s !! websocket); [done|].
    pose proof (confined_open websocket space_id user_id env (world s)) as Hopen.
    cbn zeta in Hopen.
    destruct (websocket_open websocket space_id user_id env (world s)) as [[o w1] tr1].
    rewrite world_of_result, trace_of_result in Hopen. by injection Hstep as <- <-.
  - destruct (coroutines s !! websocket) as [[space_id user_id|]|]; [|done..].
    pose proof (confined_receive websocket space_id user_id frame env (world s)) as Hrec.
    cbn zeta in Hrec.
    destruct (websocket_receive websocket space_id user_id frame env (world s))
      as [[o w1] tr1].
    rewrite world_of_result, trace_of_result in Hrec. injection Hstep as <- <-.
    destruct Hrec as [Hw Ht]. split; [done|].
    eapply confined_mono; [|exact Ht]. set_solver.
Qed.

Lemma X6_a_step_stays_in_its_space_witness :
  exists s' tr,
    step (env_at 102) (Receive 1%positive (TextFrame (Some (code_change_of "x=1"))))
      two_joined = Some (s', tr)
    ∧ same_elsewhere "ab12cd34" (world two_joined) (world s')
    ∧ Forall (confined "ab12cd34"
                (members "ab12cd34" (manager (world two_joined)) ∪ {[1%positive]})) tr.
Proof.
  destruct (step (env_at 102) (Receive 1%positive (TextFrame (Some (code_change_of "x=1"))))
              two_joined) as [[s' tr]|] eqn:Hstep; [|by vm_compute in Hstep].
  exists s', tr. split; [done|].
  exact (X6_a_step_stays_in_its_space _ _ _ _ _ Hstep).
Defined.

(** ** The collection of spaces *)




Section Collection.

Variable bson_datetime : Z -> Z.
Variable SPACE_EXPIRY_HOURS : Z.


Lemma update_space_code_alter space_id code now db :
  Spaces.update_space_code bson_datetime space_id code now db =
  if bson_encodable code
  then
    Some (match db !! space_id with
          | None => false
          | Some d => negb (json_eqb code (sd_code d)
                            && Z.eqb (bson_datetime now) (sd_last_updated d))
          end,
          alter (fun d => mkSpaceDocument (sd_space_id d) code (sd_language d)
                            (sd_created_at d) (bson_datetime now) (sd_active_users d))
                space_id db)
  else None.
Proof.
  unfold Spaces.update_space_code. destruct (bson_encodable code); [|done].
  destruct (db !! space_id) as [d|] eqn:Hdb; f_equal; f_equal.
  - apply map_eq. intros k. rewrite lookup_alter, lookup_insert.
    case_decide; [subst; by rewrite Hdb | done].
  - apply map_eq. intros k. rewrite lookup_alter.
    case_decide; [subst; by rewrite Hdb | done].
Qed.

Lemma update_space_language_alter space_id language now db :
  Spaces.update_space_language bson_datetime space_id language now db =
  if bson_encodable language
  then
    Some (match db !! space_id with
          | None => false
          | Some d => negb (json_eqb language (sd_language d)
                            && Z.eqb (bson_datetime now) (sd_last_updated d))
          end,
          alter (fun d => mkSpaceDocument (sd_space_id d) (sd_code d) language
                            (sd_created_at d) (bson_datetime now) (sd_active_users d))
                space_id db)
  else None.
Proof.
  unfold Spaces.update_space_language. destruct (bson_encodable language); [|done].
  destruct (db !! space_id) as [d|] eqn:Hdb; f_equal; f_equal.
  - apply map_eq. intros k. rewrite lookup_alter, lookup_insert.
    case_decide; [subst; by rewrite Hdb | done].
  - apply map_eq. intros k. rewrite lookup_alter.
    case_decide; [subst; by rewrite Hdb | done].
Qed.


(** X9.  [cleanup_expired_spaces] deletes exactly the documents created
    before the expiry instant: a document is there afterwards exactly when
    it was there and is not that old, the number returned is the number of
    documents that have gone, and a second call at the same instant deletes
    nothing. *)
Theorem X9_cleanup_deletes_exactly_the_expired now db :
  let r := Spaces.cleanup_expired_spaces bson_datetime SPACE_EXPIRY_HOURS now db in
  (forall space_id d,
     r.2 !! space_id = Some d ↔
     db !! space_id = Some d
     ∧ (Spaces.expiry_time bson_datetime SPACE_EXPIRY_HOURS now <= sd_created_at d)%Z)
  ∧ (r.1 + size r.2 = size db)%nat
  ∧ Spaces.cleanup_expired_spaces bson_datetime SPACE_EXPIRY_HOURS now r.2 = (0%nat, r.2).
Proof.
  cbn zeta. unfold Spaces.cleanup_expired_spaces. cbn [fst snd].
  split; [|split].
  - intros space_id d. rewrite map_lookup_filter_Some. cbn. split.
    + intros [Hd Hnot]. split; [done | lia].
    + intros [Hd Hle]. split; [done | lia].
  - rewrite <- map_size_disj_union by apply map_disjoint_filter_complement.
    by rewrite map_filter_union_complement.
  - f_equal.
    + apply map_size_empty_iff, map_empty. intros k.
      apply map_lookup_filter_None. right. intros d [_ Hnot]%map_lookup_filter_Some.
      by cbn in *.
    + apply map_filter_id. intros k d [_ Hnot]%map_lookup_filter_Some. by cbn in *.
Qed.

Lemma filter_alter_same (P : string * SpaceDocument -> Prop)
    `{!forall kd, Decision (P kd)} (f : SpaceDocument -> SpaceDocument) space_id
    (db : gmap string SpaceDocument) :
  (forall k d, P (k, f d) ↔ P (k, d)) ->
  filter P (alter f space_id db) = alter f space_id (filter P db).
Proof.
  intros Hf. apply map_eq. intros k. apply option_eq. intros d.
  rewrite map_lookup_filter_Some.
  destruct (decide (k = space_id)) as [->|Hne].
  - rewrite !lookup_alter_eq. rewrite !fmap_Some. split.
    + intros [(d0 & Hd0 & ->) HP]. exists d0. split; [|done].
      apply map_lookup_filter_Some. split; [done|]. by apply Hf.
    + intros (d0 & [Hd0 HP]%map_lookup_filter_Some & ->). split; [by exists d0|].
      by apply Hf.
  - rewrite !lookup_alter_ne by done. by rewrite map_lookup_filter_Some.
Qed.

Lemma size_alter {A} (f : A -> A) (k : string) (m : gmap string A) :
  size (alter f k m) = size m.
Proof.
  rewrite <- (size_dom (D:=gset string) (alter f k m)), <- (size_dom (D:=gset string) m).
  by rewrite dom_alter_L.
Qed.

(** X10.  Activity does not extend the life of a space: the updates of the
    code and of the language and the presence calls leave [created_at] as it
    is, so a clean-up after any of them deletes as many spaces as a clean-up
    before it, and the two orders give the same collection. *)
Theorem X10_activity_does_not_extend_the_lifetime space_id value user_id t now db :
  let cleanup := Spaces.cleanup_expired_spaces bson_datetime SPACE_EXPIRY_HOURS now in
  match Spaces.update_space_code bson_datetime space_id value t db,
        Spaces.update_space_code bson_datetime space_id value t (cleanup db).2 with
  | Some before, Some after =>
      (cleanup before.2).1 = (cleanup db).1 ∧ (cleanup before.2).2 = after.2
  | None, None => bson_encodable value = false
  | _, _ => False
  end
  ∧ match Spaces.update_space_language bson_datetime space_id value t db,
          Spaces.update_space_language bson_datetime space_id value t (cleanup db).2 with
    | Some before, Some after =>
        (cleanup before.2).1 = (cleanup db).1 ∧ (cleanup before.2).2 = after.2
    | None, None => bson_encodable value = false
    | _, _ => False
    end
  ∧ (cleanup (Spaces.add_user_to_space space_id user_id db)).1 = (cleanup db).1
  ∧ (cleanup (Spaces.add_user_to_space space_id user_id db)).2 =
    Spaces.add_user_to_space space_id user_id (cleanup db).2
  ∧ (cleanup (Spaces.remove_user_from_space space_id user_id db)).1 = (cleanup db).1
  ∧ (cleanup (Spaces.remove_user_from_space space_id user_id db)).2 =
    Spaces.remove_user_from_space space_id user_id (cleanup db).2.
Proof.
  cbn beta zeta. rewrite !update_space_code_alter, !update_space_language_alter.
  unfold Spaces.cleanup_expired_spaces, Spaces.add_user_to_space,
    Spaces.remove_user_from_space. cbn [fst snd].
  destruct (bson_encodable value); cbn [fst snd]; repeat split.
  all: first [ by apply filter_alter_same
             | rewrite filter_alter_same by done; apply size_alter ].
Qed.

(** X11.  [periodic_cleanup], on a collection that nothing else touches in
    the meantime: after the loop has woken up at the given instants, a
    document is there exactly when it was there at the start and was not
    found expired at any of them. *)
Theorem X11_periodic_cleanup_keeps_the_young wake_ups db space_id d :
  Spaces.periodic_cleanup bson_datetime SPACE_EXPIRY_HOURS wake_ups db !! space_id = Some d ↔
  db !! space_id = Some d
  ∧ Forall (fun now =>
              (Spaces.expiry_time bson_datetime SPACE_EXPIRY_HOURS now <= sd_created_at d)%Z)
           wake_ups.
Proof.
  revert db. induction wake_ups as [|now rest IH]; intros db; cbn [Spaces.periodic_cleanup].
  - split; [by intros ?; split | by intros [? _]].
  - rewrite IH. unfold Spaces.cleanup_expired_spaces. cbn [snd].
    rewrite map_lookup_filter_Some, Forall_cons. cbn. split.
    + intros [[Hd Hnot] Hrest]. split; [done|]. split; [lia | done].
    + intros [Hd [Hle Hrest]]. split; [|done]. split; [done | lia].
Qed.

End Collection.

(** ** The channels and the set of stored spaces *)

Lemma dom_disconnect websocket space_id env w :
  dom (database (world_of (disconnect websocket space_id env w))) = dom (database w).
Proof.
  rewrite disconnect_database.
  destruct (user_ids (manager w) !! websocket) as [u|]; [destruct (truthy u)|]; try done.
  unfold Database.remove_user_from_space. by rewrite dom_alter_L.
Qed.

Lemma dom_disconnect_each l space_id env w :
  dom (database (world_of (disconnect_each l space_id env w))) = dom (database w).
Proof.
  revert w. induction l as [|c rest IH]; intros w; [done|].
  by rewrite disconnect_each_cons_world, IH, dom_disconnect.
Qed.

Lemma dom_broadcast space_id message exclude env w :
  dom (database (world_of (broadcast space_id message exclude env w))) = dom (database w).
Proof.
  rewrite broadcast_run. cbn zeta. rewrite world_of_result. apply dom_disconnect_each.
Qed.

Lemma dom_on_exception websocket space_id user_id e env w :
  dom (database (world_of (on_exception websocket space_id user_id e env w))) =
  dom (database w).
Proof.
  destruct e.
  - rewrite on_disconnect_run. cbn zeta. rewrite world_of_result.
    by rewrite dom_broadcast, dom_disconnect.
  - rewrite on_error_run. apply dom_disconnect.
Qed.

Lemma dom_receive websocket space_id user_id frame env w :
  dom (database (world_of (websocket_receive websocket space_id user_id frame env w))) =
  dom (database w).
Proof.
  destruct frame as [[[]|]| |].
  6: { destruct (store_takes space_id fields (clock env) (manager w)) eqn:Htakes;
         [|by rewrite receive_rejected, world_of_result, dom_disconnect].
       destruct (json_is_str (dict_get fields "type" JNull) "code_change") eqn:H1;
       [|destruct (json_is_str (dict_get fields "type" JNull) "language_change") eqn:H2;
         [|destruct (json_is_str (dict_get fields "type" JNull) "cursor_move") eqn:H3]].
       - rewrite receive_code_change by done. cbn zeta.
         rewrite world_of_result, dom_broadcast.
         destruct (write_due space_id (clock env) (manager w)); [|done].
         unfold persist_code, Database.update_space_code. cbn. by rewrite dom_alter_L.
       - rewrite receive_language_change by done. cbn zeta.
         rewrite world_of_result, dom_broadcast.
         unfold Database.update_space_language. cbn. by rewrite dom_alter_L.
       - rewrite receive_cursor_move by done. cbn zeta.
         by rewrite world_of_result, dom_broadcast.
       - by rewrite receive_unknown_type. }
  7: { rewrite receive_disconnect. cbn zeta. rewrite world_of_result.
       by rewrite dom_broadcast, dom_disconnect. }
  all: rewrite receive_failure by done.
  all: by rewrite world_of_result, dom_disconnect.
Qed.

Lemma dom_joined websocket space_id user_id w :
  dom (database (joined websocket space_id user_id w)) = dom (database w).
Proof. unfold joined, Database.add_user_to_space. cbn. by rewrite dom_alter_L. Qed.

Lemma dom_open websocket space_id user_id env w :
  dom (database (world_of (websocket_open websocket space_id user_id env w))) =
  dom (database w).
Proof.
  destruct (database w !! space_id) as [space|] eqn:Hdb.
  - destruct (decide (transport env websocket = SendOk)) as [Hok|Hko].
    + rewrite (open_admitted _ _ _ space) by done. cbn zeta.
      by rewrite world_of_result, dom_broadcast, dom_joined.
    + rewrite (open_init_failed _ _ _ space) by done. cbn zeta.
      by rewrite world_of_result, dom_on_exception, dom_joined.
  - by rewrite open_missing.
Qed.

Lemma dom_step env ev s s' tr :
  step env ev s = Some (s', tr) ->
  dom (database (world s')) = dom (database (world s)).
Proof.
  intros Hstep. destruct ev as [websocket space_id user_id | websocket frame]; cbn in Hstep.
  - destruct (coroutines s !! websocket); [done|].
    pose proof (dom_open websocket space_id user_id env (world s)) as Hd.
    destruct (websocket_open websocket space_id user_id env (world s)) as [[o w1] tr1].
    rewrite world_of_result in Hd. by injection Hstep as <- <-.
  - destruct (coroutines s !! websocket) as [[space_id user_id|]|]; [|done..].
    pose proof (dom_receive websocket space_id user_id frame env (world s)) as Hd.
    destruct (websocket_receive websocket space_id user_id frame env (world s))
      as [[o w1] tr1].
    rewrite world_of_result in Hd. by injection Hstep as <- <-.
Qed.

(** X12.  The channels neither create nor delete a space: after any run of
    the server the store holds a document for exactly the identifiers it
    held before.  In particular an update for a space that the store does
    not hold is lost, and the presence calls do not bring a document back. *)
Theorem X12_channels_keep_the_set_of_spaces evs s s' tr :
  run evs s = Some (s', tr) ->
  forall space_id,
    is_Some (database (world s') !! space_id) ↔ is_Some (database (world s) !! space_id).
Proof.
  intros Hrun space_id. rewrite <- !elem_of_dom.
  enough (dom (database (world s')) = dom (database (world s))) as -> by done.
  revert s s' tr Hrun. induction evs as [|[env ev] rest IH]; intros s s' tr; cbn.
  - by intros [= <- <-].
  - destruct (step env ev s) as [[s1 tr1]|] eqn:Hstep; [|done].
    destruct (run rest s1) as [[s2 tr2]|] eqn:Hrun; [|done].
    intros [= <- <-]. rewrite (IH _ _ _ Hrun). by eapply dom_step.
Qed.

Lemma X12_channels_keep_the_set_of_spaces_witness :
  exists s' tr,
    run one_edit_then_leave (initial sample_db) = Some (s', tr)
    ∧ forall space_id,
        is_Some (database (world s') !! space_id) ↔ is_Some (sample_db !! space_id).
Proof.
  destruct (run one_edit_then_leave (initial sample_db)) as [[s' tr]|] eqn:Hrun;
    [|by vm_compute in Hrun].
  exists s', tr. split; [done|].
  exact (X12_channels_keep_the_set_of_spaces _ _ _ _ Hrun).
Defined.

(** ** The REST endpoints *)

Lemma world_view_lookup s space_id :
  database (world_view s) !! space_id = forget_times <$> spaces s !! space_id.
Proof. unfold world_view. cbn. apply lookup_fmap. Qed.

Section Endpoints.

Variable FRONTEND_URL : string.
Variable bson_datetime : Z -> Z.
Variable str_field : json -> option string.

(** X13.  A space made by [create_new_space] is served by
    [get_space_details]: when the creation answers, the identifier is the
    first eight characters of the UUID and was free, the invite link ends in
    it, the connection manager is untouched, and [get_space_details] for
    this identifier answers with the same identifier, language, code and
    invite link, and with the creation instant as the store keeps it.  The
    answer for every other identifier is as before. *)
Theorem X13_created_space_is_served space_data uuid4 created_at last_updated s r s' :
  Api.create_new_space FRONTEND_URL bson_datetime str_field space_data uuid4
    created_at last_updated s = (Ok r, s') ->
  sr_space_id r = String.substring 0 8 uuid4
  ∧ spaces s !! sr_space_id r = None
  ∧ str_field (JStr (sc_language space_data)) = Some (sr_language r)
  ∧ str_field (JStr (sc_initial_code space_data)) = Some (sr_code r)
  ∧ sr_created_at r = created_at
  ∧ sr_invite_link r = (FRONTEND_URL ++ "/space/" ++ sr_space_id r)%string
  ∧ connection_manager s' = connection_manager s
  ∧ Api.get_space_details FRONTEND_URL str_field (sr_space_id r) s' =
      Ok (mkSpaceResponse (sr_space_id r) (sr_language r) (sr_code r)
            (bson_datetime created_at) (sr_invite_link r))
  ∧ (forall other, other ≠ sr_space_id r ->
       Api.get_space_details FRONTEND_URL str_field other s' =
       Api.get_space_details FRONTEND_URL str_field other s).
Proof.
  unfold Api.create_new_space, Spaces.create_space.
  destruct (spaces s !! String.substring 0 8 uuid4) as [d|] eqn:Hfree; [done|].
  unfold Api.make_response. cbn [sd_language sd_code sd_created_at].
  destruct (str_field (JStr (sc_language space_data))) as [language|] eqn:Hl; [|done].
  destruct (str_field (JStr (sc_initial_code space_data))) as [code|] eqn:Hc; [|done].
  intros [= <- <-]. cbn [sr_space_id sr_language sr_code sr_created_at sr_invite_link
                          connection_manager].
  do 7 (split; [done|]). split.
  - unfold Api.get_space_details, Spaces.get_space. cbn [spaces].
    rewrite lookup_insert_eq. unfold Api.make_response, Spaces.stored. cbn.
    by rewrite Hl, Hc.
  - intros other Hne. unfold Api.get_space_details, Spaces.get_space. cbn [spaces].
    by rewrite lookup_insert_ne.
Qed.

(** X14.  A space made by [create_new_space] can be joined: a channel
    opened on its identifier is admitted, and the [init] message that the
    joiner gets carries the language and the initial code of the request and
    counts the joiner, whose send is taken to succeed. *)
Theorem X14_created_space_can_be_joined space_data uuid4 created_at last_updated s r s'
    websocket user_id env :
  Api.create_new_space FRONTEND_URL bson_datetime str_field space_data uuid4
    created_at last_updated s = (Ok r, s') ->
  transport env websocket = SendOk ->
  let opened := websocket_open websocket (sr_space_id r) user_id env (world_view s') in
  outcome_of opened = Ret true
  ∧ websocket ∈ members (sr_space_id r) (manager (world_of opened))
  ∧ received websocket (trace_of opened) =
      [JObj [("type", JStr "init"); ("space_id", JStr (sr_space_id r));
             ("user_id", JStr user_id);
             ("code", JStr (sc_initial_code space_data));
             ("language", JStr (sc_language space_data));
             ("active_users",
              JNum (Z.of_nat (size (members (sr_space_id r) (connection_manager s)
                                    ∪ {[websocket]}))))]].
Proof.
  intros Hcreate Hok. cbn zeta.
  assert (sr_space_id r = String.substring 0 8 uuid4
          ∧ connection_manager s' = connection_manager s
          ∧ database (world_view s') !! sr_space_id r =
            Some (mkSpaceDoc (JStr (sc_initial_code space_data))
                             (JStr (sc_language space_data)) [])) as (Hid & Hm & Hdb).
  { revert Hcreate. unfold Api.create_new_space, Spaces.create_space.
    destruct (spaces s !! String.substring 0 8 uuid4) as [d|] eqn:Hfree; [done|].
    unfold Api.make_response. cbn [sd_language sd_code sd_created_at].
    destruct (str_field (JStr (sc_language space_data))) as [language|]; [|done].
    destruct (str_field (JStr (sc_initial_code space_data))) as [code|]; [|done].
    intros [= <- <-]. cbn [sr_space_id connection_manager]. split; [done|]. split; [done|].
    rewrite world_view_lookup. cbn [spaces]. by rewrite lookup_insert_eq. }
  split; [|split].
  - by rewrite (open_admitted _ _ _ _ _ _ Hdb Hok).
  - rewrite (open_admitted _ _ _ _ _ _ Hdb Hok). cbn zeta. rewrite world_of_result.
    rewrite broadcast_members, decide_True by done.
    rewrite members_joined, decide_True by done.
    apply elem_of_difference. split; [set_solver | apply joiner_stays].
  - rewrite (received_open _ _ _ _ _ _ _ Hdb Hok). cbn zeta.
    rewrite decide_True by done. unfold init_message. cbn [doc_code doc_language].
    unfold world_view. cbn [manager]. by rewrite Hm.
Qed.

(** X15.  [delete_space_endpoint] deletes the document and nothing else:
    it answers 404 exactly when there was none, it leaves the connection
    manager and the other documents as they were, and afterwards
    [get_space_details], [get_active_users_count] and a second deletion
    answer 404 and a channel opened on the space is closed with code 4004,
    whatever members the space still has. *)
Theorem X15_delete_leaves_the_channels space_id s :
  let r := Api.delete_space_endpoint space_id s in
  r.1 = (if decide (is_Some (spaces s !! space_id))
         then Ok "Space deleted successfully"
         else HTTPException 404 "Space not found")
  ∧ connection_manager r.2 = connection_manager s
  ∧ (forall other, other ≠ space_id -> spaces r.2 !! other = spaces s !! other)
  ∧ Api.get_space_details FRONTEND_URL str_field space_id r.2 =
      HTTPException 404 "Space not found"
  ∧ Api.get_active_users_count space_id r.2 = HTTPException 404 "Space not found"
  ∧ (Api.delete_space_endpoint space_id r.2).1 = HTTPException 404 "Space not found"
  ∧ (forall websocket user_id env,
       websocket_open websocket space_id user_id env (world_view r.2) =
       (Ret false, world_view r.2,
        [EDb (GetSpace space_id); EClose websocket 4004 "Space not found"])).
Proof.
  cbn zeta.
  assert (Api.delete_space_endpoint space_id s =
          (if decide (is_Some (spaces s !! space_id))
           then Ok "Space deleted successfully"
           else HTTPException 404 "Space not found",
           mkServer (connection_manager s) (delete space_id (spaces s)))) as ->.
  { unfold Api.delete_space_endpoint, Spaces.delete_space.
    case_decide as Hd.
    - by rewrite bool_decide_eq_true_2.
    - by rewrite bool_decide_eq_false_2. }
  cbn [fst snd connection_manager spaces].
  split; [done|]. split; [done|].
  split; [by intros other Hne; rewrite lookup_delete_ne|].
  split; [|split; [|split]].
  - unfold Api.get_space_details, Spaces.get_space. cbn [spaces].
    by rewrite lookup_delete_eq.
  - unfold Api.get_active_users_count, Spaces.get_space. cbn [spaces].
    by rewrite lookup_delete_eq.
  - unfold Api.delete_space_endpoint, Spaces.delete_space. cbn [spaces].
    rewrite bool_decide_eq_false_2; [done|]. rewrite lookup_delete_eq. by intros [? ?].
  - intros websocket user_id env. apply open_missing.
    rewrite world_view_lookup. cbn [spaces]. by rewrite lookup_delete_eq.
Qed.

End Endpoints.

Lemma X13_created_space_is_served_witness :
  let r := mkSpaceResponse "3f2a9c1e" "python" "" 1700000000123456
             "http://localhost:5173/space/3f2a9c1e" in
  let s' := mkServer empty_manager
              {[ "3f2a9c1e" := mkSpaceDocument "3f2a9c1e" (JStr "") (JStr "python")
                                 1700000000123000 1700000000123000 [] ]} in
  Api.get_space_details "http://localhost:5173" strings_only "3f2a9c1e" s' =
  Ok (mkSpaceResponse "3f2a9c1e" "python" "" 1700000000123000
        "http://localhost:5173/space/3f2a9c1e").
Proof.
  intros r s'.
  apply (X13_created_space_is_served "http://localhost:5173" to_millisecond strings_only
           (SpaceCreate_of None None) "3f2a9c1e-8d4b-4c6f-9a57-2b1e0c7d5f43"
           1700000000123456 1700000000123460 (mkServer empty_manager ∅) r s').
  by vm_compute.
Defined.

Lemma X14_created_space_can_be_joined_witness :
  let r := mkSpaceResponse "3f2a9c1e" "rust" "fn main() {}" 1700000000123456
             "http://localhost:5173/space/3f2a9c1e" in
  let s' := mkServer empty_manager
              {[ "3f2a9c1e" := mkSpaceDocument "3f2a9c1e" (JStr "fn main() {}")
                                 (JStr "rust") 1700000000123000 1700000000123000 [] ]} in
  outcome_of (websocket_open 1%positive "3f2a9c1e" "u1" (env_at 100) (world_view s')) =
  Ret true.
Proof.
  intros r s'.
  apply (X14_created_space_can_be_joined "http://localhost:5173" to_millisecond
           strings_only (SpaceCreate_of (Some "rust") (Some "fn main() {}"))
           "3f2a9c1e-8d4b-4c6f-9a57-2b1e0c7d5f43"
           1700000000123456 1700000000123460 (mkServer empty_manager ∅) r s').
  - by vm_compute.
  - reflexivity.
Defined.

(** ** The ways out of the endpoint *)







